(** * DMX-Monitor: Art-Net transport, sACN arbitration, recording codec

    A shallow embedding of the core of the DMX-Monitor sources
    ([protocols/artnet.ts], [transmitter.ts], [protocols/sacn.ts],
    [recorder.ts], [types.ts]) and the properties of its specification.

    Conventions.
    - A Node [Buffer] / [Uint8Array] is a [list Z] whose elements are
      bytes; [is_bytes] states the range when a proof needs it.
    - Indices, offsets and lengths are [nat]; decoded integers, channel
      values and clock readings (milliseconds) are [Z].
    - [Date.now()] / [new Date()] is an explicit argument [now].
    - A JS [Map] whose iteration order matters is an association list in
      insertion order; a [Map] only used by key is a [gmap].
    - A function that can throw returns [option]; [None] is the exception. *)

From Stdlib Require Import ZArith Lia.
From stdpp Require Import base option list strings gmap sorting.

Local Open Scope Z_scope.

(** ** Buffers *)

Module Buf.

(** Every element is an unsigned byte. *)
Definition is_bytes (b : list Z) : bool :=
  forallb (fun x => (0 <=? x) && (x <? 256)) b.

(** [Buffer.alloc n]: zero filled. *)
Definition alloc (n : nat) : list Z := replicate n 0.

(** [buf.readUInt8(off)]: throws when [off] is out of range. *)
Definition readUInt8 (buf : list Z) (off : nat) : option Z := buf !! off.

(** [buf.readUInt16LE(off)]: throws unless [off + 2 <= buf.length]. *)
Definition readUInt16LE (buf : list Z) (off : nat) : option Z :=
  match buf !! off, buf !! S off with
  | Some lo, Some hi => Some (Z.lor lo (Z.shiftl hi 8))
  | _, _ => None
  end.

(** [buf.readUInt16BE(off)]. *)
Definition readUInt16BE (buf : list Z) (off : nat) : option Z :=
  match buf !! off, buf !! S off with
  | Some hi, Some lo => Some (Z.lor (Z.shiftl hi 8) lo)
  | _, _ => None
  end.

(** [buf.readUInt32LE(off)]. *)
Definition readUInt32LE (buf : list Z) (off : nat) : option Z :=
  match buf !! off, buf !! (off + 1)%nat, buf !! (off + 2)%nat, buf !! (off + 3)%nat with
  | Some b0, Some b1, Some b2, Some b3 =>
      Some (b0 + Z.shiftl b1 8 + Z.shiftl b2 16 + Z.shiftl b3 24)
  | _, _, _, _ => None
  end.

(** [buf.writeUInt8(v, off)]: throws when [v] is not a byte or [off] is
    out of range. *)
Definition writeUInt8 (v : Z) (off : nat) (buf : list Z) : option (list Z) :=
  if decide (0 <= v <= 255 /\ (off < length buf)%nat)
  then Some (<[off := v]> buf) else None.

(** [buf.writeUInt16LE(v, off)]: throws when [v] is outside [0, 65535] or
    the two bytes do not fit. *)
Definition writeUInt16LE (v : Z) (off : nat) (buf : list Z) : option (list Z) :=
  if decide (0 <= v <= 65535 /\ (off + 2 <= length buf)%nat)
  then Some (<[S off := Z.shiftr v 8]> (<[off := Z.land v 255]> buf)) else None.

(** [buf.writeUInt16BE(v, off)]. *)
Definition writeUInt16BE (v : Z) (off : nat) (buf : list Z) : option (list Z) :=
  if decide (0 <= v <= 65535 /\ (off + 2 <= length buf)%nat)
  then Some (<[S off := Z.land v 255]> (<[off := Z.shiftr v 8]> buf)) else None.

(** [buf.writeUInt32LE(v, off)]. *)
Definition writeUInt32LE (v : Z) (off : nat) (buf : list Z) : option (list Z) :=
  if decide (0 <= v <= 4294967295 /\ (off + 4 <= length buf)%nat)
  then Some (<[(off + 3)%nat := Z.land (Z.shiftr v 24) 255]>
            (<[(off + 2)%nat := Z.land (Z.shiftr v 16) 255]>
            (<[(off + 1)%nat := Z.land (Z.shiftr v 8) 255]>
            (<[off := Z.land v 255]> buf))))
  else None.

(** [buf.writeBigInt64LE(BigInt(v), off)]: two's complement on 64 bits. *)
Definition writeBigInt64LE (v : Z) (off : nat) (buf : list Z) : option (list Z) :=
  if decide (- 2 ^ 63 <= v < 2 ^ 63 /\ (off + 8 <= length buf)%nat)
  then Some (foldl (fun b (i : nat) =>
                      <[(off + i)%nat := Z.land (Z.shiftr v (8 * Z.of_nat i)) 255]> b)
                   buf (seq 0 8))
  else None.

(** [Number(buf.readBigInt64LE(off))]. *)
Definition readBigInt64LE (buf : list Z) (off : nat) : option Z :=
  if decide (off + 8 <= length buf)%nat
  then
    let u := foldr (fun (i : nat) acc =>
                      acc + Z.shiftl (default 0 (buf !! (off + i)%nat)) (8 * Z.of_nat i))
                   0 (seq 0 8) in
    Some (if decide (u < 2 ^ 63) then u else u - 2 ^ 64)
  else None.

(** [src.copy(dst, off)]: copies as many bytes of [src] as fit. *)
Definition copy (src : list Z) (off : nat) (dst : list Z) : list Z :=
  take (length dst) (take off dst ++ src ++ drop (off + length src) dst).

(** The bytes of an ASCII string. *)
Fixpoint of_string (s : string) : list Z :=
  match s with
  | EmptyString => []
  | String c s' => Z.of_nat (Ascii.nat_of_ascii c) :: of_string s'
  end.

End Buf.

(** ** Shared types ([types.ts]) *)

Definition GRID_COLUMNS : nat := 32.
Definition GRID_ROWS : nat := 16.
Definition TOTAL_CHANNELS : nat := Eval cbv in (GRID_COLUMNS * GRID_ROWS)%nat.

(** [isValidUniverse]: an integer in [0, 63999]. *)
Definition isValidUniverse (universe : Z) : bool :=
  bool_decide (0 <= universe) && bool_decide (universe <= 63999).

(** [DMXPacket].  Optional fields are [option]. *)
Record DMXPacket := mkDMXPacket {
  universe : Z;
  channels : list Z;
  source : option string;
  priority : option Z;
  sequence : option Z;
  timestamp : Z
}.

(** [UniverseInfo]. *)
Record UniverseInfo := mkUniverseInfo {
  ui_universe : Z;
  ui_lastSeen : Z;
  ui_packetCount : Z;
  ui_source : option string
}.

(** ** Art-Net receiver ([protocols/artnet.ts]) *)

Module ArtNet.

Definition ARTNET_OPCODE_DMX : Z := 0x5000.
Definition ARTNET_OPCODE_POLL : Z := 0x2000.
Definition ARTNET_OPCODE_POLL_REPLY : Z := 0x2100.

(** [Buffer.from("Art-Net\0")]. *)
Definition ARTNET_HEADER : list Z := Eval cbv in Buf.of_string "Art-Net" ++ [0].
Definition ARTNET_HEADER_LENGTH : nat := 8.
Definition ARTNET_MIN_PACKET_LENGTH : nat := 18.
Definition ARTNET_POLL_REPLY_MIN_LENGTH : nat := 207.

(** [dgram.RemoteInfo]. *)
Record RemoteInfo := mkRemoteInfo { address : string; port : Z }.

(** [ArtNetNode].  Names are the raw bytes before the first NUL (their
    UTF-8 decoding and trimming are presentation); the manufacturer is kept
    as its ESTA code, the firmware version as its two bytes. *)
Record ArtNetNode := mkArtNetNode {
  ip : string;
  shortName : list Z;
  longName : list Z;
  universes : list Z;
  macAddress : list Z;
  manufacturer : Z;
  firmwareVersion : option Z * option Z;
  lastSeen : Z
}.

(** What the handler logs. *)
Inductive Note :=
  | PacketTooShort (len : nat)
  | InvalidHeader
  | UnhandledPacket (opCode : Z)
  | UnsupportedVersion (version : Z)
  | InvalidUniverse (u : Z)
  | InvalidDataLength (len : Z)
  | PacketTruncated (expected : Z) (actual : nat)
  | DiscoveredUniverse (u : Z)
  | DMXReceived (u : Z) (dataLength : Z)
  | PollReplyTooShort (len : nat)
  | PollReplyError
  | DiscoveredNode (addr : string)
  | ArtPollNoSocket
  | MessageError.

(** What the handler emits to its listeners ([ProtocolEvents]). *)
Inductive Event :=
  | packet (p : DMXPacket)
  | universeDiscovered (u : Z)
  | nodeDiscovered (n : ArtNetNode)
  | error.

Inductive Output :=
  | Log (n : Note)
  | Emit (e : Event).

(** The handler's tables.  [discoveredNodes] keeps insertion order. *)
Record ArtNetHandler := mkArtNetHandler {
  discoveredUniverses : gmap Z UniverseInfo;
  discoveredNodes : list (string * ArtNetNode);
  socket : bool
}.

Definition initial : ArtNetHandler :=
  {| discoveredUniverses := ∅; discoveredNodes := []; socket := true |}.

(** The packets among the outputs. *)
Definition packets (out : list Output) : list DMXPacket :=
  omap (fun o => match o with Emit (packet p) => Some p | _ => None end) out.

(** [sendArtPoll]: the 14 bytes put on the wire ([None] without a socket;
    the destination address is not modelled). *)
Definition artPollPacket : option (list Z) :=
  let b := Buf.alloc 14 in
  let b := Buf.copy (Buf.of_string "Art-Net" ++ [0]) 0 b in
  b ← Buf.writeUInt16LE ARTNET_OPCODE_POLL 8 b;
  b ← Buf.writeUInt8 0 10 b;
  b ← Buf.writeUInt8 14 11 b;
  b ← Buf.writeUInt8 0 12 b;
  Buf.writeUInt8 0 13 b.

Definition sendArtPoll (h : ArtNetHandler) : option (list Z) :=
  if socket h then artPollPacket else None.

(** [validateHeader]. *)
Definition validateHeader (msg : list Z) : bool :=
  forallb (fun i => bool_decide (msg !! i = ARTNET_HEADER !! i))
          (seq 0 ARTNET_HEADER_LENGTH).

(** The channel extraction loop of [parseDMXPacket]: a fresh zeroed
    [Uint8Array(512)], then [channels[i] = msg[18 + i]] for
    [i < min(dataLength, 512)] where that byte exists. *)
Definition extractChannels (msg : list Z) (dataLength : Z) : list Z :=
  foldl (fun (channels : list Z) (i : nat) =>
           match msg !! (18 + i)%nat with
           | Some value => <[i := value]> channels
           | None => channels
           end)
        (replicate TOTAL_CHANNELS 0)
        (seq 0 (Z.to_nat (Z.min dataLength (Z.of_nat TOTAL_CHANNELS)))).

(** [parseDMXPacket].  [None] is a thrown [RangeError] of a buffer read. *)
Definition parseDMXPacket (msg : list Z) (rinfo : RemoteInfo) (now : Z)
    (h : ArtNetHandler) : option (ArtNetHandler * list Output) :=
  protocolVersion ← Buf.readUInt16BE msg 10;
  if decide (protocolVersion < 14) then Some (h, [Log (UnsupportedVersion protocolVersion)]) else
  let sequence := msg !! 12%nat in
  universe ← Buf.readUInt16LE msg 14;
  if negb (isValidUniverse universe) then Some (h, [Log (InvalidUniverse universe)]) else
  dataLength ← Buf.readUInt16BE msg 16;
  if decide (dataLength < 2 \/ dataLength > 512) then Some (h, [Log (InvalidDataLength dataLength)]) else
  if decide (Z.of_nat (length msg) < 18 + dataLength)
  then Some (h, [Log (PacketTruncated (18 + dataLength) (length msg))]) else
  let '(universes', discovered) :=
    match discoveredUniverses h !! universe with
    | None =>
        (<[universe := {| ui_universe := universe; ui_lastSeen := now;
                          ui_packetCount := 1; ui_source := Some (address rinfo) |}]>
           (discoveredUniverses h),
         [Log (DiscoveredUniverse universe); Emit (universeDiscovered universe)])
    | Some existingInfo =>
        (<[universe := {| ui_universe := ui_universe existingInfo; ui_lastSeen := now;
                          ui_packetCount := ui_packetCount existingInfo + 1;
                          ui_source := Some (address rinfo) |}]>
           (discoveredUniverses h),
         [])
    end in
  let channels := extractChannels msg dataLength in
  let dmxPacket :=
    {| universe := universe; channels := channels; source := Some (address rinfo);
       priority := None; sequence := sequence; timestamp := now |} in
  Some ({| discoveredUniverses := universes'; discoveredNodes := discoveredNodes h;
           socket := socket h |},
        discovered ++ [Log (DMXReceived universe dataLength); Emit (packet dmxPacket)]).

(** [msg.subarray(a, b)]. *)
Definition subarray (msg : list Z) (a b : nat) : list Z := take (b - a) (drop a msg).

(** The bytes before the first NUL. *)
Fixpoint cstring (b : list Z) : list Z :=
  match b with
  | [] => []
  | x :: b' => if decide (x = 0) then [] else x :: cstring b'
  end.

Fixpoint nodes_get (k : string) (m : list (string * ArtNetNode)) : option ArtNetNode :=
  match m with
  | [] => None
  | (k', v) :: m' => if decide (k = k') then Some v else nodes_get k m'
  end.

Fixpoint nodes_set (k : string) (v : ArtNetNode) (m : list (string * ArtNetNode))
    : list (string * ArtNetNode) :=
  match m with
  | [] => [(k, v)]
  | (k', v') :: m' => if decide (k = k') then (k, v) :: m' else (k', v') :: nodes_set k v m'
  end.

(** The [SwOut] loop of [parseArtPollReply]: the four bytes at 190..193,
    leaving out [0xFF] and values already listed. *)
Definition addSwOut (msg : list Z) (universes0 : list Z) : list Z :=
  foldl (fun (us : list Z) (i : nat) =>
           match msg !! (190 + i)%nat with
           | Some swOutValue =>
               if decide (swOutValue <> 0xff /\ swOutValue ∉ us) then us ++ [swOutValue] else us
           | None => us
           end)
        universes0 (seq 0 4).

(** [parseArtPollReply]. *)
Definition parseArtPollReply (msg : list Z) (rinfo : RemoteInfo) (now : Z)
    (h : ArtNetHandler) : ArtNetHandler * list Output :=
  if decide (length msg < ARTNET_POLL_REPLY_MIN_LENGTH)%nat
  then (h, [Log (PollReplyTooShort (length msg))]) else
  let shortName := cstring (subarray msg 26 44) in
  match (hi ← Buf.readUInt8 msg 25; lo ← Buf.readUInt8 msg 24;
         Some (Z.lor (Z.shiftl hi 8) lo)) with
  | None => (h, [Log PollReplyError])
  | Some estaCode =>
      let longName := cstring (subarray msg 44 108) in
      let firmware := (msg !! 16%nat, msg !! 17%nat) in
      let mac := subarray msg 201 207 in
      let existing := nodes_get (address rinfo) (discoveredNodes h) in
      let node0 :=
        match existing with
        | None => {| ip := address rinfo; shortName := shortName; longName := longName;
                     universes := []; macAddress := mac; manufacturer := estaCode;
                     firmwareVersion := firmware; lastSeen := now |}
        | Some node => {| ip := ip node; shortName := shortName; longName := longName;
                          universes := universes node; macAddress := mac;
                          manufacturer := estaCode; firmwareVersion := firmware;
                          lastSeen := now |}
        end in
      let node :=
        {| ip := ip node0; shortName := shortName; longName := longName;
           universes := merge_sort Z.le (addSwOut msg (universes node0));
           macAddress := mac; manufacturer := estaCode; firmwareVersion := firmware;
           lastSeen := now |} in
      ({| discoveredUniverses := discoveredUniverses h;
          discoveredNodes := nodes_set (address rinfo) node (discoveredNodes h);
          socket := socket h |},
       match existing with
       | None => [Log (DiscoveredNode (address rinfo)); Emit (nodeDiscovered node)]
       | Some _ => []
       end)
  end.

(** [handleMessage].  [None] is an exception escaping the function. *)
Definition handleMessage (msg : list Z) (rinfo : RemoteInfo) (now : Z)
    (h : ArtNetHandler) : option (ArtNetHandler * list Output) :=
  if decide (length msg < ARTNET_MIN_PACKET_LENGTH)%nat
  then Some (h, [Log (PacketTooShort (length msg))]) else
  if negb (validateHeader msg) then Some (h, [Log InvalidHeader]) else
  opCode ← Buf.readUInt16LE msg 8;
  if decide (opCode = ARTNET_OPCODE_DMX) then parseDMXPacket msg rinfo now h
  else if decide (opCode = ARTNET_OPCODE_POLL_REPLY) then Some (parseArtPollReply msg rinfo now h)
  else Some (h, [Log (UnhandledPacket opCode)]).

(** The socket's ["message"] listener: [handleMessage] inside a
    [try]/[catch] that logs and emits ["error"]. *)
Definition onMessage (msg : list Z) (rinfo : RemoteInfo) (now : Z)
    (h : ArtNetHandler) : ArtNetHandler * list Output :=
  match handleMessage msg rinfo now h with
  | Some r => r
  | None => (h, [Log MessageError; Emit error])
  end.

(** The universes a node is known to output before a reply arrives. *)
Definition knownUniverses (addr : string) (h : ArtNetHandler) : list Z :=
  match nodes_get addr (discoveredNodes h) with
  | Some node => universes node
  | None => []
  end.

End ArtNet.

(** ** Art-Net transmitter ([transmitter.ts]) *)

Module Transmitter.

Definition ARTNET_HEADER : list Z := Eval cbv in Buf.of_string "Art-Net" ++ [0].
Definition ARTNET_OPCODE_DMX : Z := 0x5000.

(** [ArtNetTransmitter]: the configured universe, the running sequence
    counter and whether the socket is up. *)
Record ArtNetTransmitter := mkArtNetTransmitter {
  universe : Z;
  sequence : Z;
  isRunning : bool
}.

(** The data copy loop of [send]: [packet[18 + i] = channels[i] ?? 0]. *)
Definition copyData (channels : list Z) (dataLength : nat) (packet : list Z) : list Z :=
  foldl (fun (p : list Z) (i : nat) => <[(18 + i)%nat := default 0 (channels !! i)]> p)
        packet (seq 0 dataLength).

(** The datagram [send] builds.  [None] is a thrown [RangeError]. *)
Definition buildPacket (t : ArtNetTransmitter) (channels : list Z) : option (list Z) :=
  let dataLength := Nat.min (length channels) TOTAL_CHANNELS in
  let p := Buf.alloc (18 + dataLength) in
  let p := Buf.copy ARTNET_HEADER 0 p in
  p ← Buf.writeUInt16LE ARTNET_OPCODE_DMX 8 p;
  p ← Buf.writeUInt16BE 14 10 p;
  p ← Buf.writeUInt8 (sequence t) 12 p;
  p ← Buf.writeUInt8 0 13 p;
  p ← Buf.writeUInt16LE (universe t) 14 p;
  p ← Buf.writeUInt16BE (Z.of_nat dataLength) 16 p;
  Some (copyData channels dataLength p).

(** [send]: the transmitter afterwards and the datagram handed to the
    socket, if any.  Outer [None] is a thrown exception. *)
Definition send (channels : list Z) (t : ArtNetTransmitter)
    : option (ArtNetTransmitter * option (list Z)) :=
  if negb (isRunning t) then Some (t, None) else
  p ← buildPacket t channels;
  Some ({| universe := universe t; sequence := Z.land (sequence t + 1) 0xff;
           isRunning := isRunning t |}, Some p).

(** A run of [send] calls, one per frame: the transmitter at the end and
    the datagrams handed to the socket, in order. *)
Fixpoint sendAll (frames : list (list Z)) (t : ArtNetTransmitter)
    : option (ArtNetTransmitter * list (list Z)) :=
  match frames with
  | [] => Some (t, [])
  | channels :: rest =>
      '(t, p) ← send channels t;
      '(t, ps) ← sendAll rest t;
      Some (t, match p with Some p => p :: ps | None => ps end)
  end.

End Transmitter.

(** ** sACN source arbitration ([protocols/sacn.ts]) *)

Module SACN.

(** Source timeout in milliseconds. *)
Definition SOURCE_TIMEOUT_MS : Z := 5000.

(** [SACNSourceInfo]. *)
Record SACNSourceInfo := mkSACNSourceInfo {
  si_sourceName : string;
  si_sourceAddress : option string;
  si_priority : Z;
  si_lastSeen : Z;
  isActive : bool
}.

(** What the handler logs. *)
Inductive Note :=
  | InvalidUniverse (u : Z)
  | DiscoveredUniverse (u : Z)
  | SourceInfoNote (key : string) (pri : Z)
  | IgnoringPacket (name : string) (pri : Z)
  | MultipleSources (active : option string) (pri : Z)
  | SourceTimedOut (key : string).

(** What the handler emits ([ProtocolEvents]). *)
Inductive Event :=
  | packet (p : DMXPacket)
  | universeDiscovered (u : Z)
  | sourcesChanged (sources : list SACNSourceInfo).

Inductive Output :=
  | Log (n : Note)
  | Emit (e : Event).

Definition packets (out : list Output) : list DMXPacket :=
  omap (fun o => match o with Emit (packet p) => Some p | _ => None end) out.

(** *** The source table: a JS [Map] in insertion order *)

Abbreviation SourceMap := (list (string * SACNSourceInfo)).

Fixpoint map_get (k : string) (m : SourceMap) : option SACNSourceInfo :=
  match m with
  | [] => None
  | (k', v) :: m' => if decide (k = k') then Some v else map_get k m'
  end.

(** [Map.prototype.set]: an existing key keeps its place, a new key goes
    to the end. *)
Fixpoint map_set (k : string) (v : SACNSourceInfo) (m : SourceMap) : SourceMap :=
  match m with
  | [] => [(k, v)]
  | (k', v') :: m' => if decide (k = k') then (k, v) :: m' else (k', v') :: map_set k v m'
  end.

(** The [for (const [name, info] of this.sources)] loop that looks for the
    highest priority: a later source replaces the current best only when
    its priority is strictly greater. *)
Definition highest_step (acc : Z * option string) (e : string * SACNSourceInfo)
    : Z * option string :=
  if decide (si_priority e.2 > acc.1) then (si_priority e.2, Some e.1) else acc.

Definition findHighest (m : SourceMap) : Z * option string :=
  foldl highest_step (-1, None) m.

(** The loop [info.isActive = name === highestPrioritySource]. *)
Definition setActive (highest : option string) (m : SourceMap) : SourceMap :=
  (fun e : string * SACNSourceInfo =>
     (e.1, {| si_sourceName := si_sourceName e.2; si_sourceAddress := si_sourceAddress e.2;
              si_priority := si_priority e.2; si_lastSeen := si_lastSeen e.2;
              isActive := bool_decide (Some e.1 = highest) |})) <$> m.

(** [getSources]: the table's values sorted by descending priority
    ([Array.prototype.sort] is stable). *)
Fixpoint insertByPriority (x : SACNSourceInfo) (l : list SACNSourceInfo) : list SACNSourceInfo :=
  match l with
  | [] => [x]
  | y :: l' =>
      if decide (si_priority y >= si_priority x) then y :: insertByPriority x l' else x :: y :: l'
  end.

Definition getSources (m : SourceMap) : list SACNSourceInfo :=
  foldl (fun acc x => insertByPriority x acc) [] (snd <$> m).

Section Handler.

(** The channel payload of a decoded sACN packet holds percentages as
    floating-point numbers; its type and its conversion to 512 DMX values
    ([Math.round(value / 100 * 255)] per channel) are left abstract. *)
Context {Payload : Type} (toChannels : Payload -> list Z).

(** [SACNPacket], as delivered by the sACN packet decoder. *)
Record SACNPacket := mkSACNPacket {
  universe : Z;
  payload : Payload;
  sourceName : option string;
  sourceAddress : option string;
  priority : option Z;
  sequence : option Z;
  cid : option (list Z)
}.

(** The handler's state. *)
Record SACNHandler := mkSACNHandler {
  discoveredUniverses : gmap Z UniverseInfo;
  sources : SourceMap;
  activeSource : option string
}.

Definition initial : SACNHandler :=
  {| discoveredUniverses := ∅; sources := []; activeSource := None |}.

(** [buf.toString("hex")]. *)
Definition hexDigit (n : Z) : Ascii.ascii :=
  default (Ascii.ascii_of_nat 48) (String.get (Z.to_nat n) "0123456789abcdef").

Fixpoint toHex (b : list Z) : string :=
  match b with
  | [] => EmptyString
  | x :: b' => String (hexDigit (Z.shiftr x 4)) (String (hexDigit (Z.land x 15)) (toHex b'))
  end.

(** JS truthiness of an optional string. *)
Definition truthy (s : option string) : bool :=
  match s with
  | Some s => negb (bool_decide (s = EmptyString))
  | None => false
  end.

(** [getSourceKey]: CID, else name and address, else name. *)
Definition getSourceKey (p : SACNPacket) : string :=
  match cid p with
  | Some ((_ :: _) as c) => toHex c
  | _ =>
      if truthy (sourceAddress p)
      then default "Unknown"%string (sourceName p) +:+ "@" +:+ default EmptyString (sourceAddress p)
      else default "Unknown"%string (sourceName p)
  end.

(** [emitSourcesChanged]. *)
Definition emitSourcesChanged (m : SourceMap) : Output :=
  Emit (sourcesChanged (getSources m)).

(** [updateSourceTracking]: the handler afterwards, what was logged and
    emitted, and whether the packet comes from the active source. *)
Definition updateSourceTracking (sourceKey sourceName : string)
    (sourceAddress : option string) (priority now : Z) (h : SACNHandler)
    : SACNHandler * list Output * bool :=
  let wasNewSource := bool_decide (map_get sourceKey (sources h) = None) in
  let sourceInfo :=
    {| si_sourceName := sourceName; si_sourceAddress := sourceAddress;
       si_priority := priority; si_lastSeen := now; isActive := false |} in
  let sources1 := map_set sourceKey sourceInfo (sources h) in
  let '(highestPriority, highestPrioritySource) := findHighest sources1 in
  let sources2 := setActive highestPrioritySource sources1 in
  let activeChanged := negb (bool_decide (activeSource h = highestPrioritySource)) in
  let out :=
    if wasNewSource || activeChanged
    then (if decide (1 < length sources2)%nat
          then [Log (MultipleSources highestPrioritySource highestPriority)] else [])
         ++ [emitSourcesChanged sources2]
    else [] in
  ({| discoveredUniverses := discoveredUniverses h; sources := sources2;
      activeSource := highestPrioritySource |},
   out,
   bool_decide (Some sourceKey = highestPrioritySource)).

(** The deletion loop of [cleanupStaleSources]: the sources that are
    removed ([now - lastSeen > SOURCE_TIMEOUT_MS]) and those that stay, in
    table order. *)
Definition isStale (now : Z) (e : string * SACNSourceInfo) : bool :=
  bool_decide (now - si_lastSeen e.2 > SOURCE_TIMEOUT_MS).

Definition staleSources (now : Z) (m : SourceMap) : SourceMap :=
  filter (fun e => isStale now e = true) m.

Definition freshSources (now : Z) (m : SourceMap) : SourceMap :=
  filter (fun e => isStale now e = false) m.

(** [cleanupStaleSources], run by the one-second timer. *)
Definition cleanupStaleSources (now : Z) (h : SACNHandler) : SACNHandler * list Output :=
  let kept := freshSources now (sources h) in
  let timedOut := (fun e : string * SACNSourceInfo => Log (SourceTimedOut e.1))
                    <$> staleSources now (sources h) in
  let removed := negb (bool_decide (staleSources now (sources h) = [])) in
  if removed then
    if decide (0 < length kept)%nat then
      let '(_, highestPrioritySource) := findHighest kept in
      let kept' := setActive highestPrioritySource kept in
      ({| discoveredUniverses := discoveredUniverses h; sources := kept';
          activeSource := highestPrioritySource |},
       timedOut ++ [emitSourcesChanged kept'])
    else
      ({| discoveredUniverses := discoveredUniverses h; sources := kept;
          activeSource := None |},
       timedOut ++ [emitSourcesChanged kept])
  else (h, []).

(** [handlePacket]. *)
Definition handlePacket (p : SACNPacket) (now : Z) (h : SACNHandler)
    : SACNHandler * list Output :=
  if negb (isValidUniverse (universe p)) then (h, [Log (InvalidUniverse (universe p))]) else
  let existingInfo := discoveredUniverses h !! universe p in
  let '(universes', discovered, count) :=
    match existingInfo with
    | None =>
        (<[universe p := {| ui_universe := universe p; ui_lastSeen := now;
                            ui_packetCount := 1; ui_source := sourceName p |}]>
           (discoveredUniverses h),
         [Log (DiscoveredUniverse (universe p)); Emit (universeDiscovered (universe p))],
         None)
    | Some info =>
        (<[universe p := {| ui_universe := ui_universe info; ui_lastSeen := now;
                            ui_packetCount := ui_packetCount info + 1;
                            ui_source := if truthy (sourceName p) then sourceName p
                                         else ui_source info |}]>
           (discoveredUniverses h),
         [],
         Some (ui_packetCount info + 1))
    end in
  let name := default "Unknown"%string (sourceName p) in
  let sourceKey := getSourceKey p in
  let pri := default 100 (priority p) in
  let periodic := bool_decide (((λ c, c `mod` 100) <$> count) = Some 1) in
  let info_note := if periodic then [Log (SourceInfoNote sourceKey pri)] else [] in
  let h1 := {| discoveredUniverses := universes'; sources := sources h;
               activeSource := activeSource h |} in
  let '(h2, tracked, shouldEmit) :=
    updateSourceTracking sourceKey name (sourceAddress p) pri now h1 in
  if negb shouldEmit
  then (h2, discovered ++ info_note ++ tracked
            ++ (if periodic then [Log (IgnoringPacket name pri)] else []))
  else
    let dmxPacket :=
      mkDMXPacket (universe p) (toChannels (payload p)) (sourceName p) (priority p)
                  (sequence p) now in
    (h2, discovered ++ info_note ++ tracked ++ [Emit (packet dmxPacket)]).

(** The states the handler can be in: from [initial], by packets and
    cleanup sweeps at any clock reading. *)
Inductive reachable : SACNHandler -> Prop :=
  | reach_initial : reachable initial
  | reach_packet (p : SACNPacket) (now : Z) (h : SACNHandler) :
      reachable h -> reachable (handlePacket p now h).1
  | reach_cleanup (now : Z) (h : SACNHandler) :
      reachable h -> reachable (cleanupStaleSources now h).1.

End Handler.

(** The handler's tables agree: keys are distinct (it is a [Map]), the
    active source is what the highest-priority loop finds in the table,
    and a source is flagged active exactly when it is the active source. *)
Definition consistent (h : SACNHandler) : Prop :=
  NoDup (sources h).*1
  /\ activeSource h = (findHighest (sources h)).2
  /\ forall e, e ∈ sources h -> isActive e.2 = bool_decide (Some e.1 = activeSource h).

(** What the sweep keeps of an entry: key, name, address, priority and
    last-seen time (the active flag is recomputed). *)
Definition entryData (e : string * SACNSourceInfo)
    : string * string * option string * Z * Z :=
  (e.1, si_sourceName e.2, si_sourceAddress e.2, si_priority e.2, si_lastSeen e.2).

End SACN.

(** ** JavaScript integer operators *)

Module JS.

(** [ToInt32]: the signed 32-bit value of an integer. *)
Definition toInt32 (z : Z) : Z := (z + 2 ^ 31) mod 2 ^ 32 - 2 ^ 31.

(** [ToUint32]. *)
Definition toUint32 (z : Z) : Z := z mod 2 ^ 32.

(** [a << n]: the count is taken modulo 32, the result is an int32. *)
Definition shl (a n : Z) : Z := toInt32 (Z.shiftl (toInt32 a) (n mod 32)).

(** [a >>> n]: unsigned shift. *)
Definition shru (a n : Z) : Z := Z.shiftr (toUint32 a) (n mod 32).

(** [a & b] and [a | b]: int32 operands and result. *)
Definition and (a b : Z) : Z := Z.land (toInt32 a) (toInt32 b).
Definition or (a b : Z) : Z := Z.lor (toInt32 a) (toInt32 b).

End JS.

(** ** Recording types ([types.ts]) *)

Definition DMXREC_MAGIC : string := "DMXR".
Definition DMXREC_VERSION : Z := 1.

Module RecordingFlags.
Definition NONE : Z := 0x00.
Definition HAS_SNAPSHOTS : Z := 0x01.
End RecordingFlags.

Module FrameType.
Definition SNAPSHOT : Z := 0xfe.
Definition EXTENDED : Z := 0xff.
End FrameType.

Inductive Protocol := sacn | artnet.

(** [RecordingHeader]. *)
Record RecordingHeader := mkRecordingHeader {
  magic : string;
  version : Z;
  flags : Z;
  protocol : Z;
  rh_universe : Z;
  startTime : Z;
  duration : Z;
  frameCount : Z
}.

(** [ChannelChange]. *)
Record ChannelChange := mkChannelChange { channel : Z; value : Z }.

(** [RecordingFrame]. *)
Record RecordingFrame := mkRecordingFrame {
  deltaTime : Z;
  changes : list ChannelChange;
  isSnapshot : bool;
  snapshotData : option (list Z)
}.

(** ** Varint codec ([recorder.ts]) *)

Module Varint.

(** The loop of [encodeVarint]; [fuel] bounds its rounds.  After the first
    [>>>=] the value is below 2^25, so four rounds always suffice. *)
Fixpoint encodeLoop (fuel : nat) (value : Z) : list Z :=
  match fuel with
  | O => [JS.and value 0x7F]
  | S fuel' =>
      if decide (value > 0x7F)
      then JS.or (JS.and value 0x7F) 0x80 :: encodeLoop fuel' (JS.shru value 7)
      else [JS.and value 0x7F]
  end.

(** [encodeVarint]. *)
Definition encodeVarint (value : Z) : list Z := encodeLoop 5 value.

(** The loop of [decodeVarint] over the bytes from [offset] on. *)
Fixpoint decodeLoop (bytes : list Z) (value shift : Z) (bytesRead : nat) : Z * nat :=
  match bytes with
  | [] => (value, bytesRead)
  | byte :: rest =>
      let value' := JS.or value (JS.shl (JS.and byte 0x7F) shift) in
      if decide (JS.and byte 0x80 = 0) then (value', S bytesRead)
      else decodeLoop rest value' (shift + 7) (S bytesRead)
  end.

(** [decodeVarint]: the value and the number of bytes consumed. *)
Definition decodeVarint (buffer : list Z) (offset : nat) : Z * nat :=
  decodeLoop (drop offset buffer) 0 0 0.

End Varint.

(** ** Recorder ([recorder.ts], class [DMXRecorder]) *)

Module Recorder.

Definition HEADER_SIZE : nat := 32.
Definition SNAPSHOT_INTERVAL : Z := 5000.
Definition WRITE_BUFFER_SIZE : Z := Eval cbv in 64 * 1024.

(** [RecordingState]. *)
Inductive RecordingState := idle | recording | paused.

(** [state === "recording"]. *)
Definition isRecordingState (s : RecordingState) : bool :=
  match s with recording => true | _ => false end.

(** The file-system calls the recorder makes, in order. *)
Inductive FsOp :=
  | FsOpen (path : string)
  | FsWrite (data : list Z)
  | FsWriteAt (data : list Z) (position : nat)
  | FsSync
  | FsClose.

(** The content of the file opened last, after the calls [ops]:
    [openSync(path, 'w')] starts an empty file, [writeSync(fd, data)]
    appends, [writeSync(fd, data, 0, n, position)] overwrites in place. *)
Fixpoint diskFrom (content : list Z) (ops : list FsOp) : list Z :=
  match ops with
  | [] => content
  | FsOpen _ :: ops' => diskFrom [] ops'
  | FsWrite data :: ops' => diskFrom (content ++ data) ops'
  | FsWriteAt data position :: ops' =>
      diskFrom (resize position 0 content ++ data ++ drop (position + length data) content) ops'
  | _ :: ops' => diskFrom content ops'
  end.

Definition disk (ops : list FsOp) : list Z := diskFrom [] ops.

(** The recorder object.  [pending] is [writeBuffer[0 .. writeOffset)];
    [fileHandle] tells whether the handle is non-null; [fs] logs the
    file-system calls made so far. *)
Record DMXRecorder := mkDMXRecorder {
  state : RecordingState;
  filePath : option string;
  fileHandle : bool;
  pending : list Z;
  previousChannels : list Z;
  startTime : Z;
  lastFrameTime : Z;
  lastSnapshotTime : Z;
  frameCount : Z;
  bytesWritten : Z;
  protocol : Protocol;
  universe : Z;
  fs : list FsOp
}.

Definition set_state (v : RecordingState) (r : DMXRecorder) : DMXRecorder :=
  {| state := v; filePath := filePath r; fileHandle := fileHandle r; pending := pending r; previousChannels := previousChannels r; startTime := startTime r; lastFrameTime := lastFrameTime r; lastSnapshotTime := lastSnapshotTime r; frameCount := frameCount r; bytesWritten := bytesWritten r; protocol := protocol r; universe := universe r; fs := fs r |}.
Definition set_filePath (v : option string) (r : DMXRecorder) : DMXRecorder :=
  {| state := state r; filePath := v; fileHandle := fileHandle r; pending := pending r; previousChannels := previousChannels r; startTime := startTime r; lastFrameTime := lastFrameTime r; lastSnapshotTime := lastSnapshotTime r; frameCount := frameCount r; bytesWritten := bytesWritten r; protocol := protocol r; universe := universe r; fs := fs r |}.
Definition set_fileHandle (v : bool) (r : DMXRecorder) : DMXRecorder :=
  {| state := state r; filePath := filePath r; fileHandle := v; pending := pending r; previousChannels := previousChannels r; startTime := startTime r; lastFrameTime := lastFrameTime r; lastSnapshotTime := lastSnapshotTime r; frameCount := frameCount r; bytesWritten := bytesWritten r; protocol := protocol r; universe := universe r; fs := fs r |}.
Definition set_pending (v : list Z) (r : DMXRecorder) : DMXRecorder :=
  {| state := state r; filePath := filePath r; fileHandle := fileHandle r; pending := v; previousChannels := previousChannels r; startTime := startTime r; lastFrameTime := lastFrameTime r; lastSnapshotTime := lastSnapshotTime r; frameCount := frameCount r; bytesWritten := bytesWritten r; protocol := protocol r; universe := universe r; fs := fs r |}.
Definition set_previousChannels (v : list Z) (r : DMXRecorder) : DMXRecorder :=
  {| state := state r; filePath := filePath r; fileHandle := fileHandle r; pending := pending r; previousChannels := v; startTime := startTime r; lastFrameTime := lastFrameTime r; lastSnapshotTime := lastSnapshotTime r; frameCount := frameCount r; bytesWritten := bytesWritten r; protocol := protocol r; universe := universe r; fs := fs r |}.
Definition set_startTime (v : Z) (r : DMXRecorder) : DMXRecorder :=
  {| state := state r; filePath := filePath r; fileHandle := fileHandle r; pending := pending r; previousChannels := previousChannels r; startTime := v; lastFrameTime := lastFrameTime r; lastSnapshotTime := lastSnapshotTime r; frameCount := frameCount r; bytesWritten := bytesWritten r; protocol := protocol r; universe := universe r; fs := fs r |}.
Definition set_lastFrameTime (v : Z) (r : DMXRecorder) : DMXRecorder :=
  {| state := state r; filePath := filePath r; fileHandle := fileHandle r; pending := pending r; previousChannels := previousChannels r; startTime := startTime r; lastFrameTime := v; lastSnapshotTime := lastSnapshotTime r; frameCount := frameCount r; bytesWritten := bytesWritten r; protocol := protocol r; universe := universe r; fs := fs r |}.
Definition set_lastSnapshotTime (v : Z) (r : DMXRecorder) : DMXRecorder :=
  {| state := state r; filePath := filePath r; fileHandle := fileHandle r; pending := pending r; previousChannels := previousChannels r; startTime := startTime r; lastFrameTime := lastFrameTime r; lastSnapshotTime := v; frameCount := frameCount r; bytesWritten := bytesWritten r; protocol := protocol r; universe := universe r; fs := fs r |}.
Definition set_frameCount (v : Z) (r : DMXRecorder) : DMXRecorder :=
  {| state := state r; filePath := filePath r; fileHandle := fileHandle r; pending := pending r; previousChannels := previousChannels r; startTime := startTime r; lastFrameTime := lastFrameTime r; lastSnapshotTime := lastSnapshotTime r; frameCount := v; bytesWritten := bytesWritten r; protocol := protocol r; universe := universe r; fs := fs r |}.
Definition set_bytesWritten (v : Z) (r : DMXRecorder) : DMXRecorder :=
  {| state := state r; filePath := filePath r; fileHandle := fileHandle r; pending := pending r; previousChannels := previousChannels r; startTime := startTime r; lastFrameTime := lastFrameTime r; lastSnapshotTime := lastSnapshotTime r; frameCount := frameCount r; bytesWritten := v; protocol := protocol r; universe := universe r; fs := fs r |}.
Definition set_protocol (v : Protocol) (r : DMXRecorder) : DMXRecorder :=
  {| state := state r; filePath := filePath r; fileHandle := fileHandle r; pending := pending r; previousChannels := previousChannels r; startTime := startTime r; lastFrameTime := lastFrameTime r; lastSnapshotTime := lastSnapshotTime r; frameCount := frameCount r; bytesWritten := bytesWritten r; protocol := v; universe := universe r; fs := fs r |}.
Definition set_universe (v : Z) (r : DMXRecorder) : DMXRecorder :=
  {| state := state r; filePath := filePath r; fileHandle := fileHandle r; pending := pending r; previousChannels := previousChannels r; startTime := startTime r; lastFrameTime := lastFrameTime r; lastSnapshotTime := lastSnapshotTime r; frameCount := frameCount r; bytesWritten := bytesWritten r; protocol := protocol r; universe := v; fs := fs r |}.
Definition set_fs (v : list FsOp) (r : DMXRecorder) : DMXRecorder :=
  {| state := state r; filePath := filePath r; fileHandle := fileHandle r; pending := pending r; previousChannels := previousChannels r; startTime := startTime r; lastFrameTime := lastFrameTime r; lastSnapshotTime := lastSnapshotTime r; frameCount := frameCount r; bytesWritten := bytesWritten r; protocol := protocol r; universe := universe r; fs := v |}.

(** [new DMXRecorder()]. *)
Definition create : DMXRecorder :=
  {| state := idle; filePath := None; fileHandle := false; pending := [];
     previousChannels := replicate TOTAL_CHANNELS 0; startTime := 0; lastFrameTime := 0;
     lastSnapshotTime := 0; frameCount := 0; bytesWritten := 0; protocol := sacn;
     universe := 1; fs := [] |}.

(** [flushBuffer]. *)
Definition flushBuffer (r : DMXRecorder) : DMXRecorder :=
  if bool_decide (0 < length (pending r))%nat && fileHandle r
  then set_pending []
         (set_bytesWritten (bytesWritten r + Z.of_nat (length (pending r)))
            (set_fs (fs r ++ [FsWrite (pending r)]) r))
  else r.

(** [appendByte]: a typed-array store keeps the low eight bits. *)
Definition appendByte (v : Z) (r : DMXRecorder) : DMXRecorder :=
  let r := if decide (WRITE_BUFFER_SIZE - 1 <= Z.of_nat (length (pending r))) then flushBuffer r else r in
  set_pending (pending r ++ [v mod 256]) r.

(** [appendUint16]: [writeUInt16LE] throws on a value outside [0, 65535]. *)
Definition appendUint16 (v : Z) (r : DMXRecorder) : option DMXRecorder :=
  let r := if decide (WRITE_BUFFER_SIZE - 2 <= Z.of_nat (length (pending r))) then flushBuffer r else r in
  if decide (0 <= v <= 65535)
  then Some (set_pending (pending r ++ [Z.land v 255; Z.shiftr v 8]) r)
  else None.

(** [appendToBuffer]. *)
Definition appendToBuffer (data : list Z) (r : DMXRecorder) : DMXRecorder :=
  let r := if decide (WRITE_BUFFER_SIZE <= Z.of_nat (length (pending r)) + Z.of_nat (length data))
           then flushBuffer r else r in
  if decide (WRITE_BUFFER_SIZE <= Z.of_nat (length data))
  then
    if fileHandle r
    then set_bytesWritten (bytesWritten r + Z.of_nat (length data))
           (set_fs (fs r ++ [FsWrite data]) r)
    else r
  else set_pending (pending r ++ data) r.

(** [createHeader]: the 32 header bytes.  [None] is a thrown [RangeError]
    of one of the writes. *)
Definition createHeader (duration : Z) (r : DMXRecorder) : option (list Z) :=
  let header := Buf.alloc HEADER_SIZE in
  let header := Buf.copy (Buf.of_string DMXREC_MAGIC) 0 header in
  header ← Buf.writeUInt8 DMXREC_VERSION 4 header;
  header ← Buf.writeUInt8 RecordingFlags.HAS_SNAPSHOTS 5 header;
  header ← Buf.writeUInt8 (match protocol r with sacn => 0 | artnet => 1 end) 6 header;
  header ← Buf.writeUInt16LE (universe r) 7 header;
  header ← Buf.writeBigInt64LE (startTime r) 9 header;
  header ← Buf.writeUInt32LE duration 17 header;
  Buf.writeUInt32LE (frameCount r) 21 header.

(** [startRecording].  [path] stands for the file name the source derives
    from the output directory and the wall-clock date; [now] is the
    [Date.now()] of the reset.  [None] is a thrown exception. *)
Definition startRecording (protocol : Protocol) (universe : Z) (path : string) (now : Z)
    (r : DMXRecorder) : option DMXRecorder :=
  if isRecordingState (state r) then None else
  let r := set_protocol protocol r in
  let r := set_universe universe r in
  let r := set_filePath (Some path) r in
  let r := set_fileHandle true (set_fs (fs r ++ [FsOpen path]) r) in
  headerBuffer ← createHeader 0 r;
  let r := set_fs (fs r ++ [FsWrite headerBuffer]) r in
  let r := set_bytesWritten (Z.of_nat HEADER_SIZE) r in
  let r := set_previousChannels (replicate (length (previousChannels r)) 0) r in
  let r := set_startTime now r in
  let r := set_lastFrameTime (startTime r) r in
  let r := set_lastSnapshotTime (startTime r) r in
  let r := set_frameCount 0 r in
  let r := set_pending [] r in
  Some (set_state recording r).

(** [stopRecording]: the recorder afterwards and the measured duration.
    [None] is a thrown exception. *)
Definition stopRecording (now : Z) (r : DMXRecorder) : option (DMXRecorder * Z) :=
  if negb (isRecordingState (state r)) then None else
  let r := flushBuffer r in
  let duration := now - startTime r in
  r ← (if fileHandle r
       then header ← createHeader duration r;
            Some (set_fileHandle false
                    (set_fs (fs r ++ [FsWriteAt (take HEADER_SIZE header) 0; FsSync; FsClose]) r))
       else Some r);
  Some (set_state idle r, duration).

(** [writeSnapshotFrame]. *)
Definition writeSnapshotFrame (channels : list Z) (deltaTime : Z) (r : DMXRecorder)
    : DMXRecorder :=
  let r := appendToBuffer (Varint.encodeVarint deltaTime) r in
  let r := appendByte FrameType.SNAPSHOT r in
  appendToBuffer (take TOTAL_CHANNELS channels) r.

(** The [for (const change of changes)] loop of [writeDeltaFrame]. *)
Fixpoint appendChanges (changes : list ChannelChange) (r : DMXRecorder) : option DMXRecorder :=
  match changes with
  | [] => Some r
  | change :: rest =>
      r ← appendUint16 (channel change) r;
      appendChanges rest (appendByte (value change) r)
  end.

(** [writeDeltaFrame]. *)
Definition writeDeltaFrame (changes : list ChannelChange) (deltaTime : Z) (r : DMXRecorder)
    : option DMXRecorder :=
  let r := appendToBuffer (Varint.encodeVarint deltaTime) r in
  r ← (if decide (Z.of_nat (length changes) < FrameType.SNAPSHOT)
       then Some (appendByte (Z.of_nat (length changes)) r)
       else appendUint16 (Z.of_nat (length changes)) (appendByte FrameType.EXTENDED r));
  appendChanges changes r.

(** The change list of [recordFrame]: the channels, in ascending order,
    whose new value differs from the cached one ([?? 0] past the end). *)
Definition computeChanges (channels previous : list Z) : list ChannelChange :=
  omap (fun i : nat =>
          let newValue := default 0 (channels !! i) in
          let oldValue := default 0 (previous !! i) in
          if decide (newValue <> oldValue)
          then Some {| channel := Z.of_nat i; value := newValue |} else None)
       (seq 0 TOTAL_CHANNELS).

(** [typedArray.set(source)]: copies to the front; throws when the source
    is longer than the target. *)
Definition arraySet (source target : list Z) : option (list Z) :=
  if decide (length source <= length target)%nat
  then Some (source ++ drop (length source) target) else None.

(** [recordFrame] at clock reading [now]. *)
Definition recordFrame (channels : list Z) (now : Z) (r : DMXRecorder) : option DMXRecorder :=
  if negb (isRecordingState (state r)) then Some r else
  let isFirstFrame := bool_decide (frameCount r = 0) in
  let deltaTime := if isFirstFrame then 0 else now - lastFrameTime r in
  let needsSnapshot := isFirstFrame || bool_decide (now - lastSnapshotTime r >= SNAPSHOT_INTERVAL) in
  if needsSnapshot then
    let r := writeSnapshotFrame channels deltaTime r in
    let r := set_lastSnapshotTime now r in
    previous ← arraySet channels (previousChannels r);
    let r := set_previousChannels previous r in
    let r := set_lastFrameTime now r in
    Some (set_frameCount (frameCount r + 1) r)
  else
    let changes := computeChanges channels (previousChannels r) in
    if decide (0 < length changes)%nat then
      r ← writeDeltaFrame changes deltaTime r;
      previous ← arraySet channels (previousChannels r);
      let r := set_previousChannels previous r in
      let r := set_lastFrameTime now r in
      Some (set_frameCount (frameCount r + 1) r)
    else Some r.

(** Recording a time-stamped sequence of frames, one [recordFrame] each. *)
Fixpoint recordFrames (frames : list (Z * list Z)) (r : DMXRecorder) : option DMXRecorder :=
  match frames with
  | [] => Some r
  | (now, channels) :: rest => r ← recordFrame channels now r; recordFrames rest r
  end.

(** The bytes recorded so far after the header: what reached the file
    plus what waits in the write buffer. *)
Definition stream (r : DMXRecorder) : list Z := drop HEADER_SIZE (disk (fs r)) ++ pending r.

(** The bytes [writeDeltaFrame] appends for the change count. *)
Definition countBytes (n : nat) : list Z :=
  if decide (Z.of_nat n < FrameType.SNAPSHOT) then [Z.of_nat n mod 256]
  else [FrameType.EXTENDED; Z.land (Z.of_nat n) 255; Z.shiftr (Z.of_nat n) 8].

(** The bytes [writeDeltaFrame] appends for one change. *)
Definition changeBytes (c : ChannelChange) : list Z :=
  [Z.land (channel c) 255; Z.shiftr (channel c) 8; value c mod 256].

(** The bytes [writeSnapshotFrame] or [writeDeltaFrame] appends for a
    frame. *)
Definition frameBytes (f : RecordingFrame) : list Z :=
  Varint.encodeVarint (deltaTime f)
  ++ match isSnapshot f, snapshotData f with
     | true, Some data => FrameType.SNAPSHOT :: take TOTAL_CHANNELS data
     | _, _ => countBytes (length (changes f)) ++ concat (changeBytes <$> changes f)
     end.

(** The frame that [recordFrame] writes for [channels] at [now]: a
    snapshot, a delta, or none for an unchanged frame. *)
Definition frameFor (channels : list Z) (now : Z) (r : DMXRecorder) : option RecordingFrame :=
  let isFirstFrame := bool_decide (frameCount r = 0) in
  let deltaTime := if isFirstFrame then 0 else now - lastFrameTime r in
  if isFirstFrame || bool_decide (now - lastSnapshotTime r >= SNAPSHOT_INTERVAL)
  then Some {| deltaTime := deltaTime; changes := []; isSnapshot := true;
               snapshotData := Some (take TOTAL_CHANNELS channels) |}
  else
    let changes := computeChanges channels (previousChannels r) in
    if decide (0 < length changes)%nat
    then Some {| deltaTime := deltaTime; changes := changes; isSnapshot := false;
                 snapshotData := None |}
    else None.

(** The frames written while recording a sequence, in order, and the
    channel arrays they were written for. *)
Fixpoint writtenFrames (frames : list (Z * list Z)) (r : DMXRecorder)
    : list (RecordingFrame * list Z) :=
  match frames with
  | [] => []
  | (now, channels) :: rest =>
      match recordFrame channels now r with
      | Some r' =>
          match frameFor channels now r with
          | Some f => (f, channels) :: writtenFrames rest r'
          | None => writtenFrames rest r'
          end
      | None => []
      end
  end.

(** [r'] differs from [r] at most in the write buffer, the byte counter
    and the file-system log. *)
Definition sameFrameState (r r' : DMXRecorder) : Prop :=
  state r' = state r /\ filePath r' = filePath r /\ fileHandle r' = fileHandle r
  /\ previousChannels r' = previousChannels r /\ startTime r' = startTime r
  /\ lastFrameTime r' = lastFrameTime r /\ lastSnapshotTime r' = lastSnapshotTime r
  /\ frameCount r' = frameCount r /\ protocol r' = protocol r /\ universe r' = universe r.

(** What an append does: the recorded stream grows by [bytes], the header
    stays on file, nothing else of the recording state moves. *)
Definition appends (bytes : list Z) (r r' : DMXRecorder) : Prop :=
  stream r' = stream r ++ bytes
  /\ (HEADER_SIZE <= length (disk (fs r')))%nat
  /\ sameFrameState r r'.

(** The recorder while a recording runs: the state says so, the header is
    on file and the channel cache has its 512 entries. *)
Definition recordingOk (r : DMXRecorder) : Prop :=
  isRecordingState (state r) = true
  /\ (HEADER_SIZE <= length (disk (fs r)))%nat
  /\ length (previousChannels r) = TOTAL_CHANNELS.

(** A 512-channel frame of bytes. *)
Definition isFrame (channels : list Z) : bool :=
  bool_decide (length channels = TOTAL_CHANNELS) && Buf.is_bytes channels.

(** A frame as the recorder writes it, in the ranges the file format can
    hold: a delta time below 2^31; for a snapshot 512 channel values and
    no change list; for a delta at most 65535 changes, each with a 16-bit
    channel and a byte value. *)
Definition wellFormed (f : RecordingFrame) : Prop :=
  0 <= deltaTime f < 2 ^ 31
  /\ match isSnapshot f, snapshotData f with
     | true, Some data => length data = TOTAL_CHANNELS /\ changes f = []
     | false, None =>
         Z.of_nat (length (changes f)) <= 65535
         /\ Forall (fun c => 0 <= channel c <= 65535 /\ 0 <= value c <= 255) (changes f)
     | _, _ => False
     end.

End Recorder.

(** ** Player ([recorder.ts], class [DMXPlayer]) *)

Module Player.

Definition HEADER_SIZE : nat := 32.

(** [PlaybackState]. *)
Inductive PlaybackState := idle | playing | paused | finished.

Definition isPlaying (s : PlaybackState) : bool :=
  match s with playing => true | _ => false end.

(** [FrameIndex]: an entry of the seek index. *)
Record FrameIndex := mkFrameIndex {
  fi_offset : nat;
  fi_position : Z;
  fi_isSnapshot : bool
}.

(** What the player tells its callbacks (all four are taken as set). *)
Inductive Event :=
  | onFrame (channels : list Z)
  | onPosition (position duration : Z)
  | onStateChange (s : PlaybackState)
  | onFinished.

(** The player object.  The playback speed and the wall-clock start time
    only decide when a timer fires, which is not modelled: the pending
    one-shot timer is the frame it will apply, fired by [timerFired]. *)
Record DMXPlayer := mkDMXPlayer {
  state : PlaybackState;
  filePath : option string;
  header : option RecordingHeader;
  frameData : option (list Z);
  frameOffset : nat;
  channels : list Z;
  currentFrame : Z;
  currentPosition : Z;
  pausedPosition : Z;
  loopEnabled : bool;
  frameIndex : list FrameIndex;
  frameIndexBuilt : bool;
  playbackTimer : option RecordingFrame
}.

Definition set_state (v : PlaybackState) (r : DMXPlayer) : DMXPlayer :=
  {| state := v; filePath := filePath r; header := header r; frameData := frameData r; frameOffset := frameOffset r; channels := channels r; currentFrame := currentFrame r; currentPosition := currentPosition r; pausedPosition := pausedPosition r; loopEnabled := loopEnabled r; frameIndex := frameIndex r; frameIndexBuilt := frameIndexBuilt r; playbackTimer := playbackTimer r |}.
Definition set_filePath (v : option string) (r : DMXPlayer) : DMXPlayer :=
  {| state := state r; filePath := v; header := header r; frameData := frameData r; frameOffset := frameOffset r; channels := channels r; currentFrame := currentFrame r; currentPosition := currentPosition r; pausedPosition := pausedPosition r; loopEnabled := loopEnabled r; frameIndex := frameIndex r; frameIndexBuilt := frameIndexBuilt r; playbackTimer := playbackTimer r |}.
Definition set_header (v : option RecordingHeader) (r : DMXPlayer) : DMXPlayer :=
  {| state := state r; filePath := filePath r; header := v; frameData := frameData r; frameOffset := frameOffset r; channels := channels r; currentFrame := currentFrame r; currentPosition := currentPosition r; pausedPosition := pausedPosition r; loopEnabled := loopEnabled r; frameIndex := frameIndex r; frameIndexBuilt := frameIndexBuilt r; playbackTimer := playbackTimer r |}.
Definition set_frameData (v : option (list Z)) (r : DMXPlayer) : DMXPlayer :=
  {| state := state r; filePath := filePath r; header := header r; frameData := v; frameOffset := frameOffset r; channels := channels r; currentFrame := currentFrame r; currentPosition := currentPosition r; pausedPosition := pausedPosition r; loopEnabled := loopEnabled r; frameIndex := frameIndex r; frameIndexBuilt := frameIndexBuilt r; playbackTimer := playbackTimer r |}.
Definition set_frameOffset (v : nat) (r : DMXPlayer) : DMXPlayer :=
  {| state := state r; filePath := filePath r; header := header r; frameData := frameData r; frameOffset := v; channels := channels r; currentFrame := currentFrame r; currentPosition := currentPosition r; pausedPosition := pausedPosition r; loopEnabled := loopEnabled r; frameIndex := frameIndex r; frameIndexBuilt := frameIndexBuilt r; playbackTimer := playbackTimer r |}.
Definition set_channels (v : list Z) (r : DMXPlayer) : DMXPlayer :=
  {| state := state r; filePath := filePath r; header := header r; frameData := frameData r; frameOffset := frameOffset r; channels := v; currentFrame := currentFrame r; currentPosition := currentPosition r; pausedPosition := pausedPosition r; loopEnabled := loopEnabled r; frameIndex := frameIndex r; frameIndexBuilt := frameIndexBuilt r; playbackTimer := playbackTimer r |}.
Definition set_currentFrame (v : Z) (r : DMXPlayer) : DMXPlayer :=
  {| state := state r; filePath := filePath r; header := header r; frameData := frameData r; frameOffset := frameOffset r; channels := channels r; currentFrame := v; currentPosition := currentPosition r; pausedPosition := pausedPosition r; loopEnabled := loopEnabled r; frameIndex := frameIndex r; frameIndexBuilt := frameIndexBuilt r; playbackTimer := playbackTimer r |}.
Definition set_currentPosition (v : Z) (r : DMXPlayer) : DMXPlayer :=
  {| state := state r; filePath := filePath r; header := header r; frameData := frameData r; frameOffset := frameOffset r; channels := channels r; currentFrame := currentFrame r; currentPosition := v; pausedPosition := pausedPosition r; loopEnabled := loopEnabled r; frameIndex := frameIndex r; frameIndexBuilt := frameIndexBuilt r; playbackTimer := playbackTimer r |}.
Definition set_pausedPosition (v : Z) (r : DMXPlayer) : DMXPlayer :=
  {| state := state r; filePath := filePath r; header := header r; frameData := frameData r; frameOffset := frameOffset r; channels := channels r; currentFrame := currentFrame r; currentPosition := currentPosition r; pausedPosition := v; loopEnabled := loopEnabled r; frameIndex := frameIndex r; frameIndexBuilt := frameIndexBuilt r; playbackTimer := playbackTimer r |}.
Definition set_loopEnabled (v : bool) (r : DMXPlayer) : DMXPlayer :=
  {| state := state r; filePath := filePath r; header := header r; frameData := frameData r; frameOffset := frameOffset r; channels := channels r; currentFrame := currentFrame r; currentPosition := currentPosition r; pausedPosition := pausedPosition r; loopEnabled := v; frameIndex := frameIndex r; frameIndexBuilt := frameIndexBuilt r; playbackTimer := playbackTimer r |}.
Definition set_frameIndex (v : list FrameIndex) (r : DMXPlayer) : DMXPlayer :=
  {| state := state r; filePath := filePath r; header := header r; frameData := frameData r; frameOffset := frameOffset r; channels := channels r; currentFrame := currentFrame r; currentPosition := currentPosition r; pausedPosition := pausedPosition r; loopEnabled := loopEnabled r; frameIndex := v; frameIndexBuilt := frameIndexBuilt r; playbackTimer := playbackTimer r |}.
Definition set_frameIndexBuilt (v : bool) (r : DMXPlayer) : DMXPlayer :=
  {| state := state r; filePath := filePath r; header := header r; frameData := frameData r; frameOffset := frameOffset r; channels := channels r; currentFrame := currentFrame r; currentPosition := currentPosition r; pausedPosition := pausedPosition r; loopEnabled := loopEnabled r; frameIndex := frameIndex r; frameIndexBuilt := v; playbackTimer := playbackTimer r |}.
Definition set_playbackTimer (v : option RecordingFrame) (r : DMXPlayer) : DMXPlayer :=
  {| state := state r; filePath := filePath r; header := header r; frameData := frameData r; frameOffset := frameOffset r; channels := channels r; currentFrame := currentFrame r; currentPosition := currentPosition r; pausedPosition := pausedPosition r; loopEnabled := loopEnabled r; frameIndex := frameIndex r; frameIndexBuilt := frameIndexBuilt r; playbackTimer := v |}.

(** [new DMXPlayer()]. *)
Definition create : DMXPlayer :=
  {| state := idle; filePath := None; header := None; frameData := None; frameOffset := 0;
     channels := replicate TOTAL_CHANNELS 0; currentFrame := 0; currentPosition := 0;
     pausedPosition := 0; loopEnabled := false; frameIndex := []; frameIndexBuilt := false;
     playbackTimer := None |}.

(** [channels.fill(0)]. *)
Definition fillZero (p : DMXPlayer) : DMXPlayer :=
  set_channels (replicate (length (channels p)) 0) p.

(** [setState]. *)
Definition setState (newState : PlaybackState) (p : DMXPlayer) : DMXPlayer * list Event :=
  match state p, newState with
  | idle, idle | playing, playing | paused, paused | finished, finished => (p, [])
  | _, _ => (set_state newState p, [onStateChange newState])
  end.

(** [buffer.toString("ascii", a, b)]: the high bit of each byte is dropped. *)
Fixpoint asciiString (bytes : list Z) : string :=
  match bytes with
  | [] => EmptyString
  | b :: rest => String (Ascii.ascii_of_nat (Z.to_nat (Z.land b 127))) (asciiString rest)
  end.

(** [parseHeader].  [None] is a thrown [Error]. *)
Definition parseHeader (buffer : list Z) : option RecordingHeader :=
  if decide (length buffer < HEADER_SIZE)%nat then None else
  let magic := asciiString (take 4 buffer) in
  if negb (bool_decide (magic = DMXREC_MAGIC)) then None else
  version ← Buf.readUInt8 buffer 4;
  if decide (version > DMXREC_VERSION) then None else
  flags ← Buf.readUInt8 buffer 5;
  protocol ← Buf.readUInt8 buffer 6;
  universe ← Buf.readUInt16LE buffer 7;
  startTime ← Buf.readBigInt64LE buffer 9;
  duration ← Buf.readUInt32LE buffer 17;
  frameCount ← Buf.readUInt32LE buffer 21;
  Some {| magic := magic; version := version; flags := flags; protocol := protocol;
          rh_universe := universe; startTime := startTime; duration := duration;
          frameCount := frameCount |}.

(** [stop]. *)
Definition stop (p : DMXPlayer) : DMXPlayer * list Event :=
  let p := set_playbackTimer None p in
  let p := set_frameOffset 0%nat p in
  let p := set_currentFrame 0 p in
  let p := set_currentPosition 0 p in
  let p := set_pausedPosition 0 p in
  let p := fillZero p in
  let '(p, changed) := setState idle p in
  (p, changed
      ++ match header p with Some h => [onPosition 0 (duration h)] | None => [] end
      ++ [onFrame (channels p)]).

(** [load]: [fileBuffer] is what [readFileSync] returned. *)
Definition load (path : string) (fileBuffer : list Z) (p : DMXPlayer)
    : option (DMXPlayer * list Event) :=
  let '(p, stopped) := if isPlaying (state p) then stop p else (p, []) in
  let p := set_filePath (Some path) p in
  h ← parseHeader fileBuffer;
  let p := set_header (Some h) p in
  let p := set_frameData (Some (drop HEADER_SIZE fileBuffer)) p in
  let p := set_frameOffset 0%nat p in
  let p := set_frameIndex [] p in
  let p := set_frameIndexBuilt false p in
  let p := fillZero p in
  let p := set_currentFrame 0 p in
  let p := set_currentPosition 0 p in
  Some (set_state idle p, stopped).

(** The change loop of [readNextFrame]: [count] triples from [offset] on.
    [None] is the [RangeError] of [readUInt16LE] past the end. *)
Fixpoint readChanges (data : list Z) (count : nat) (offset : nat)
    (acc : list ChannelChange) : option (list ChannelChange * nat) :=
  match count with
  | O => Some (acc, offset)
  | S count' =>
      channel ← Buf.readUInt16LE data offset;
      let offset := (offset + 2)%nat in
      match data !! offset with
      | Some value =>
          readChanges data count' (S offset) (acc ++ [{| channel := channel; value := value |}])
      | None => readChanges data count' (S offset) acc
      end
  end.

(** [readNextFrame]: the frame read ([None] for [null]) and the player with
    its offset advanced.  Outer [None] is a thrown exception. *)
Definition readNextFrame (p : DMXPlayer) : option (option RecordingFrame * DMXPlayer) :=
  match frameData p with
  | None => Some (None, p)
  | Some data =>
      if decide (length data <= frameOffset p)%nat then Some (None, p) else
      let '(deltaTime, deltaBytes) := Varint.decodeVarint data (frameOffset p) in
      let offset := (frameOffset p + deltaBytes)%nat in
      match data !! offset with
      | None => Some (None, set_frameOffset (S offset) p)
      | Some changeCount =>
          let offset := S offset in
          if decide (changeCount = FrameType.SNAPSHOT) then
            let snapshotData := take TOTAL_CHANNELS (drop offset data) in
            Some (Some {| deltaTime := deltaTime; changes := []; isSnapshot := true;
                          snapshotData := Some snapshotData |},
                  set_frameOffset (offset + TOTAL_CHANNELS)%nat p)
          else
            '(actualChangeCount, offset) ←
               (if decide (changeCount = FrameType.EXTENDED)
                then n ← Buf.readUInt16LE data offset; Some (n, (offset + 2)%nat)
                else Some (changeCount, offset));
            '(changes, offset) ← readChanges data (Z.to_nat actualChangeCount) offset [];
            Some (Some {| deltaTime := deltaTime; changes := changes; isSnapshot := false;
                          snapshotData := None |},
                  set_frameOffset offset p)
      end
  end.

(** Applying a frame to a channel array, as the timer callback and [seek]
    do: a snapshot is copied over the front ([channels.set]), a delta
    stores its values one by one (a store past the end does nothing).
    [None] is the [RangeError] of [set] with too long a source. *)
Definition applyChannels (frame : RecordingFrame) (channels : list Z) : option (list Z) :=
  match isSnapshot frame, snapshotData frame with
  | true, Some data =>
      if decide (length data <= length channels)%nat
      then Some (data ++ drop (length data) channels) else None
  | _, _ =>
      Some (foldl (fun (ch : list Z) (change : ChannelChange) =>
                     <[Z.to_nat (channel change) := value change]> ch)
                  channels (changes frame))
  end.

Definition applyFrame (frame : RecordingFrame) (p : DMXPlayer) : option DMXPlayer :=
  ch ← applyChannels frame (channels p); Some (set_channels ch p).

(** [buildFrameIndex]'s loop; [fuel] bounds its rounds (every round moves
    [offset] forward). *)
Fixpoint indexLoop (fuel : nat) (data : list Z) (offset : nat) (position : Z)
    (index : list FrameIndex) : option (list FrameIndex) :=
  match fuel with
  | O => Some index
  | S fuel' =>
      if decide (length data <= offset)%nat then Some index else
      let frameStart := offset in
      let '(deltaTime, deltaBytes) := Varint.decodeVarint data offset in
      let offset := (offset + deltaBytes)%nat in
      match data !! offset with
      | None => Some index
      | Some changeCount =>
          let offset := S offset in
          let isSnapshot := bool_decide (changeCount = FrameType.SNAPSHOT) in
          let index :=
            if isSnapshot
            then index ++ [{| fi_offset := frameStart; fi_position := position;
                              fi_isSnapshot := true |}]
            else index in
          let position := position + deltaTime in
          if isSnapshot then indexLoop fuel' data (offset + TOTAL_CHANNELS)%nat position index
          else if decide (changeCount = FrameType.EXTENDED) then
            actual ← Buf.readUInt16LE data offset;
            indexLoop fuel' data (offset + 2 + Z.to_nat actual * 3)%nat position index
          else indexLoop fuel' data (offset + Z.to_nat changeCount * 3)%nat position index
      end
  end.

(** [buildFrameIndex]. *)
Definition buildFrameIndex (p : DMXPlayer) : option DMXPlayer :=
  match frameData p with
  | None => Some p
  | Some data =>
      if frameIndexBuilt p then Some p else
      index ← indexLoop (length data) data 0 0 [];
      Some (set_frameIndexBuilt true (set_frameIndex index p))
  end.

(** The backward scan of [seek] for the last index entry whose position is
    at most [target]: its number and the entry. *)
Definition findSnapshot (index : list FrameIndex) (target : Z) : option (nat * FrameIndex) :=
  foldl (fun (found : option (nat * FrameIndex)) (ie : nat * FrameIndex) =>
           match found with
           | Some _ => found
           | None => if decide (fi_position ie.2 <= target) then Some ie else None
           end)
        None (reverse (imap (fun i e => (i, e)) index)).

(** The replay loop of [seek]; [fuel] bounds its rounds (every round reads
    at least one byte). *)
Fixpoint replayLoop (fuel : nat) (target : Z) (p : DMXPlayer) : option DMXPlayer :=
  match fuel with
  | O => Some p
  | S fuel' =>
      if bool_decide (currentPosition p < target)
         && bool_decide (frameOffset p < length (default [] (frameData p)))%nat
      then
        '(frame, p) ← readNextFrame p;
        match frame with
        | None => Some p
        | Some frame =>
            let p := set_currentPosition (currentPosition p + deltaTime frame) p in
            let p := set_currentFrame (currentFrame p + 1) p in
            if decide (currentPosition p > target)
            then Some (set_currentPosition (currentPosition p - deltaTime frame) p)
            else p ← applyFrame frame p; replayLoop fuel' target p
        end
      else Some p
  end.

(** One level of [scheduleNextFrame]; [again] is the recursive call made
    when looping back to the start. *)
Definition scheduleBody (again : DMXPlayer -> option (DMXPlayer * list Event))
    (p : DMXPlayer) : option (DMXPlayer * list Event) :=
  match isPlaying (state p), frameData p, header p with
  | true, Some data, Some h =>
      let restart (p : DMXPlayer) :=
        again (fillZero (set_currentPosition 0 (set_currentFrame 0 (set_frameOffset 0%nat p)))) in
      let finish (p : DMXPlayer) :=
        let '(p, changed) := setState finished p in Some (p, changed ++ [onFinished]) in
      if bool_decide (length data <= frameOffset p)%nat || bool_decide (currentFrame p >= frameCount h)
      then if loopEnabled p then restart p else finish p
      else
        '(frame, p) ← readNextFrame p;
        match frame with
        | None => if loopEnabled p then restart p else finish p
        | Some frame =>
            let p := set_currentPosition (currentPosition p + deltaTime frame) p in
            Some (set_playbackTimer (Some frame) p, [])
        end
  | _, _, _ => Some (p, [])
  end.

(** [scheduleNextFrame].  After looping back the player is in the same
    state whatever came before, so a second loop-back in the same call
    would recurse for ever: it is the exception [None]. *)
Definition scheduleNextFrame (p : DMXPlayer) : option (DMXPlayer * list Event) :=
  scheduleBody (scheduleBody (fun _ => None)) p.

(** The callback of the one-shot timer set by [scheduleNextFrame]. *)
Definition timerFired (p : DMXPlayer) : option (DMXPlayer * list Event) :=
  match playbackTimer p with
  | None => Some (p, [])
  | Some frame =>
      let p := set_playbackTimer None p in
      p ← applyFrame frame p;
      let p := set_currentFrame (currentFrame p + 1) p in
      let emitted :=
        [onFrame (channels p)]
        ++ match header p with
           | Some h => [onPosition (currentPosition p) (duration h)]
           | None => []
           end in
      '(p, scheduled) ← scheduleNextFrame p;
      Some (p, emitted ++ scheduled)
  end.

(** [play]. *)
Definition play (p : DMXPlayer) : option (DMXPlayer * list Event) :=
  match frameData p, header p with
  | Some _, Some _ =>
      if isPlaying (state p) then Some (p, []) else
      let p :=
        match state p with
        | paused => p
        | _ => fillZero (set_currentPosition 0 (set_currentFrame 0 (set_frameOffset 0%nat p)))
        end in
      let '(p, changed) := setState playing p in
      '(p, scheduled) ← scheduleNextFrame p;
      Some (p, changed ++ scheduled)
  | _, _ => None
  end.

(** [pause]. *)
Definition pause (p : DMXPlayer) : DMXPlayer * list Event :=
  if negb (isPlaying (state p)) then (p, []) else
  let p := set_playbackTimer None p in
  let p := set_pausedPosition (currentPosition p) p in
  setState paused p.

(** [seek]. *)
Definition seek (positionMs : Z) (p : DMXPlayer) : option (DMXPlayer * list Event) :=
  match frameData p, header p with
  | Some data, Some h =>
      p ← (if frameIndexBuilt p then Some p else buildFrameIndex p);
      let wasPlaying := isPlaying (state p) in
      let p := if wasPlaying then set_playbackTimer None p else p in
      let targetPosition := Z.max 0 (Z.min positionMs (duration h)) in
      let snapshot := findSnapshot (frameIndex p) targetPosition in
      let p := fillZero p in
      p ← match snapshot with
          | Some (snapshotIndex, entry) =>
              let p := set_frameOffset (fi_offset entry) p in
              let p := set_currentPosition (fi_position entry) p in
              let p := set_currentFrame (Z.of_nat snapshotIndex) p in
              '(frame, p) ← readNextFrame p;
              match frame with
              | Some frame =>
                  match isSnapshot frame, snapshotData frame with
                  | true, Some _ => applyFrame frame p
                  | _, _ => Some p
                  end
              | None => Some p
              end
          | None =>
              Some (set_currentFrame 0 (set_currentPosition 0 (set_frameOffset 0%nat p)))
          end;
      p ← replayLoop (S (length data)) targetPosition p;
      let p := set_pausedPosition (currentPosition p) p in
      let emitted := [onPosition (currentPosition p) (duration h); onFrame (channels p)] in
      if wasPlaying then
        let '(p, changed) := setState playing p in
        '(p, scheduled) ← scheduleNextFrame p;
        Some (p, emitted ++ changed ++ scheduled)
      else Some (p, emitted)
  | _, _ => Some (p, [])
  end.

(** [seekForward] and [seekBackward]. *)
Definition seekForward (ms : Z) (p : DMXPlayer) : option (DMXPlayer * list Event) :=
  seek (currentPosition p + ms) p.


(** Letting the timers fire one after the other, at most [fuel] times,
    until none is pending: the player at the end and everything emitted. *)
Fixpoint runTimers (fuel : nat) (p : DMXPlayer) : option (DMXPlayer * list Event) :=
  match fuel with
  | O => Some (p, [])
  | S fuel' =>
      match playbackTimer p with
      | None => Some (p, [])
      | Some _ =>
          '(p, out) ← timerFired p;
          '(p, rest) ← runTimers fuel' p;
          Some (p, out ++ rest)
      end
  end.

(** The channel arrays after each frame of a list is applied in turn,
    starting from [channels]; it stops at a frame that cannot be applied. *)
Fixpoint applyAll (frames : list RecordingFrame) (channels : list Z) : list (list Z) :=
  match frames with
  | [] => []
  | frame :: rest =>
      match applyChannels frame channels with
      | Some channels' => channels' :: applyAll rest channels'
      | None => []
      end
  end.

(** The channel arrays handed to the frame callback. *)
Definition framesOf (out : list Event) : list (list Z) :=
  omap (fun e => match e with onFrame ch => Some ch | _ => None end) out.

(** A playing player that is about to schedule the frames [rest]: the
    frame data [body] is [pre] followed by the bytes of [rest], the offset
    stands after [pre], no timer is pending, looping is off, and the
    header's frame count is the number of frames already played plus those
    to come. *)
Definition cued (body : list Z) (hd : RecordingHeader) (pre : list Z)
    (rest : list RecordingFrame) (p : DMXPlayer) : Prop :=
  state p = playing /\ frameData p = Some body /\ header p = Some hd
  /\ loopEnabled p = false /\ playbackTimer p = None
  /\ body = pre ++ concat (Recorder.frameBytes <$> rest)
  /\ frameOffset p = length pre
  /\ currentFrame p + Z.of_nat (length rest) = frameCount hd
  /\ length (channels p) = TOTAL_CHANNELS.

(** The seek index of a list of frames that starts at byte [offset] and
    time [position]: one entry per snapshot frame, with the byte offset
    of the frame and the time reached before the frame's own delta. *)
Fixpoint indexOf (frames : list RecordingFrame) (offset : nat) (position : Z)
    : list FrameIndex :=
  match frames with
  | [] => []
  | f :: rest =>
      (if isSnapshot f
       then [{| fi_offset := offset; fi_position := position; fi_isSnapshot := true |}]
       else [])
      ++ indexOf rest (offset + length (Recorder.frameBytes f))%nat (position + deltaTime f)
  end.

End Player.

(** ** Universe bookkeeping ([universe.ts], class [UniverseManager]) *)

Module UniverseManager.

(** The manager: the table of seen universes and the selected universe
    ([None] is [null]). *)
Record UniverseManager := mkUniverseManager {
  discoveredUniverses : gmap Z UniverseInfo;
  selectedUniverse : option Z
}.

(** The constructor with [config.selectedUniverse]; [None] is the thrown
    [UniverseError]. *)
Definition create (selected : option Z) : option UniverseManager :=
  match selected with
  | Some u =>
      if negb (isValidUniverse u) then None
      else Some {| discoveredUniverses := ∅; selectedUniverse := Some u |}
  | None => Some {| discoveredUniverses := ∅; selectedUniverse := None |}
  end.

(** JS truthiness of an optional string. *)
Definition truthy (s : option string) : bool :=
  match s with
  | Some s => negb (bool_decide (s = EmptyString))
  | None => false
  end.

(** The update of an entry that exists, shared by [onUniverseDiscovered]
    and [updateFromPacket]. *)
Definition refreshed (existingInfo : UniverseInfo) (source : option string) (now : Z)
    : UniverseInfo :=
  {| ui_universe := ui_universe existingInfo; ui_lastSeen := now;
     ui_packetCount := ui_packetCount existingInfo + 1;
     ui_source := if truthy source then source else ui_source existingInfo |}.

(** [onUniverseDiscovered]. *)
Definition onUniverseDiscovered (universe : Z) (source : option string) (now : Z)
    (m : UniverseManager) : UniverseManager :=
  if negb (isValidUniverse universe) then m else
  match discoveredUniverses m !! universe with
  | None =>
      {| discoveredUniverses :=
           <[universe := {| ui_universe := universe; ui_lastSeen := now;
                            ui_packetCount := 1; ui_source := source |}]>
             (discoveredUniverses m);
         selectedUniverse := selectedUniverse m |}
  | Some existingInfo =>
      {| discoveredUniverses :=
           <[universe := refreshed existingInfo source now]> (discoveredUniverses m);
         selectedUniverse := selectedUniverse m |}
  end.

(** [updateFromPacket]. *)
Definition updateFromPacket (universe : Z) (source : option string) (now : Z)
    (m : UniverseManager) : UniverseManager :=
  if negb (isValidUniverse universe) then m else
  match discoveredUniverses m !! universe with
  | None => onUniverseDiscovered universe source now m
  | Some existingInfo =>
      {| discoveredUniverses :=
           <[universe := refreshed existingInfo source now]> (discoveredUniverses m);
         selectedUniverse := selectedUniverse m |}
  end.

(** [selectUniverse]; [None] is the thrown [UniverseError]. *)
Definition selectUniverse (universe : Z) (m : UniverseManager) : option UniverseManager :=
  if negb (isValidUniverse universe) then None
  else Some {| discoveredUniverses := discoveredUniverses m;
               selectedUniverse := Some universe |}.

(** [shouldProcessPacket]. *)
Definition shouldProcessPacket (universe : Z) (m : UniverseManager) : bool :=
  match selectedUniverse m with
  | None => true
  | Some selected => bool_decide (universe = selected)
  end.

(** [clearDiscovered]. *)
Definition clearDiscovered (m : UniverseManager) : UniverseManager :=
  {| discoveredUniverses := ∅; selectedUniverse := selectedUniverse m |}.

(** A run of [updateFromPacket] calls, one per packet: universe, source
    and clock reading. *)
Definition updateAll (packets : list (Z * option string * Z)) (m : UniverseManager)
    : UniverseManager :=
  foldl (fun m e => updateFromPacket e.1.1 e.1.2 e.2 m) m packets.

(** The packet count on record for a universe, 0 when it has no entry. *)
Definition packetCount (universe : Z) (m : UniverseManager) : Z :=
  default 0 (ui_packetCount <$> discoveredUniverses m !! universe).

End UniverseManager.

(** ** Concrete inputs used by the examples below *)

Module Examples.

(** An Art-Net DMX datagram: universe 1, sequence 0, three channels at 255. *)
Definition dmx_first : list Z :=
  [65; 114; 116; 45; 78; 101; 116; 0;  0; 80;  0; 14;  0; 0;  1; 0;  0; 3;  255; 255; 255].

(** A second datagram for universe 1 carrying two channels only. *)
Definition dmx_second : list Z :=
  [65; 114; 116; 45; 78; 101; 116; 0;  0; 80;  0; 14;  1; 0;  1; 0;  0; 2;  1; 2].

Definition sender : ArtNet.RemoteInfo := ArtNet.mkRemoteInfo "10.0.0.7" 6454.

(** A running transmitter for universe 7, and one for universe 64000. *)
Definition tx : Transmitter.ArtNetTransmitter := Transmitter.mkArtNetTransmitter 7 0 true.
Definition tx_high : Transmitter.ArtNetTransmitter := Transmitter.mkArtNetTransmitter 64000 0 true.

(** sACN packets of two sources, with a payload type that carries no
    channel data. *)
Definition noChannels (_ : unit) : list Z := replicate TOTAL_CHANNELS 0.

Definition fromA (u : Z) : SACN.SACNPacket :=
  SACN.mkSACNPacket u tt (Some "A"%string) None (Some 100) None None.

Definition fromB (pri : Z) : SACN.SACNPacket :=
  SACN.mkSACNPacket 1 tt (Some "B"%string) None (Some pri) None None.

(** B is tracked first at priority 50, then A at priority 100. *)
Definition afterBthenA : SACN.SACNHandler :=
  (SACN.handlePacket noChannels (fromA 1) 10
     (SACN.handlePacket noChannels (fromB 50) 0 SACN.initial).1).1.

(** An ArtPollReply of 207 bytes whose four [SwOut] bytes are 3, 255, 1, 3. *)
Definition pollReply : list Z :=
  [65; 114; 116; 45; 78; 101; 116; 0; 0; 33] ++ replicate 180 0 ++ [3; 255; 1; 3]
  ++ replicate 13 0.

(** A recorder started on sACN universe 1 at clock reading 1000. *)
Definition recorderStarted : Recorder.DMXRecorder :=
  default Recorder.create
          (Recorder.startRecording sacn 1 "show.dmxrec" 1000 Recorder.create).

(** Three frames with their clock readings: all channels at 0 twice, then
    channel 1 at 255. *)
Definition session : list (Z * list Z) :=
  [(1000, replicate 512 0); (1040, replicate 512 0);
   (1080, <[0%nat := 255]> (replicate 512 0))].

(** A delta frame of one change, 40 ms after the frame before. *)
Definition deltaFrame : RecordingFrame :=
  {| deltaTime := 40; changes := [{| channel := 0; value := 255 |}];
     isSnapshot := false; snapshotData := None |}.

(** The started recorder after a first frame of zeros at clock reading
    1000. *)
Definition recorderAfterFirst : Recorder.DMXRecorder :=
  default recorderStarted (Recorder.recordFrame (replicate 512 0) 1000 recorderStarted).

(** The file left by recording [session] and stopping at clock reading
    3000, and the two frames it holds. *)
Definition recordedFile : list Z :=
  match Recorder.recordFrames session recorderStarted with
  | Some r =>
      match Recorder.stopRecording 3000 r with
      | Some (r', _) => Recorder.disk (Recorder.fs r')
      | None => []
      end
  | None => []
  end.

Definition recordedFrames : list RecordingFrame :=
  [{| deltaTime := 0; changes := []; isSnapshot := true;
      snapshotData := Some (replicate 512 0) |};
   {| deltaTime := 80; changes := [{| channel := 0; value := 255 |}];
      isSnapshot := false; snapshotData := None |}].

(** The player after loading [recordedFile] and starting playback: the
    first frame waits on the timer. *)
Definition playerPlaying : Player.DMXPlayer :=
  match Player.load "show.dmxrec" recordedFile Player.create with
  | Some (p, _) =>
      match Player.play p with
      | Some (p', _) => p'
      | None => p
      end
  | None => Player.create
  end.

(** A player holding a recording of two snapshots six seconds apart: all
    channels at 0, then all at 7. *)
Definition playerTwoSnapshots : Player.DMXPlayer :=
  Player.set_header (Some (mkRecordingHeader "DMXR" 1 1 0 1 1000 6000 2))
    (Player.set_frameData
       (Some (Recorder.frameBytes {| deltaTime := 0; changes := []; isSnapshot := true;
                                     snapshotData := Some (replicate 512 0) |}
              ++ Recorder.frameBytes {| deltaTime := 6000; changes := []; isSnapshot := true;
                                        snapshotData := Some (replicate 512 7) |}))
       Player.create).

End Examples.

(** * Properties *)

(** ** Bytes and buffers *)

Section BufFacts.

Lemma testbit_255 (n : Z) : 0 <= n -> Z.testbit 255 n = bool_decide (n < 8).
Proof.
  intros Hn. change 255 with (Z.ones 8).
  case_bool_decide.
  - apply Z.ones_spec_low; lia.
  - apply Z.ones_spec_high; lia.
Qed.

(** A 16-bit value is its low byte joined with its high byte. *)
Lemma lor_lo_hi (v : Z) :
  Z.lor (Z.land v 255) (Z.shiftl (Z.shiftr v 8) 8) = v.
Proof.
  apply Z.bits_inj'; intros n Hn.
  rewrite Z.lor_spec, Z.land_spec, testbit_255 by lia.
  case_bool_decide.
  - rewrite Z.shiftl_spec_low by lia. now rewrite andb_true_r, orb_false_r.
  - rewrite Z.shiftl_spec, Z.shiftr_spec by lia.
    rewrite andb_false_r; simpl. f_equal; lia.
Qed.

Lemma lor_hi_lo (v : Z) :
  Z.lor (Z.shiftl (Z.shiftr v 8) 8) (Z.land v 255) = v.
Proof. rewrite Z.lor_comm. apply lor_lo_hi. Qed.

Lemma land_255_range (v : Z) : 0 <= Z.land v 255 < 256.
Proof.
  change 255 with (Z.ones 8). rewrite Z.land_ones by lia.
  apply Z.mod_pos_bound; lia.
Qed.

Lemma shiftr_8_range (v : Z) : 0 <= v <= 65535 -> 0 <= Z.shiftr v 8 < 256.
Proof.
  intros Hv. rewrite Z.shiftr_div_pow2 by lia. change (2 ^ 8) with 256.
  split; [apply Z.div_pos; lia | apply Z.div_lt_upper_bound; lia].
Qed.

End BufFacts.

(** ** Art-Net receiver *)

Module ArtNetFacts.
Import ArtNet.

(** Closes [Emit error ∉ out] for an explicit output list. *)
Ltac no_error :=
  let Hin := fresh "Hin" in
  intros Hin;
  repeat (apply elem_of_cons in Hin as [Hin|Hin]; [discriminate Hin|]);
  apply elem_of_nil in Hin; exact Hin.

(** [validateHeader] accepts exactly the datagrams that start with the
    eight header bytes. *)
Lemma validateHeader_take (msg : list Z) :
  validateHeader msg = true <-> take 8 msg = ARTNET_HEADER.
Proof.
  unfold validateHeader, ARTNET_HEADER, ARTNET_HEADER_LENGTH.
  do 8 (destruct msg as [|? msg]; [ cbn; split; [intros H; repeat case_bool_decide; discriminate | discriminate] |]).
  cbn. rewrite take_0.
  repeat rewrite andb_true_iff. repeat rewrite bool_decide_eq_true.
  split.
  - intros H. destruct_and!. simplify_eq. reflexivity.
  - intros H. simplify_eq. repeat split; reflexivity.
Qed.

(** The extraction loop after [k] rounds. *)
Lemma extract_fold (msg : list Z) (k : nat) (zs : list Z) :
  (18 + k <= length msg)%nat -> (k <= length zs)%nat ->
  foldl (fun (channels : list Z) (i : nat) =>
           match msg !! (18 + i)%nat with
           | Some value => <[i := value]> channels
           | None => channels
           end) zs (seq 0 k)
  = take k (drop 18 msg) ++ drop k zs.
Proof.
  induction k as [|k IH]; intros Hm Hz.
  - now rewrite take_0, drop_0.
  - rewrite seq_S, foldl_app, IH by lia. cbn [foldl]. change (0 + k)%nat with k.
    destruct (lookup_lt_is_Some_2 msg (18 + k)) as [v Hv]; [lia|].
    rewrite Hv.
    assert (Hd : drop 18 msg !! k = Some v) by (rewrite lookup_drop; exact Hv).
    rewrite (take_S_r _ _ _ Hd).
    assert (Hlen : length (take k (drop 18 msg)) = k)
      by (rewrite length_take, length_drop; lia).
    rewrite insert_app_r_alt by lia. rewrite Hlen, Nat.sub_diag.
    destruct (drop k zs) as [|z zs'] eqn:Hdz.
    + apply (f_equal length) in Hdz. rewrite length_drop in Hdz. simpl in Hdz. lia.
    + cbn. rewrite <- app_assoc. cbn. do 2 f_equal.
      change (S k) with (1 + k)%nat. rewrite Nat.add_comm, <- drop_drop, Hdz. reflexivity.
Qed.

(** What [extractChannels] returns for a datagram that holds its payload:
    the payload followed by zeros. *)
Lemma extractChannels_spec (msg : list Z) (dataLength : Z) :
  0 <= dataLength <= 512 -> Z.of_nat (length msg) >= 18 + dataLength ->
  extractChannels msg dataLength
  = take (Z.to_nat dataLength) (drop 18 msg)
    ++ replicate (TOTAL_CHANNELS - Z.to_nat dataLength) 0.
Proof.
  intros HL Hlen. unfold extractChannels.
  replace (Z.min dataLength (Z.of_nat TOTAL_CHANNELS)) with dataLength
    by (unfold TOTAL_CHANNELS; lia).
  rewrite extract_fold.
  - now rewrite drop_replicate.
  - lia.
  - rewrite length_replicate. unfold TOTAL_CHANNELS. lia.
Qed.


Lemma readUInt16LE_is_Some (msg : list Z) (off : nat) :
  (off + 2 <= length msg)%nat -> is_Some (Buf.readUInt16LE msg off).
Proof.
  intros H. unfold Buf.readUInt16LE.
  destruct (lookup_lt_is_Some_2 msg off) as [a ->]; [lia|].
  destruct (lookup_lt_is_Some_2 msg (S off)) as [b ->]; [lia|]. eauto.
Qed.

Lemma readUInt16BE_is_Some (msg : list Z) (off : nat) :
  (off + 2 <= length msg)%nat -> is_Some (Buf.readUInt16BE msg off).
Proof.
  intros H. unfold Buf.readUInt16BE.
  destruct (lookup_lt_is_Some_2 msg off) as [a ->]; [lia|].
  destruct (lookup_lt_is_Some_2 msg (S off)) as [b ->]; [lia|]. eauto.
Qed.

(** [parseArtPollReply] emits no DMX packet and leaves the universe table
    alone. *)
Lemma parseArtPollReply_no_packet msg rinfo now h :
  packets (snd (parseArtPollReply msg rinfo now h)) = []
  /\ (Emit error ∉ snd (parseArtPollReply msg rinfo now h))
  /\ discoveredUniverses (fst (parseArtPollReply msg rinfo now h)) = discoveredUniverses h.
Proof.
  unfold parseArtPollReply.
  case_decide; [cbn [fst snd]; split_and!; [done | no_error | done]|].
  destruct (_ ≫= _) as [estaCode|]; [|cbn [fst snd]; split_and!; [done | no_error | done]].
  cbv zeta. cbn [fst snd discoveredUniverses].
  destruct (nodes_get _ _); split_and!; first [reflexivity | no_error].
Qed.



(** The listener and [handleMessage] agree: the [catch] branch is dead. *)
Lemma onMessage_handleMessage msg rinfo now h r :
  handleMessage msg rinfo now h = Some r -> onMessage msg rinfo now h = r.
Proof. unfold onMessage. now intros ->. Qed.

(** C8. A datagram that is shorter than 18 bytes, or does not start with
    the bytes "Art-Net\0", or carries a protocol version below 14, or is
    shorter than its length field announces, is dropped: [handleMessage]
    returns normally (no exception, so the listener's catch branch and its
    error event never run), no DMX packet is emitted and the universe
    table is unchanged.  For the first two kinds the handler is left
    exactly as it was and the only output is the debug note. *)
Theorem C8_malformed_dropped (msg : list Z) (rinfo : RemoteInfo) (now : Z)
    (h : ArtNetHandler) :
  (length msg < 18)%nat \/ take 8 msg <> ARTNET_HEADER \/
  (exists v, Buf.readUInt16BE msg 10 = Some v /\ v < 14) \/
  (exists L, Buf.readUInt16BE msg 16 = Some L /\ Z.of_nat (length msg) < 18 + L) ->
  exists h' out,
    handleMessage msg rinfo now h = Some (h', out)
    /\ onMessage msg rinfo now h = (h', out)
    /\ packets out = []
    /\ (Emit error ∉ out)
    /\ discoveredUniverses h' = discoveredUniverses h
    /\ ((length msg < 18)%nat \/ take 8 msg <> ARTNET_HEADER ->
        h' = h /\ exists note, out = [Log note]).
Proof.
  intros Hbad.
  assert (Hgoal : exists h' out,
    handleMessage msg rinfo now h = Some (h', out)
    /\ packets out = [] /\ (Emit error ∉ out)
    /\ discoveredUniverses h' = discoveredUniverses h
    /\ ((length msg < 18)%nat \/ take 8 msg <> ARTNET_HEADER ->
        h' = h /\ exists note, out = [Log note])).
  { unfold handleMessage, ARTNET_MIN_PACKET_LENGTH.
    case_decide as Hlen.
    { exists h, [Log (PacketTooShort (length msg))].
      split_and!; [done | done | no_error | done | eauto]. }
    destruct (validateHeader msg) eqn:Hhdr; cbn.
    2:{ exists h, [Log InvalidHeader].
        split_and!; [done | done | no_error | done | eauto]. }
    apply validateHeader_take in Hhdr.
    destruct Hbad as [?|[?|Hbad]]; [lia | done |].
    destruct (readUInt16LE_is_Some msg 8) as [op ->]; [lia|]. cbn.
    case_decide as Hop.
    - unfold parseDMXPacket.
      destruct (readUInt16BE_is_Some msg 10) as [v Hv]; [lia|]. rewrite Hv. cbn.
      case_decide as Hver.
      { eexists _, _. split_and!; [done | done | no_error | done | intros [?|?]; [lia|done]]. }
      destruct (readUInt16LE_is_Some msg 14) as [u ->]; [lia|]. cbn.
      destruct (isValidUniverse u); cbn.
      2:{ eexists _, _. split_and!; [done | done | no_error | done | intros [?|?]; [lia|done]]. }
      destruct (readUInt16BE_is_Some msg 16) as [l Hl]; [lia|]. rewrite Hl. cbn.
      case_decide.
      { eexists _, _. split_and!; [done | done | no_error | done | intros [?|?]; [lia|done]]. }
      case_decide.
      { eexists _, _. split_and!; [done | done | no_error | done | intros [?|?]; [lia|done]]. }
      exfalso. destruct Hbad as [(v' & Hv' & ?)|(l' & Hl' & ?)]; simplify_eq; lia.
    - case_decide.
      + destruct (parseArtPollReply_no_packet msg rinfo now h) as (Hp & He & Hu).
        destruct (parseArtPollReply msg rinfo now h) as [h' out]. cbn in *.
        exists h', out. split_and!; [done | done | done | done | intros [?|?]; [lia|done]].
      + eexists _, _. split_and!; [done | done | no_error | done | intros [?|?]; [lia|done]]. }
  destruct Hgoal as (h' & out & Hh & Hp & He & Hu & Hs).
  exists h', out. split_and!; try done.
  now apply onMessage_handleMessage.
Qed.

(** A 3-byte datagram is dropped as too short. *)
Lemma C8_malformed_dropped_witness :
  exists h' out,
    handleMessage [65; 114; 116] (mkRemoteInfo "10.0.0.1" 6454) 0 initial = Some (h', out)
    /\ packets out = [] /\ h' = initial.
Proof.
  destruct (C8_malformed_dropped [65; 114; 116] (mkRemoteInfo "10.0.0.1" 6454) 0 initial)
    as (h' & out & Hh & _ & Hp & _ & _ & Hs).
  { left. simpl. lia. }
  exists h', out. split_and!; [exact Hh | exact Hp |].
  apply Hs. left. simpl. lia.
Defined.


(** A well-formed DMX datagram is decoded into one packet: the payload
    followed by zeros, whatever the handler saw before. *)
Lemma handleMessage_valid_dmx (msg : list Z) (rinfo : RemoteInfo) (now : Z)
    (h : ArtNetHandler) (U L version : Z) :
  take 8 msg = ARTNET_HEADER ->
  Buf.readUInt16LE msg 8 = Some ARTNET_OPCODE_DMX ->
  Buf.readUInt16BE msg 10 = Some version -> 14 <= version ->
  Buf.readUInt16LE msg 14 = Some U -> 0 <= U <= 63999 ->
  Buf.readUInt16BE msg 16 = Some L -> 2 <= L <= 512 ->
  18 + L <= Z.of_nat (length msg) ->
  exists h' out p,
    handleMessage msg rinfo now h = Some (h', out)
    /\ packets out = [p]
    /\ universe p = U
    /\ length (channels p) = 512%nat
    /\ take (Z.to_nat L) (channels p) = take (Z.to_nat L) (drop 18 msg)
    /\ drop (Z.to_nat L) (channels p) = replicate (512 - Z.to_nat L) 0.
Proof.
  intros Hhdr Hop Hver Hv HU HUr HL HLr Hlen.
  apply validateHeader_take in Hhdr.
  unfold handleMessage, ARTNET_MIN_PACKET_LENGTH.
  case_decide; [lia|]. rewrite Hhdr, Hop. cbn [negb mbind option_bind].
  case_decide; [|done].
  unfold parseDMXPacket. rewrite Hver. cbn [mbind option_bind].
  case_decide; [lia|]. rewrite HU. cbn [mbind option_bind].
  replace (isValidUniverse U) with true
    by (unfold isValidUniverse; rewrite !bool_decide_eq_true_2 by lia; reflexivity).
  cbn [negb]. rewrite HL. cbn [mbind option_bind].
  case_decide; [lia|]. case_decide; [lia|].
  rewrite extractChannels_spec by lia.
  assert (Hpay : length (take (Z.to_nat L) (drop 18 msg)) = Z.to_nat L)
    by (rewrite length_take, length_drop; lia).
  destruct (discoveredUniverses h !! U); eexists _, _, _;
    (split; [reflexivity|]); (split; [reflexivity|]); cbn;
    (split; [reflexivity|]);
    (split; [rewrite length_app, Hpay, length_replicate; unfold TOTAL_CHANNELS; lia|]);
    (split; [rewrite take_app_length' by (symmetry; exact Hpay); reflexivity|]);
    rewrite drop_app_length' by (symmetry; exact Hpay); reflexivity.
Qed.


(** C1 as stated fails: after a datagram that set channel 3 (index 2) to
    255, a two-channel datagram for the same universe yields a packet whose
    channel 3 is 0, so the channels beyond the data length are not kept
    from the prior packet. *)
Lemma C1_counterexample :
  exists h1 out1 p1 h2 out2 p2,
    handleMessage Examples.dmx_first Examples.sender 0 initial = Some (h1, out1)
    /\ packets out1 = [p1]
    /\ handleMessage Examples.dmx_second Examples.sender 40 h1 = Some (h2, out2)
    /\ packets out2 = [p2]
    /\ channels p1 !! 2%nat = Some 255
    /\ channels p2 !! 2%nat = Some 0
    /\ drop 2 (channels p2) <> drop 2 (channels p1).
Proof.
  eexists _, _, _, _, _, _.
  split; [vm_compute; reflexivity|].
  split; [vm_compute; reflexivity|].
  split; [vm_compute; reflexivity|].
  split; [vm_compute; reflexivity|].
  split; [vm_compute; reflexivity|].
  split; [vm_compute; reflexivity|].
  vm_compute. discriminate.
Qed.

(** C1 (amended). For every datagram that starts with the Art-Net header,
    has opcode 0x5000, a protocol version of at least 14, a universe [U] in
    [0, 63999], a data length [L] with 2 <= L <= 512 and at least 18 + L
    bytes, and for every prior state of the handler, [handleMessage]
    returns normally and emits exactly one DMX packet: its universe is [U],
    it has 512 channels, the first [L] are the payload bytes from offset
    18, and the channels at indices L..511 are zero. *)
Theorem C1_decode_valid_dmx (msg : list Z) (rinfo : RemoteInfo) (now : Z)
    (h : ArtNetHandler) (U L version : Z) :
  take 8 msg = ARTNET_HEADER ->
  Buf.readUInt16LE msg 8 = Some ARTNET_OPCODE_DMX ->
  Buf.readUInt16BE msg 10 = Some version -> 14 <= version ->
  Buf.readUInt16LE msg 14 = Some U -> 0 <= U <= 63999 ->
  Buf.readUInt16BE msg 16 = Some L -> 2 <= L <= 512 ->
  18 + L <= Z.of_nat (length msg) ->
  exists h' out p,
    handleMessage msg rinfo now h = Some (h', out)
    /\ packets out = [p]
    /\ universe p = U
    /\ length (channels p) = 512%nat
    /\ take (Z.to_nat L) (channels p) = take (Z.to_nat L) (drop 18 msg)
    /\ drop (Z.to_nat L) (channels p) = replicate (512 - Z.to_nat L) 0.
Proof. apply handleMessage_valid_dmx. Qed.

(** The theorem at the two-channel datagram. *)
Lemma C1_decode_valid_dmx_witness :
  exists h' out p,
    handleMessage Examples.dmx_second Examples.sender 40 initial = Some (h', out)
    /\ packets out = [p]
    /\ universe p = 1
    /\ length (channels p) = 512%nat
    /\ take 2 (channels p) = [1; 2]
    /\ drop 2 (channels p) = replicate 510 0.
Proof.
  apply (C1_decode_valid_dmx Examples.dmx_second Examples.sender 40 initial 1 2 14);
    first [reflexivity | vm_compute; split; discriminate | vm_compute; discriminate].
Defined.

End ArtNetFacts.

(** ** Art-Net transmitter and the wire round trip *)

Module TransmitterFacts.

(** The universe field of a decoded packet, as opposed to the transmitter's. *)
Local Abbreviation packet_universe := universe (only parsing).

Import Transmitter.

Lemma writeUInt8_ok v off buf :
  0 <= v <= 255 -> (off < length buf)%nat -> Buf.writeUInt8 v off buf = Some (<[off := v]> buf).
Proof. intros. unfold Buf.writeUInt8. now rewrite decide_True. Qed.

Lemma writeUInt16LE_ok v off buf :
  0 <= v <= 65535 -> (off + 2 <= length buf)%nat ->
  Buf.writeUInt16LE v off buf = Some (<[S off := Z.shiftr v 8]> (<[off := Z.land v 255]> buf)).
Proof. intros. unfold Buf.writeUInt16LE. now rewrite decide_True. Qed.

Lemma writeUInt16BE_ok v off buf :
  0 <= v <= 65535 -> (off + 2 <= length buf)%nat ->
  Buf.writeUInt16BE v off buf = Some (<[S off := Z.land v 255]> (<[off := Z.shiftr v 8]> buf)).
Proof. intros. unfold Buf.writeUInt16BE. now rewrite decide_True. Qed.

Lemma copy_header (n : nat) :
  Buf.copy ARTNET_HEADER 0 (Buf.alloc (18 + n)) = ARTNET_HEADER ++ replicate 10 0 ++ replicate n 0.
Proof.
  unfold Buf.copy, Buf.alloc, ARTNET_HEADER. simpl.
  rewrite length_replicate. rewrite take_replicate, Nat.min_id. reflexivity.
Qed.

Lemma copyData_fold (D : list Z) (pre zs : list Z) (k : nat) :
  length pre = 18%nat -> (k <= length D)%nat -> (k <= length zs)%nat ->
  copyData D k (pre ++ zs) = pre ++ take k D ++ drop k zs.
Proof.
  intros Hpre. unfold copyData. induction k as [|k IH]; intros HD Hz.
  - now rewrite take_0, drop_0.
  - rewrite seq_S, foldl_app, IH by lia. cbn [foldl]. change (0 + k)%nat with k.
    destruct (lookup_lt_is_Some_2 D k) as [v Hv]; [lia|]. rewrite Hv. cbn [default].
    rewrite (take_S_r _ _ _ Hv).
    assert (Hlen : length (take k D) = k) by (rewrite length_take; lia).
    rewrite insert_app_r_alt by lia. rewrite Hpre.
    replace (18 + k - 18)%nat with k by lia.
    rewrite insert_app_r_alt by lia. rewrite Hlen, Nat.sub_diag.
    destruct (drop k zs) as [|z zs'] eqn:Hdz.
    + apply (f_equal length) in Hdz. rewrite length_drop in Hdz. simpl in Hdz. lia.
    + cbn. rewrite <- app_assoc. cbn. do 3 f_equal.
      change (S k) with (1 + k)%nat. rewrite Nat.add_comm, <- drop_drop, Hdz. reflexivity.
Qed.

Lemma buildPacket_spec (t : ArtNetTransmitter) (D : list Z) :
  0 <= sequence t <= 255 -> 0 <= universe t <= 65535 ->
  let n := Nat.min (length D) TOTAL_CHANNELS in
  buildPacket t D =
    Some (ARTNET_HEADER ++
          [0; 80; 0; 14; sequence t; 0;
           Z.land (universe t) 255; Z.shiftr (universe t) 8;
           Z.shiftr (Z.of_nat n) 8; Z.land (Z.of_nat n) 255] ++ take n D).
Proof.
  intros Hs Hu n. unfold buildPacket. fold n.
  assert (Hn : (n <= 512)%nat) by (unfold n, TOTAL_CHANNELS; lia).
  rewrite copy_header.
  rewrite writeUInt16LE_ok; [| unfold ARTNET_OPCODE_DMX; lia | rewrite !length_app; simpl; lia].
  cbn [mbind option_bind].
  rewrite writeUInt16BE_ok; [| lia | rewrite !length_insert, !length_app; simpl; lia].
  cbn [mbind option_bind].
  rewrite writeUInt8_ok; [| lia | rewrite !length_insert, !length_app; simpl; lia].
  cbn [mbind option_bind].
  rewrite writeUInt8_ok; [| lia | rewrite !length_insert, !length_app; simpl; lia].
  cbn [mbind option_bind].
  rewrite writeUInt16LE_ok; [| lia | rewrite !length_insert, !length_app; simpl; lia].
  cbn [mbind option_bind].
  rewrite writeUInt16BE_ok; [| lia | rewrite !length_insert, !length_app; simpl; lia].
  cbn [mbind option_bind].
  f_equal.
  change (ARTNET_HEADER ++ replicate 10 0 ++ replicate n 0)
    with ([65; 114; 116; 45; 78; 101; 116; 0; 0; 0; 0; 0; 0; 0; 0; 0; 0; 0] ++ replicate n 0).
  rewrite !(insert_app_l _ (replicate n 0)) by (rewrite ?length_insert; simpl; lia).
  rewrite copyData_fold.
  - rewrite drop_replicate, Nat.sub_diag. cbn [replicate]. rewrite app_nil_r.
    change (ARTNET_OPCODE_DMX) with 20480. cbn. reflexivity.
  - rewrite !length_insert. reflexivity.
  - unfold n. lia.
  - rewrite length_replicate. lia.
Qed.

(** The ArtPoll datagram and what the receiver makes of it. *)
Lemma artPoll_bytes :
  ArtNet.artPollPacket = Some [65; 114; 116; 45; 78; 101; 116; 0; 0; 32; 0; 14; 0; 0].
Proof. reflexivity. Qed.

(** C5 as stated fails twice.  The 14 bytes of the ArtPoll encoder are not
    decoded as opcode 0x2000: [handleMessage] drops them as too short
    before it reads an opcode.  And a DMX datagram encoded for universe
    64000 is dropped by the decoder, so not every universe comes back. *)
Lemma C5_counterexample :
  (exists poll,
      ArtNet.sendArtPoll ArtNet.initial = Some poll
      /\ ArtNet.handleMessage poll Examples.sender 0 ArtNet.initial
         = Some (ArtNet.initial, [ArtNet.Log (ArtNet.PacketTooShort 14)])
      /\ ArtNet.handleMessage poll Examples.sender 0 ArtNet.initial
         <> Some (ArtNet.initial, [ArtNet.Log (ArtNet.UnhandledPacket ArtNet.ARTNET_OPCODE_POLL)]))
  /\ (exists t' p,
      send [10; 20] Examples.tx_high = Some (t', Some p)
      /\ ArtNet.handleMessage p Examples.sender 0 ArtNet.initial
         = Some (ArtNet.initial, [ArtNet.Log (ArtNet.InvalidUniverse 64000)])).
Proof.
  split.
  - eexists. split; [reflexivity|]. split; [reflexivity | discriminate].
  - eexists _, _. split; [vm_compute; reflexivity | vm_compute; reflexivity].
Qed.

(** C5 (amended). The ArtPoll encoder produces 14 bytes that carry opcode
    0x2000 little-endian at offset 8, and the datagram decoder drops them
    as too short (fewer than 18 bytes) without decoding an opcode.  For
    every running transmitter whose universe [U] is in [0, 63999] and every
    payload [D] of 2 to 512 bytes, the datagram that [send] builds is
    decoded by [handleMessage], in any handler state, into exactly one DMX
    packet with universe [U] whose first |D| channels are [D] and whose
    other channels are zero. *)
Theorem C5_wire_round_trip (t : ArtNetTransmitter) (D : list Z)
    (rinfo : ArtNet.RemoteInfo) (now : Z) (h : ArtNet.ArtNetHandler) :
  isRunning t = true -> 0 <= sequence t <= 255 ->
  0 <= universe t <= 63999 -> (2 <= length D <= 512)%nat ->
  (exists poll,
      ArtNet.artPollPacket = Some poll /\ length poll = 14%nat
      /\ Buf.readUInt16LE poll 8 = Some ArtNet.ARTNET_OPCODE_POLL
      /\ ArtNet.handleMessage poll rinfo now h
         = Some (h, [ArtNet.Log (ArtNet.PacketTooShort 14)]))
  /\ (exists t' p h' out pk,
      send D t = Some (t', Some p)
      /\ ArtNet.handleMessage p rinfo now h = Some (h', out)
      /\ ArtNet.packets out = [pk]
      /\ packet_universe pk = universe t
      /\ length (channels pk) = 512%nat
      /\ take (length D) (channels pk) = D
      /\ drop (length D) (channels pk) = replicate (512 - length D) 0).
Proof.
  intros Hrun Hseq HU HD. split.
  { eexists. split; [apply artPoll_bytes|]. split; [reflexivity|].
    split; reflexivity. }
  pose proof (buildPacket_spec t D) as Hb. cbv zeta in Hb.
  replace (Nat.min (length D) TOTAL_CHANNELS) with (length D) in Hb
    by (unfold TOTAL_CHANNELS; lia).
  rewrite firstn_all in Hb. specialize (Hb Hseq ltac:(lia)).
  set (p := ARTNET_HEADER ++ _) in Hb.
  destruct (ArtNetFacts.handleMessage_valid_dmx p rinfo now h (universe t)
              (Z.of_nat (length D)) 14)
    as (h' & out & pk & Hh & Hp & Hu & Hlen & Htake & Hdrop).
  - reflexivity.
  - reflexivity.
  - reflexivity.
  - lia.
  - unfold p, Buf.readUInt16LE. cbn. now rewrite lor_lo_hi.
  - lia.
  - unfold p, Buf.readUInt16BE. cbn. now rewrite lor_hi_lo.
  - lia.
  - unfold p. rewrite !length_app. cbn. lia.
  - exists {| universe := universe t; sequence := Z.land (sequence t + 1) 0xff;
              isRunning := isRunning t |}, p, h', out, pk.
    rewrite Nat2Z.id in Htake, Hdrop.
    split_and!; try done.
    + unfold send. rewrite Hrun, Hb. reflexivity.
    + rewrite Htake. unfold p. cbn. apply firstn_all.
Qed.

(** The theorem at universe 7 and a two-byte payload. *)
Lemma C5_wire_round_trip_witness :
  exists t' p h' out pk,
    send [10; 20] Examples.tx = Some (t', Some p)
    /\ ArtNet.handleMessage p Examples.sender 0 ArtNet.initial = Some (h', out)
    /\ ArtNet.packets out = [pk]
    /\ packet_universe pk = 7
    /\ take 2 (channels pk) = [10; 20].
Proof.
  destruct (C5_wire_round_trip Examples.tx [10; 20] Examples.sender 0 ArtNet.initial)
    as (_ & t' & p & h' & out & pk & H1 & H2 & H3 & H4 & _ & H5 & _).
  - reflexivity.
  - vm_compute. split; discriminate.
  - vm_compute. split; discriminate.
  - simpl. lia.
  - exists t', p, h', out, pk. split_and!; assumption.
Defined.

End TransmitterFacts.

(** ** sACN source arbitration *)

Module SACNFacts.
Import SACN.

(** *** The highest-priority loop *)

(** What the loop returns from any starting point: an upper bound of all
    priorities, and either the starting point (nothing was strictly
    greater) or the first source that reaches the greatest priority. *)
Lemma foldl_highest_spec (m : SourceMap) (hp : Z) (hs : option string) :
  let r := foldl highest_step (hp, hs) m in
  (forall e, e ∈ m -> si_priority e.2 <= r.1)
  /\ hp <= r.1
  /\ ((r = (hp, hs) /\ forall e, e ∈ m -> si_priority e.2 <= hp)
      \/ (exists n e, m !! n = Some e /\ r = (si_priority e.2, Some e.1)
                      /\ hp < si_priority e.2
                      /\ forall j e', (j < n)%nat -> m !! j = Some e' ->
                                      si_priority e'.2 < si_priority e.2)).
Proof.
  revert hp hs. induction m as [|e m IH]; intros hp hs; cbn zeta.
  - cbn. split; [intros e He; inversion He|]. split; [lia|]. left.
    split; [reflexivity | intros e He; inversion He].
  - cbn [foldl].
    destruct (decide (si_priority e.2 > hp)) as [Hgt|Hgt].
    + replace (highest_step (hp, hs) e) with (si_priority e.2, Some e.1)
        by (unfold highest_step; cbn [fst snd]; now rewrite decide_True).
      specialize (IH (si_priority e.2) (Some e.1)). cbn zeta in IH.
      destruct IH as (Hall & Hge & Hcase).
      split; [intros e' [->|He']%elem_of_cons; [lia | now apply Hall]|].
      split; [lia|]. right.
      destruct Hcase as [[Hr Hle]|(n & e2 & Hn & Hr & Hlt & Hbefore)].
      * exists 0%nat, e. split; [reflexivity|]. split; [exact Hr|]. split; [lia|].
        intros j e' Hj. lia.
      * exists (S n), e2. split; [exact Hn|]. split; [exact Hr|]. split; [lia|].
        intros [|j] e' Hj Hl; cbn in Hl.
        -- simplify_eq. lia.
        -- apply (Hbefore j); [lia | exact Hl].
    + replace (highest_step (hp, hs) e) with (hp, hs)
        by (unfold highest_step; cbn [fst snd]; now rewrite decide_False).
      specialize (IH hp hs). cbn zeta in IH.
      destruct IH as (Hall & Hge & Hcase).
      split; [intros e' [->|He']%elem_of_cons; [lia | now apply Hall]|].
      split; [lia|].
      destruct Hcase as [[Hr Hle]|(n & e2 & Hn & Hr & Hlt & Hbefore)].
      * left. split; [exact Hr|].
        intros e' [->|He']%elem_of_cons; [lia | now apply Hle].
      * right. exists (S n), e2. split; [exact Hn|]. split; [exact Hr|]. split; [lia|].
        intros [|j] e' Hj Hl; cbn in Hl.
        -- simplify_eq. lia.
        -- apply (Hbefore j); [lia | exact Hl].
Qed.

(** The first source that reaches the greatest priority, when that
    priority is not negative, is what [findHighest] returns. *)
Lemma findHighest_first_max (m : SourceMap) (n : nat) (e : string * SACNSourceInfo) :
  m !! n = Some e -> 0 <= si_priority e.2 ->
  (forall e', e' ∈ m -> si_priority e'.2 <= si_priority e.2) ->
  (forall j e', (j < n)%nat -> m !! j = Some e' -> si_priority e'.2 < si_priority e.2) ->
  findHighest m = (si_priority e.2, Some e.1).
Proof.
  intros Hn Hpos Hmax Hfirst. unfold findHighest.
  destruct (foldl_highest_spec m (-1) None) as (Hall & _ & [[_ Hle]|(n' & e2 & Hn' & Hr & _ & Hbefore)]).
  - specialize (Hle e (list_elem_of_lookup_2 _ _ _ Hn)). lia.
  - rewrite Hr.
    assert (He2 : si_priority e2.2 <= si_priority e.2)
      by (apply Hmax; eapply list_elem_of_lookup_2; eauto).
    assert (He : si_priority e.2 <= si_priority e2.2).
    { specialize (Hall e (list_elem_of_lookup_2 _ _ _ Hn)). rewrite Hr in Hall. exact Hall. }
    destruct (Nat.lt_trichotomy n n') as [Hlt|[->|Hlt]].
    + specialize (Hbefore n e Hlt Hn). lia.
    + now simplify_eq.
    + specialize (Hfirst n' e2 Hlt Hn'). lia.
Qed.

(** [findHighest] unfolded: nobody (every priority is negative or the
    table is empty), or the first source at the greatest priority. *)
Lemma findHighest_cases (m : SourceMap) :
  ((findHighest m).2 = None /\ forall e, e ∈ m -> si_priority e.2 <= -1)
  \/ (exists n e, m !! n = Some e /\ findHighest m = (si_priority e.2, Some e.1)
                  /\ 0 <= si_priority e.2
                  /\ (forall e', e' ∈ m -> si_priority e'.2 <= si_priority e.2)
                  /\ forall j e', (j < n)%nat -> m !! j = Some e' ->
                                  si_priority e'.2 < si_priority e.2).
Proof.
  unfold findHighest.
  destruct (foldl_highest_spec m (-1) None) as (Hall & _ & [[Hr Hle]|(n & e & Hn & Hr & Hlt & Hbefore)]).
  - left. rewrite Hr. split; [reflexivity | exact Hle].
  - right. exists n, e. rewrite Hr in Hall. cbn in Hall.
    split_and!; [exact Hn | exact Hr | lia | exact Hall | exact Hbefore].
Qed.

(** *** The source table *)

Lemma setActive_lookup (a : option string) (m : SourceMap) (n : nat) :
  setActive a m !! n
  = (fun e : string * SACNSourceInfo =>
       (e.1, {| si_sourceName := si_sourceName e.2; si_sourceAddress := si_sourceAddress e.2;
                si_priority := si_priority e.2; si_lastSeen := si_lastSeen e.2;
                isActive := bool_decide (Some e.1 = a) |})) <$> m !! n.
Proof. unfold setActive. apply list_lookup_fmap. Qed.

Lemma setActive_keys (a : option string) (m : SourceMap) : (setActive a m).*1 = m.*1.
Proof.
  unfold setActive. rewrite <- list_fmap_compose. apply list_fmap_ext.
  intros _ [k v] _. reflexivity.
Qed.

Lemma setActive_length (a : option string) (m : SourceMap) :
  length (setActive a m) = length m.
Proof. unfold setActive. apply length_fmap. Qed.

(** Flags do not matter to the highest-priority loop. *)
Lemma foldl_highest_setActive (a : option string) (m : SourceMap) (acc : Z * option string) :
  foldl highest_step acc (setActive a m) = foldl highest_step acc m.
Proof.
  revert acc. induction m as [|[k v] m IH]; intros acc; [reflexivity|].
  cbn [setActive fmap list_fmap foldl]. fold (setActive a m). rewrite <- IH.
  reflexivity.
Qed.

Lemma findHighest_setActive (a : option string) (m : SourceMap) :
  findHighest (setActive a m) = findHighest m.
Proof. apply foldl_highest_setActive. Qed.

(** [Map.set] on a key that is not tracked appends. *)
Lemma map_set_new (k : string) (v : SACNSourceInfo) (m : SourceMap) :
  k ∉ m.*1 -> map_set k v m = m ++ [(k, v)].
Proof.
  induction m as [|[k' v'] m IH]; intros Hk; [reflexivity|].
  cbn in *. rewrite not_elem_of_cons in Hk. destruct Hk as [Hne Hk].
  rewrite decide_False by exact Hne. now rewrite IH.
Qed.

(** [Map.set] on a tracked key replaces its first entry in place. *)
Lemma map_set_existing (k : string) (v v0 : SACNSourceInfo) (m : SourceMap) (i : nat) :
  m !! i = Some (k, v0) -> k ∉ (take i m).*1 -> map_set k v m = <[i := (k, v)]> m.
Proof.
  revert i. induction m as [|[k' v'] m IH]; intros i Hi Hk; [inversion Hi|].
  destruct i as [|i]; cbn in *.
  - simplify_eq. now rewrite decide_True.
  - rewrite not_elem_of_cons in Hk. destruct Hk as [Hne Hk].
    rewrite decide_False by exact Hne. f_equal. now apply IH.
Qed.

(** A tracked key has a first entry. *)
Lemma first_entry (k : string) (m : SourceMap) :
  k ∈ m.*1 -> exists i v0, m !! i = Some (k, v0) /\ k ∉ (take i m).*1.
Proof.
  induction m as [|[k' v'] m IH]; intros Hk; [inversion Hk|].
  destruct (decide (k = k')) as [->|Hne].
  - exists 0%nat, v'. split; [reflexivity|]. cbn. apply not_elem_of_nil.
  - cbn in Hk. apply elem_of_cons in Hk as [?|Hk]; [done|].
    destruct (IH Hk) as (i & v0 & Hi & Hnot).
    exists (S i), v0. split; [exact Hi|]. cbn. rewrite not_elem_of_cons. now split.
Qed.

Lemma map_set_keys_NoDup (k : string) (v : SACNSourceInfo) (m : SourceMap) :
  NoDup m.*1 -> NoDup (map_set k v m).*1.
Proof.
  intros Hnd. destruct (decide (k ∈ m.*1)) as [Hin|Hnin].
  - destruct (first_entry k m Hin) as (i & v0 & Hi & Hnot).
    rewrite (map_set_existing k v v0 m i Hi Hnot).
    rewrite list_fmap_insert. cbn.
    rewrite list_insert_id; [exact Hnd|].
    rewrite list_lookup_fmap, Hi. reflexivity.
  - rewrite map_set_new by exact Hnin.
    rewrite fmap_app. cbn. apply NoDup_app. split; [exact Hnd|].
    split; [|apply NoDup_singleton].
    intros x Hx Hx'. apply list_elem_of_singleton in Hx'. now subst.
Qed.

Lemma filter_keys_NoDup (P : string * SACNSourceInfo -> Prop) `{!forall e, Decision (P e)}
    (m : SourceMap) :
  NoDup m.*1 -> NoDup (filter P m).*1.
Proof.
  intros Hnd. eapply sublist_NoDup; [exact Hnd|].
  apply fmap_sublist, sublist_filter.
Qed.

(** With distinct keys, a key names one entry. *)
Lemma NoDup_keys_lookup (m : SourceMap) (i j : nat) (e1 e2 : string * SACNSourceInfo) :
  NoDup m.*1 -> m !! i = Some e1 -> m !! j = Some e2 -> e1.1 = e2.1 -> i = j.
Proof.
  intros Hnd H1 H2 Heq.
  eapply NoDup_lookup; [exact Hnd| |].
  - rewrite list_lookup_fmap, H1. reflexivity.
  - rewrite list_lookup_fmap, H2. cbn. now rewrite Heq.
Qed.

(** *** The invariant *)

Lemma consistent_initial : consistent initial.
Proof.
  split; [apply NoDup_nil_2|]. split; [reflexivity|]. intros e He. inversion He.
Qed.

Lemma setActive_consistent (u : gmap Z UniverseInfo) (m : SourceMap) :
  NoDup m.*1 ->
  consistent {| discoveredUniverses := u; sources := setActive (findHighest m).2 m;
                activeSource := (findHighest m).2 |}.
Proof.
  intros Hnd. split; cbn.
  - now rewrite setActive_keys.
  - split; [now rewrite findHighest_setActive|].
    intros e He. unfold setActive in He. apply list_elem_of_fmap in He as (e0 & -> & _).
    reflexivity.
Qed.

Lemma updateSourceTracking_consistent (key name : string) (addr : option string)
    (pri now : Z) (h : SACNHandler) :
  NoDup (sources h).*1 ->
  consistent (updateSourceTracking key name addr pri now h).1.1.
Proof.
  intros Hnd. unfold updateSourceTracking.
  set (info := {| si_sourceName := name; si_sourceAddress := addr; si_priority := pri;
                  si_lastSeen := now; isActive := false |}).
  pose proof (setActive_consistent (discoveredUniverses h) (map_set key info (sources h))
                (map_set_keys_NoDup key info (sources h) Hnd)) as Hc.
  destruct (findHighest (map_set key info (sources h))) as [hp hs]. exact Hc.
Qed.

Lemma cleanupStaleSources_consistent (now : Z) (h : SACNHandler) :
  consistent h -> consistent (cleanupStaleSources now h).1.
Proof.
  intros Hc. unfold cleanupStaleSources.
  destruct (negb _); [|exact Hc].
  assert (Hnd : NoDup (freshSources now (sources h)).*1)
    by (apply filter_keys_NoDup, Hc).
  case_decide as Hlen.
  - pose proof (setActive_consistent (discoveredUniverses h) _ Hnd) as Hc'.
    destruct (findHighest (freshSources now (sources h))) as [hp hs]. exact Hc'.
  - destruct (freshSources now (sources h)) as [|e l]; [|cbn in Hlen; lia].
    split; [apply NoDup_nil_2|]. split; [reflexivity|]. intros e He. inversion He.
Qed.

Section Arbitration.

Context {Payload : Type} (toChannels : Payload -> list Z).

(** The handler that [handlePacket] hands to [updateSourceTracking]: only
    the universe table has changed. *)
Lemma handlePacket_valid (p : SACNPacket) (now : Z) (h : SACNHandler) :
  isValidUniverse (universe p) = true ->
  exists (universes' : gmap Z UniverseInfo) (info : UniverseInfo),
    universes' !! universe p = Some info
    /\ ui_packetCount info
       = match discoveredUniverses h !! universe p with
         | Some old => ui_packetCount old + 1
         | None => 1
         end
    /\ let r := updateSourceTracking (getSourceKey p) (default "Unknown"%string (sourceName p))
                  (sourceAddress p) (default 100 (priority p)) now
                  {| discoveredUniverses := universes'; sources := sources h;
                     activeSource := activeSource h |} in
       (handlePacket toChannels p now h).1 = r.1.1
       /\ packets (handlePacket toChannels p now h).2
          = if r.2
            then [mkDMXPacket (universe p) (toChannels (payload p)) (sourceName p)
                              (priority p) (sequence p) now]
            else [].
Proof.
  intros Hu. unfold handlePacket. rewrite Hu. cbn [negb].
  destruct (discoveredUniverses h !! universe p) as [old|] eqn:Hold.
  - eexists (<[universe p := {| ui_universe := ui_universe old; ui_lastSeen := now;
                               ui_packetCount := ui_packetCount old + 1;
                               ui_source := if truthy (sourceName p) then sourceName p
                                            else ui_source old |}]>
              (discoveredUniverses h)), _.
    split; [apply lookup_insert_eq|]. split; [reflexivity|]. cbn zeta.
    unfold updateSourceTracking.
    destruct (findHighest _) as [hp hs]. cbn [fst snd].
    destruct (bool_decide (Some (getSourceKey p) = hs)); cbn [negb fst snd];
      (split; [reflexivity|]);
      repeat (case_bool_decide || case_decide || destruct (_ || _));
      unfold packets; rewrite ?omap_app; reflexivity.
  - eexists (<[universe p := {| ui_universe := universe p; ui_lastSeen := now;
                               ui_packetCount := 1; ui_source := sourceName p |}]>
              (discoveredUniverses h)), _.
    split; [apply lookup_insert_eq|]. split; [reflexivity|]. cbn zeta.
    unfold updateSourceTracking.
    destruct (findHighest _) as [hp hs]. cbn [fst snd].
    destruct (bool_decide (Some (getSourceKey p) = hs)); cbn [negb fst snd];
      (split; [reflexivity|]);
      repeat (case_bool_decide || case_decide || destruct (_ || _));
      unfold packets; rewrite ?omap_app; reflexivity.
Qed.

Lemma handlePacket_consistent (p : SACNPacket) (now : Z) (h : SACNHandler) :
  consistent h -> consistent (handlePacket toChannels p now h).1.
Proof.
  intros Hc. destruct (isValidUniverse (universe p)) eqn:Hu.
  - destruct (handlePacket_valid p now h Hu) as (u' & info & _ & _ & Hh & _).
    rewrite Hh. apply updateSourceTracking_consistent. apply Hc.
  - unfold handlePacket. rewrite Hu. exact Hc.
Qed.

Lemma reachable_consistent (h : SACNHandler) : reachable toChannels h -> consistent h.
Proof.
  induction 1.
  - apply consistent_initial.
  - now apply handlePacket_consistent.
  - now apply cleanupStaleSources_consistent.
Qed.


End Arbitration.

(** *** Consequences of the invariant *)

Lemma consistent_at_most_one (h : SACNHandler) (i j : nat) (e1 e2 : string * SACNSourceInfo) :
  consistent h -> sources h !! i = Some e1 -> sources h !! j = Some e2 ->
  isActive e1.2 = true -> isActive e2.2 = true -> i = j.
Proof.
  intros (Hnd & _ & Hflag) H1 H2 Ha1 Ha2.
  rewrite (Hflag e1) in Ha1 by (eapply list_elem_of_lookup_2; eauto).
  rewrite (Hflag e2) in Ha2 by (eapply list_elem_of_lookup_2; eauto).
  apply bool_decide_eq_true in Ha1, Ha2.
  eapply NoDup_keys_lookup; eauto. congruence.
Qed.

Lemma consistent_active_highest (h : SACNHandler) (e : string * SACNSourceInfo) :
  consistent h -> e ∈ sources h -> isActive e.2 = true ->
  activeSource h = Some e.1
  /\ forall e', e' ∈ sources h -> si_priority e'.2 <= si_priority e.2.
Proof.
  intros (Hnd & Hact & Hflag) He Ha.
  rewrite (Hflag e He) in Ha. apply bool_decide_eq_true in Ha.
  split; [congruence|].
  destruct (findHighest_cases (sources h)) as [[Hnone _]|(n & e0 & Hn & Hr & _ & Hmax & _)].
  - congruence.
  - rewrite Hr in Hact. cbn in Hact.
    apply list_elem_of_lookup_1 in He as [i Hi].
    assert (i = n) by (eapply NoDup_keys_lookup; eauto; congruence).
    subst i. assert (e = e0) by congruence. subst e0. exact Hmax.
Qed.

(** What [updateSourceTracking] leaves behind. *)
Lemma updateSourceTracking_fields (key name : string) (addr : option string)
    (pri now : Z) (h : SACNHandler) :
  let info := {| si_sourceName := name; si_sourceAddress := addr; si_priority := pri;
                 si_lastSeen := now; isActive := false |} in
  let r := updateSourceTracking key name addr pri now h in
  discoveredUniverses r.1.1 = discoveredUniverses h
  /\ activeSource r.1.1 = (findHighest (map_set key info (sources h))).2
  /\ sources r.1.1 = setActive (findHighest (map_set key info (sources h))).2
                               (map_set key info (sources h))
  /\ r.2 = bool_decide (Some key = activeSource r.1.1).
Proof.
  cbn zeta. unfold updateSourceTracking.
  destruct (findHighest _) as [hp hs]. cbn. split_and!; reflexivity.
Qed.

Lemma map_set_elem (k : string) (v : SACNSourceInfo) (m : SourceMap) :
  (k, v) ∈ map_set k v m.
Proof.
  induction m as [|[k' v'] m IH]; cbn.
  - apply list_elem_of_singleton. reflexivity.
  - case_decide; [apply list_elem_of_here | apply list_elem_of_further, IH].
Qed.

Lemma map_set_elem_inv (k : string) (v : SACNSourceInfo) (m : SourceMap)
    (e : string * SACNSourceInfo) :
  e ∈ map_set k v m -> e = (k, v) \/ e ∈ m.
Proof.
  induction m as [|[k' v'] m IH]; cbn.
  - intros ->%list_elem_of_singleton. now left.
  - case_decide.
    + intros [->|He]%elem_of_cons; [now left | right; now apply list_elem_of_further].
    + intros [->|He]%elem_of_cons; [right; apply list_elem_of_here|].
      destruct (IH He) as [->|Hin]; [now left | right; now apply list_elem_of_further].
Qed.

(** [Map.set] for key [k] leaves an entry of another key alone when [k]
    does not occur before it. *)
Lemma map_set_lookup_other (k : string) (v : SACNSourceInfo) (m : SourceMap) (j : nat)
    (e : string * SACNSourceInfo) :
  m !! j = Some e -> e.1 <> k -> k ∉ (take j m).*1 -> map_set k v m !! j = Some e.
Proof.
  revert j. induction m as [|[k' v'] m IH]; intros j Hj Hne Hk; [inversion Hj|].
  cbn. destruct j as [|j]; cbn in *.
  - simplify_eq. cbn in Hne. now rewrite decide_False by congruence.
  - rewrite not_elem_of_cons in Hk. destruct Hk as [Hkk Hk].
    rewrite decide_False by exact Hkk. cbn. now apply IH.
Qed.

End SACNFacts.

Module SACNClaims.
Import SACN SACNFacts.

Section Claims.

Context {Payload : Type} (toChannels : Payload -> list Z).

(** C9 (amended). In every state the arbitrator can reach by packet
    handling and cleanup sweeps, at most one tracked source is flagged
    active, and a flagged source is the active source and has the greatest
    priority in the table.  For an incoming packet whose universe passes
    the validity guard (0..63999), the packet is counted in the universe
    table and a DMX packet is emitted if and only if the packet's source
    key is the active source's key after the table update; otherwise
    nothing is emitted.  A packet whose universe fails the guard is dropped
    before arbitration: nothing is emitted and the handler is unchanged.
    Both operations lead to a reachable state again. *)
Theorem C9_arbitration_invariant (h : SACNHandler) :
  reachable toChannels h ->
  (forall i j e1 e2, sources h !! i = Some e1 -> sources h !! j = Some e2 ->
                     isActive e1.2 = true -> isActive e2.2 = true -> i = j)
  /\ (forall e, e ∈ sources h -> isActive e.2 = true ->
                activeSource h = Some e.1
                /\ forall e', e' ∈ sources h -> si_priority e'.2 <= si_priority e.2)
  /\ (forall (p : SACNPacket) now, isValidUniverse (universe p) = true ->
        let r := handlePacket toChannels p now h in
        reachable toChannels r.1
        /\ ((activeSource r.1 = Some (getSourceKey p)
             /\ packets r.2 = [mkDMXPacket (universe p) (toChannels (payload p))
                                           (sourceName p) (priority p) (sequence p) now])
            \/ (activeSource r.1 <> Some (getSourceKey p) /\ packets r.2 = []))
        /\ exists info, discoveredUniverses r.1 !! universe p = Some info
                        /\ ui_packetCount info
                           = match discoveredUniverses h !! universe p with
                             | Some old => ui_packetCount old + 1
                             | None => 1
                             end)
  /\ (forall (p : SACNPacket) now, isValidUniverse (universe p) = false ->
        handlePacket toChannels p now h = (h, [Log (InvalidUniverse (universe p))]))
  /\ (forall now, reachable toChannels (cleanupStaleSources now h).1).
Proof.
  intros Hreach. pose proof (reachable_consistent toChannels h Hreach) as Hc.
  split; [intros i j e1 e2; now apply consistent_at_most_one|].
  split; [intros e; now apply consistent_active_highest|].
  split; [|split].
  - intros p now Hu. cbn zeta.
    split; [now apply reach_packet|].
    destruct (handlePacket_valid toChannels p now h Hu) as (u' & info & Hinfo & Hcount & Hh & Hp).
    rewrite Hh, Hp.
    pose proof (updateSourceTracking_fields (getSourceKey p)
                  (default "Unknown"%string (sourceName p)) (sourceAddress p)
                  (default 100 (priority p)) now
                  {| discoveredUniverses := u'; sources := sources h;
                     activeSource := activeSource h |}) as (Hdu & _ & _ & Hemit).
    cbn zeta in Hdu, Hemit. rewrite Hemit. split.
    + case_bool_decide as Hk; [left | right]; (split; [congruence | reflexivity]).
    + exists info. rewrite Hdu. cbn. split; [exact Hinfo | exact Hcount].
  - intros p now Hu. unfold handlePacket. now rewrite Hu.
  - intros now. now apply reach_cleanup.
Qed.

End Claims.

(** The theorem in the state where B (priority 50) then A (priority 100)
    have been seen: a further packet of A is emitted. *)
Lemma C9_arbitration_invariant_witness :
  reachable Examples.noChannels Examples.afterBthenA
  /\ exists pk,
       packets (handlePacket Examples.noChannels (Examples.fromA 1) 20 Examples.afterBthenA).2
       = [pk].
Proof.
  assert (Hr : reachable Examples.noChannels Examples.afterBthenA)
    by (apply reach_packet, reach_packet, reach_initial).
  split; [exact Hr|].
  destruct (C9_arbitration_invariant Examples.noChannels Examples.afterBthenA Hr)
    as (_ & _ & Hemit & _).
  destruct (Hemit (Examples.fromA 1) 20 eq_refl) as (_ & [[_ Hp]|[Hne _]] & _).
  - eexists. exact Hp.
  - exfalso. apply Hne. vm_compute. reflexivity.
Defined.

(** C9 as stated fails: the active source A sends a packet for universe
    64000; its source key is the active source's key, yet no DMX packet is
    emitted. *)
Lemma C9_counterexample :
  activeSource Examples.afterBthenA = Some (getSourceKey (Examples.fromA 64000))
  /\ handlePacket Examples.noChannels (Examples.fromA 64000) 20 Examples.afterBthenA
     = (Examples.afterBthenA, [Log (InvalidUniverse 64000)])
  /\ packets (handlePacket Examples.noChannels (Examples.fromA 64000) 20 Examples.afterBthenA).2
     = [].
Proof. split; [|split]; vm_compute; reflexivity. Qed.

Section Claims2.

Context {Payload : Type} (toChannels : Payload -> list Z).

(** C2 (amended). For every incoming sACN packet that passes the universe
    guard and has a non-negative priority, after the table update the
    active source is a tracked source with the greatest priority, and on
    ties it is the one that comes first in the source table (insertion
    order; sending again does not move a source): every source before it
    has a strictly smaller priority.  So if A is active and another source
    B, which is new or was inserted after A, sends with a priority equal to
    (or below) A's, A remains the active source.  A cleanup sweep that
    does not remove the active source leaves it active. *)
Theorem C2_active_source_rule (h : SACNHandler) (p : SACNPacket) (now : Z) :
  reachable toChannels h ->
  isValidUniverse (universe p) = true ->
  0 <= default 100 (priority p) ->
  let h' := (handlePacket toChannels p now h).1 in
  (exists n e,
      sources h' !! n = Some e /\ activeSource h' = Some e.1 /\ isActive e.2 = true
      /\ (forall e', e' ∈ sources h' -> si_priority e'.2 <= si_priority e.2)
      /\ (forall j e', (j < n)%nat -> sources h' !! j = Some e' ->
                       si_priority e'.2 < si_priority e.2))
  /\ (forall A nA infoA,
        activeSource h = Some A -> sources h !! nA = Some (A, infoA) ->
        getSourceKey p <> A ->
        default 100 (priority p) <= si_priority infoA ->
        getSourceKey p ∉ (take nA (sources h)).*1 ->
        activeSource h' = Some A)
  /\ (forall sweep A nA infoA,
        activeSource h = Some A -> sources h !! nA = Some (A, infoA) ->
        isStale sweep (A, infoA) = false ->
        activeSource (cleanupStaleSources sweep h).1 = Some A).
Proof.
  intros Hreach Hu Hpri. cbn zeta.
  pose proof (reachable_consistent toChannels h Hreach) as (Hnd & Hact & Hflag).
  destruct (handlePacket_valid toChannels p now h Hu) as (u' & _ & _ & _ & Hh & _).
  rewrite Hh. clear Hh.
  pose proof (updateSourceTracking_fields (getSourceKey p)
                (default "Unknown"%string (sourceName p)) (sourceAddress p)
                (default 100 (priority p)) now
                {| discoveredUniverses := u'; sources := sources h;
                   activeSource := activeSource h |}) as (_ & Ha & Hs & _).
  cbn zeta in Ha, Hs. cbn [sources] in Ha, Hs.
  set (key := getSourceKey p) in *.
  set (info := {| si_sourceName := default "Unknown"%string (sourceName p);
                  si_sourceAddress := sourceAddress p;
                  si_priority := default 100 (priority p);
                  si_lastSeen := now; isActive := false |}) in *.
  set (m1 := map_set key info (sources h)) in *.
  rewrite Ha, Hs. clear Ha Hs. split; [|split].
  - destruct (findHighest_cases m1) as [[_ Hneg]|(n & e & Hn & Hr & Hpos & Hmax & Hfirst)].
    { specialize (Hneg (key, info) (map_set_elem key info (sources h))). cbn in Hneg. lia. }
    rewrite Hr. cbn [snd].
    exists n, (e.1, {| si_sourceName := si_sourceName e.2;
                       si_sourceAddress := si_sourceAddress e.2;
                       si_priority := si_priority e.2; si_lastSeen := si_lastSeen e.2;
                       isActive := bool_decide (Some e.1 = Some e.1) |}).
    split; [rewrite setActive_lookup, Hn; reflexivity|].
    split; [reflexivity|].
    split; [cbn; now apply bool_decide_eq_true|].
    cbn [fst snd si_priority]. split.
    + intros e' He'. unfold setActive in He'.
      apply list_elem_of_fmap in He' as (e0 & -> & He0). cbn. now apply Hmax.
    + intros j e' Hj Hl. rewrite setActive_lookup in Hl.
      destruct (m1 !! j) as [e0|] eqn:He0; [|discriminate].
      cbn in Hl. simplify_eq. cbn. now apply (Hfirst j).
  - intros A nA infoA HA HnA Hne Hle Hbefore.
    rewrite HA in Hact.
    destruct (findHighest_cases (sources h)) as [[Hnone _]|(n0 & e0 & Hn0 & Hr0 & Hpos0 & Hmax0 & Hfirst0)];
      [congruence|].
    rewrite Hr0 in Hact. cbn in Hact.
    assert (n0 = nA) by (eapply NoDup_keys_lookup; eauto; cbn; congruence).
    subst n0. assert (e0 = (A, infoA)) by congruence. subst e0. cbn [fst snd] in *.
    rewrite (findHighest_first_max m1 nA (A, infoA)); [reflexivity| | | |].
    + apply map_set_lookup_other; [exact HnA | cbn; congruence | exact Hbefore].
    + exact Hpos0.
    + intros e' [->|He']%map_set_elem_inv; [cbn; lia | now apply Hmax0].
    + intros j e' Hj Hl.
      destruct (lookup_lt_is_Some_2 (sources h) j) as [e0 He0].
      { apply lookup_lt_Some in HnA. lia. }
      assert (Hk : e0.1 ∈ (take nA (sources h)).*1).
      { apply list_elem_of_fmap. exists e0. split; [reflexivity|].
        apply (list_elem_of_lookup_2 _ j). rewrite lookup_take_lt by lia. exact He0. }
      assert (Hm1 : m1 !! j = Some e0).
      { apply map_set_lookup_other; [exact He0 | intros Heq; rewrite Heq in Hk; contradiction |].
        intros Hin. apply Hbefore.
        apply list_elem_of_fmap in Hin as (x & Hx & Hxin).
        apply list_elem_of_fmap. exists x. split; [exact Hx|].
        apply list_elem_of_lookup_1 in Hxin as [i Hi].
        apply lookup_take_Some in Hi as [Hi Hlt].
        apply (list_elem_of_lookup_2 _ i). rewrite lookup_take_lt by lia. exact Hi. }
      assert (e' = e0) by congruence. subst e'. now apply (Hfirst0 j).
  - intros sweep A nA infoA HA HnA Hfresh.
    unfold cleanupStaleSources.
    destruct (negb _); [|exact HA].
    rewrite HA in Hact.
    destruct (findHighest_cases (sources h)) as [[Hnone _]|(n0 & e0 & Hn0 & Hr0 & Hpos0 & Hmax0 & Hfirst0)];
      [congruence|].
    rewrite Hr0 in Hact. cbn in Hact.
    assert (n0 = nA) by (eapply NoDup_keys_lookup; eauto; cbn; congruence).
    subst n0. assert (e0 = (A, infoA)) by congruence. subst e0. cbn [fst snd] in *.
    assert (Hsplit : freshSources sweep (sources h)
                     = freshSources sweep (take nA (sources h))
                       ++ (A, infoA) :: freshSources sweep (drop (S nA) (sources h))).
    { rewrite <- (take_drop_middle _ _ _ HnA) at 1. unfold freshSources.
      rewrite filter_app, filter_cons_True by exact Hfresh. reflexivity. }
    assert (Hhigh : findHighest (freshSources sweep (sources h)) = (si_priority infoA, Some A)).
    { apply (findHighest_first_max _ (length (freshSources sweep (take nA (sources h))))
               (A, infoA)).
      - rewrite Hsplit. apply list_lookup_middle. reflexivity.
      - exact Hpos0.
      - intros e' He'. apply Hmax0. unfold freshSources in He'.
        now apply list_elem_of_filter in He' as [_ He'].
      - intros j e' Hj Hl. rewrite Hsplit, lookup_app_l in Hl by exact Hj.
        apply list_elem_of_lookup_2 in Hl. unfold freshSources in Hl.
        apply list_elem_of_filter in Hl as [_ Hl].
        apply list_elem_of_lookup_1 in Hl as [i Hi].
        apply lookup_take_Some in Hi as [Hi Hlt]. now apply (Hfirst0 i). }
    case_decide as Hlen.
    + rewrite Hhigh. reflexivity.
    + exfalso. apply Hlen. rewrite Hsplit, length_app. cbn. lia.
Qed.

End Claims2.

(** The theorem in the state where B (priority 50) then A (priority 100)
    have been seen, for a packet of A. *)
Lemma C2_active_source_rule_witness :
  exists n e,
    sources (handlePacket Examples.noChannels (Examples.fromA 1) 20 Examples.afterBthenA).1 !! n
    = Some e
    /\ activeSource (handlePacket Examples.noChannels (Examples.fromA 1) 20
                       Examples.afterBthenA).1 = Some e.1.
Proof.
  destruct (C2_active_source_rule Examples.noChannels Examples.afterBthenA
              (Examples.fromA 1) 20) as ((n & e & Hn & Ha & _) & _).
  - apply reach_packet, reach_packet, reach_initial.
  - reflexivity.
  - vm_compute. discriminate.
  - exists n, e. split; assumption.
Defined.

(** C2 as stated fails: B is tracked first with priority 50, then A with
    priority 100 becomes active.  When B sends with priority 100, equal to
    A's, B becomes the active source although no strictly higher priority
    appeared and A is still tracked. *)
Lemma C2_counterexample :
  activeSource Examples.afterBthenA = Some "A"%string
  /\ (si_priority <$> map_get "A" (sources Examples.afterBthenA)) = Some 100
  /\ let h' := (handlePacket Examples.noChannels (Examples.fromB 100) 20
                  Examples.afterBthenA).1 in
     activeSource h' = Some "B"%string
     /\ (si_priority <$> map_get "A" (sources h')) = Some 100
     /\ (si_priority <$> map_get "B" (sources h')) = Some 100
     /\ (isActive <$> map_get "A" (sources h')) = Some false.
Proof. split; [|split]; vm_compute; repeat split; reflexivity. Qed.

End SACNClaims.

(** ** JavaScript integer operators *)

Module JSFacts.

Lemma toInt32_small (z : Z) : - 2 ^ 31 <= z < 2 ^ 31 -> JS.toInt32 z = z.
Proof.
  intros Hz. unfold JS.toInt32. rewrite Z.mod_small by lia. lia.
Qed.

Lemma toUint32_small (z : Z) : 0 <= z < 2 ^ 32 -> JS.toUint32 z = z.
Proof. intros Hz. unfold JS.toUint32. now rewrite Z.mod_small by lia. Qed.

(** A property of all bytes, checked by running over the 256 of them. *)
Lemma byte_cases (P : Z -> bool) :
  forallb P (seqZ 0 256) = true -> forall b, 0 <= b < 256 -> P b = true.
Proof.
  intros Hall b Hb. rewrite forallb_forall in Hall. apply Hall.
  apply list_elem_of_In, elem_of_seqZ. lia.
Qed.

(** [byte & 0x80] tells bytes below 128 from the others. *)
Lemma and_0x80_low (b : Z) : 0 <= b < 128 -> JS.and b 0x80 = 0.
Proof.
  intros Hb.
  pose proof (byte_cases (fun b => bool_decide (b < 128 -> JS.and b 0x80 = 0)) eq_refl b
                ltac:(lia)) as H.
  apply bool_decide_eq_true in H. apply H. lia.
Qed.

Lemma and_0x80_high (b : Z) : 128 <= b < 256 -> JS.and b 0x80 <> 0.
Proof.
  intros Hb.
  pose proof (byte_cases (fun b => bool_decide (128 <= b -> JS.and b 0x80 <> 0)) eq_refl b
                ltac:(lia)) as H.
  apply bool_decide_eq_true in H. apply H. lia.
Qed.

(** [byte & 0x7F] drops the continuation bit. *)
Lemma and_0x7F_byte (b : Z) : 0 <= b < 256 -> JS.and b 0x7F = b mod 128.
Proof.
  intros Hb.
  pose proof (byte_cases (fun b => bool_decide (JS.and b 0x7F = b mod 128)) eq_refl b Hb) as H.
  now apply bool_decide_eq_true in H.
Qed.


Lemma or_0x80_low (x : Z) : 0 <= x < 128 -> JS.or x 0x80 = x + 128.
Proof.
  intros Hx.
  pose proof (byte_cases (fun b => bool_decide (b < 128 -> JS.or b 0x80 = b + 128)) eq_refl x
                ltac:(lia)) as H.
  apply bool_decide_eq_true in H. apply H. lia.
Qed.

(** [ToInt32] keeps the residue modulo 128. *)
Lemma toInt32_mod_128 (v : Z) : JS.toInt32 v mod 128 = v mod 128.
Proof.
  unfold JS.toInt32.
  pose proof (Z.div_mod (v + 2 ^ 31) (2 ^ 32) ltac:(lia)) as Hdm.
  replace ((v + 2 ^ 31) mod 2 ^ 32 - 2 ^ 31)
    with (v + (- (2 ^ 25) * ((v + 2 ^ 31) / 2 ^ 32)) * 128) by lia.
  apply Z.mod_add. lia.
Qed.

(** [value & 0x7F], for any integer. *)
Lemma and_0x7F (v : Z) : JS.and v 0x7F = v mod 128.
Proof.
  unfold JS.and. rewrite (toInt32_small 0x7F) by lia.
  change 0x7F with (Z.ones 7). rewrite Z.land_ones by lia.
  apply toInt32_mod_128.
Qed.

(** [value >>> 7]. *)
Lemma shru_7 (v : Z) : JS.shru v 7 = (v mod 2 ^ 32) / 128.
Proof.
  unfold JS.shru, JS.toUint32. change (7 mod 32) with 7.
  now rewrite Z.shiftr_div_pow2 by lia.
Qed.

Lemma shru_7_range (v : Z) : 0 <= JS.shru v 7 < 2 ^ 25.
Proof.
  rewrite shru_7. pose proof (Z.mod_pos_bound v (2 ^ 32) ltac:(lia)).
  split; [apply Z.div_pos; lia | apply Z.div_lt_upper_bound; lia].
Qed.

(** Bits that do not overlap add up. *)
Lemma lor_disjoint (acc y s : Z) :
  0 <= s -> 0 <= acc < 2 ^ s -> Z.lor acc (y * 2 ^ s) = acc + y * 2 ^ s.
Proof.
  intros Hs Hacc.
  assert (Hland : Z.land acc (y * 2 ^ s) = 0).
  { apply Z.bits_inj'; intros n Hn. rewrite Z.land_spec, Z.bits_0.
    rewrite <- Z.shiftl_mul_pow2 by lia.
    destruct (decide (n < s)) as [Hlt|Hge].
    - rewrite Z.shiftl_spec_low by lia. apply andb_false_r.
    - assert (Hbit : Z.testbit acc n = false).
      { apply Z.testbit_false; [lia|]. rewrite Z.div_small; [reflexivity|].
        split; [lia|]. apply Z.lt_le_trans with (2 ^ s); [lia|].
        apply Z.pow_le_mono_r; lia. }
      now rewrite Hbit. }
  rewrite <- Z.lxor_lor by exact Hland. symmetry. now apply Z.add_nocarry_lxor.
Qed.

(** [value | (bits << shift)] when nothing overflows 31 bits. *)
Lemma or_shl (acc y s : Z) :
  0 <= s < 32 -> 0 <= acc < 2 ^ s -> 0 <= y -> y * 2 ^ s < 2 ^ 31 ->
  JS.or acc (JS.shl y s) = acc + y * 2 ^ s.
Proof.
  intros Hs Hacc Hy Hlt.
  assert (Hpow : 0 < 2 ^ s) by (apply Z.pow_pos_nonneg; lia).
  assert (Hy31 : y < 2 ^ 31) by nia.
  assert (Hs31 : 2 ^ s <= 2 ^ 31) by (apply Z.pow_le_mono_r; lia).
  unfold JS.or, JS.shl.
  rewrite (toInt32_small y) by lia.
  rewrite Z.mod_small by lia.
  rewrite Z.shiftl_mul_pow2 by lia.
  rewrite !(toInt32_small (y * 2 ^ s)) by nia.
  rewrite (toInt32_small acc) by lia.
  apply lor_disjoint; lia.
Qed.

End JSFacts.

(** ** Varint codec *)

Module VarintFacts.
Import Varint JSFacts.

(** Five rounds are as good as any larger bound: the loop has stopped. *)
Lemma encodeLoop_enough (k : nat) (v : Z) (n m : nat) :
  0 <= v < 2 ^ (7 * Z.of_nat k) -> (k <= n)%nat -> (k <= m)%nat ->
  encodeLoop n v = encodeLoop m v.
Proof.
  revert v n m. induction k as [|k IH]; intros v n m Hv Hn Hm.
  - assert (v = 0) by (change (2 ^ (7 * Z.of_nat 0)) with 1 in Hv; lia). subst v.
    destruct n, m; reflexivity.
  - destruct n as [|n]; [lia|]. destruct m as [|m]; [lia|]. cbn [encodeLoop].
    case_decide as Hgt; [|reflexivity]. f_equal.
    apply IH; [|lia|lia].
    rewrite shru_7.
    assert (Hpow : 2 ^ (7 * Z.of_nat (S k)) = 128 * 2 ^ (7 * Z.of_nat k)).
    { replace (7 * Z.of_nat (S k)) with (7 + 7 * Z.of_nat k) by lia.
      rewrite Z.pow_add_r by lia. reflexivity. }
    pose proof (Z.mod_pos_bound v (2 ^ 32) ltac:(lia)).
    pose proof (Z.mod_le v (2 ^ 32) ltac:(lia) ltac:(lia)).
    split; [apply Z.div_pos; lia | apply Z.div_lt_upper_bound; lia].
Qed.

Lemma encodeLoop_S (fuel : nat) (v : Z) :
  encodeLoop (S fuel) v
  = if decide (v > 0x7F)
    then JS.or (JS.and v 0x7F) 0x80 :: encodeLoop fuel (JS.shru v 7)
    else [JS.and v 0x7F].
Proof. reflexivity. Qed.

Lemma encodeVarint_fuel (v : Z) (n : nat) : (5 <= n)%nat -> encodeLoop n v = encodeVarint v.
Proof.
  intros Hn. unfold encodeVarint.
  destruct n as [|n]; [lia|]. rewrite (encodeLoop_S n), (encodeLoop_S 4).
  case_decide as Hgt; [|reflexivity]. f_equal.
  apply (encodeLoop_enough 4); [|lia|lia].
  pose proof (shru_7_range v). change (2 ^ (7 * Z.of_nat 4)) with (2 ^ 28). lia.
Qed.

(** Every encoded byte is a byte. *)
Lemma encodeLoop_bytes (fuel : nat) (v : Z) :
  Forall (fun b => 0 <= b < 256) (encodeLoop fuel v).
Proof.
  revert v. induction fuel as [|fuel IH]; intros v; cbn [encodeLoop].
  - constructor; [|constructor]. rewrite and_0x7F.
    pose proof (Z.mod_pos_bound v 128 ltac:(lia)). lia.
  - pose proof (Z.mod_pos_bound v 128 ltac:(lia)).
    case_decide.
    + constructor; [|apply IH]. rewrite and_0x7F, or_0x80_low by lia. lia.
    + constructor; [|constructor]. rewrite and_0x7F. lia.
Qed.

Lemma encodeLoop_length (fuel : nat) (v : Z) :
  (1 <= length (encodeLoop fuel v) <= S fuel)%nat.
Proof.
  revert v. induction fuel as [|fuel IH]; intros v; cbn [encodeLoop].
  - cbn. lia.
  - case_decide; cbn; [specialize (IH (JS.shru v 7)); lia | lia].
Qed.

(** The decoder consumes exactly the bytes the encoder produced. *)
Lemma decode_encode_length (fuel : nat) (v : Z) (rest : list Z) (acc s : Z) (n : nat) :
  (decodeLoop (encodeLoop fuel v ++ rest) acc s n).2 = (n + length (encodeLoop fuel v))%nat.
Proof.
  revert v acc s n. induction fuel as [|fuel IH]; intros v acc s n; cbn [encodeLoop].
  - cbn [app decodeLoop]. pose proof (Z.mod_pos_bound v 128 ltac:(lia)).
    rewrite decide_True by (rewrite and_0x7F; apply and_0x80_low; lia).
    cbn. lia.
  - pose proof (Z.mod_pos_bound v 128 ltac:(lia)).
    case_decide.
    + cbn [app decodeLoop].
      rewrite decide_False
        by (rewrite and_0x7F, or_0x80_low by lia; apply and_0x80_high; lia).
      rewrite IH. cbn. lia.
    + cbn [app decodeLoop].
      rewrite decide_True by (rewrite and_0x7F; apply and_0x80_low; lia).
      cbn. lia.
Qed.

(** The decoder returns the encoded value when it fits in 31 bits from
    the current shift on. *)
Lemma decode_encode_value (fuel : nat) (v : Z) (rest : list Z) (acc s : Z) (n : nat) :
  0 <= v < 2 ^ (7 * Z.of_nat fuel) -> 0 <= s < 32 -> v * 2 ^ s < 2 ^ 31 ->
  0 <= acc < 2 ^ s ->
  (decodeLoop (encodeLoop fuel v ++ rest) acc s n).1 = acc + v * 2 ^ s.
Proof.
  revert v acc s n. induction fuel as [|fuel IH]; intros v acc s n Hv Hs Hfit Hacc.
  - assert (v = 0) by (change (2 ^ (7 * Z.of_nat 0)) with 1 in Hv; lia). subst v.
    cbn [encodeLoop app decodeLoop].
    rewrite decide_True by reflexivity. cbn [fst].
    change (JS.and (JS.and 0 127) 127) with 0.
    rewrite (or_shl acc 0 s) by lia. lia.
  - assert (Hpow : 0 < 2 ^ s) by (apply Z.pow_pos_nonneg; lia).
    pose proof (Z.mod_pos_bound v 128 ltac:(lia)) as Hm.
    pose proof (Z.div_mod v 128 ltac:(lia)) as Hdm.
    assert (Hv31 : v < 2 ^ 31) by nia.
    cbn [encodeLoop]. case_decide as Hgt.
    + cbn [app decodeLoop].
      rewrite decide_False
        by (rewrite and_0x7F, or_0x80_low by lia; apply and_0x80_high; lia).
      assert (Hbyte : JS.and (JS.or (JS.and v 127) 128) 127 = v mod 128).
      { rewrite (and_0x7F v), or_0x80_low by lia. rewrite and_0x7F.
        replace (v mod 128 + 128) with (v mod 128 + 1 * 128) by lia.
        rewrite Z.mod_add by lia. apply Z.mod_small. lia. }
      rewrite Hbyte.
      assert (Hs7 : s + 7 < 32).
      { destruct (decide (s + 7 < 32)); [assumption|]. exfalso.
        assert (2 ^ 25 <= 2 ^ s) by (apply Z.pow_le_mono_r; lia). nia. }
      assert (Hp7 : 2 ^ (s + 7) = 128 * 2 ^ s)
        by (rewrite Z.pow_add_r by lia; lia).
      rewrite (or_shl acc (v mod 128) s) by nia.
      rewrite IH.
      * rewrite shru_7, (Z.mod_small v (2 ^ 32)) by lia. rewrite Hp7. nia.
      * rewrite shru_7, (Z.mod_small v (2 ^ 32)) by lia.
        assert (Hpw : 2 ^ (7 * Z.of_nat (S fuel)) = 128 * 2 ^ (7 * Z.of_nat fuel)).
        { replace (7 * Z.of_nat (S fuel)) with (7 + 7 * Z.of_nat fuel) by lia.
          rewrite Z.pow_add_r by lia. reflexivity. }
        split; [apply Z.div_pos; lia | apply Z.div_lt_upper_bound; lia].
      * lia.
      * rewrite shru_7, (Z.mod_small v (2 ^ 32)) by lia. rewrite Hp7. nia.
      * rewrite Hp7. nia.
    + cbn [app decodeLoop].
      rewrite decide_True by (rewrite and_0x7F; apply and_0x80_low; lia).
      cbn [fst]. rewrite !and_0x7F.
      rewrite (Z.mod_small v 128) by lia. rewrite (Z.mod_small v 128) by lia.
      rewrite (or_shl acc v s) by lia. reflexivity.
Qed.

(** Varint round trip: a value below 2^31 is decoded as written, and the
    decoder stops right behind its encoding. *)
Lemma decodeVarint_encodeVarint (v : Z) (pre rest : list Z) :
  0 <= v < 2 ^ 31 ->
  decodeVarint (pre ++ encodeVarint v ++ rest) (length pre)
  = (v, length (encodeVarint v)).
Proof.
  intros Hv. unfold decodeVarint. rewrite drop_app_length.
  apply injective_projections.
  - unfold encodeVarint. rewrite decode_encode_value; cbn [fst]; try lia.
  - unfold encodeVarint. rewrite decode_encode_length. reflexivity.
Qed.

(** For any integer the decoder stops right behind the encoding. *)
Lemma decodeVarint_bytesRead (v : Z) (pre rest : list Z) :
  (decodeVarint (pre ++ encodeVarint v ++ rest) (length pre)).2 = length (encodeVarint v).
Proof.
  unfold decodeVarint. rewrite drop_app_length.
  unfold encodeVarint. now rewrite decode_encode_length.
Qed.

End VarintFacts.

(** ** Recorder *)

Module RecorderFacts.
Import Recorder.

(** *** The file behind the log *)

Lemma diskFrom_app (content : list Z) (a b : list FsOp) :
  diskFrom content (a ++ b) = diskFrom (diskFrom content a) b.
Proof.
  revert content. induction a as [|op a IH]; intros content; [reflexivity|].
  destruct op; cbn; apply IH.
Qed.

Lemma disk_write (ops : list FsOp) (data : list Z) :
  disk (ops ++ [FsWrite data]) = disk ops ++ data.
Proof. unfold disk. now rewrite diskFrom_app. Qed.


(** Rewriting the first bytes in place, then syncing and closing. *)
Lemma disk_rewrite_header (ops : list FsOp) (header : list Z) :
  (length header <= length (disk ops))%nat ->
  disk (ops ++ [FsWriteAt header 0; FsSync; FsClose])
  = header ++ drop (length header) (disk ops).
Proof. intros Hlen. unfold disk. rewrite diskFrom_app. cbn. now rewrite resize_0. Qed.

(** *** The write buffer *)

Lemma sameFrameState_refl (r : DMXRecorder) : sameFrameState r r.
Proof. repeat split. Qed.

Lemma sameFrameState_trans (r1 r2 r3 : DMXRecorder) :
  sameFrameState r1 r2 -> sameFrameState r2 r3 -> sameFrameState r1 r3.
Proof. unfold sameFrameState. intros H1 H2. destruct_and!. split_and!; congruence. Qed.

Lemma appends_refl (r : DMXRecorder) :
  (HEADER_SIZE <= length (disk (fs r)))%nat -> appends [] r r.
Proof.
  intros H. split; [now rewrite app_nil_r|]. split; [exact H | apply sameFrameState_refl].
Qed.

Lemma appends_trans (a b : list Z) (r1 r2 r3 : DMXRecorder) :
  appends a r1 r2 -> appends b r2 r3 -> appends (a ++ b) r1 r3.
Proof.
  intros (Hs1 & _ & Hf1) (Hs2 & Hd2 & Hf2).
  split; [rewrite Hs2, Hs1; now rewrite app_assoc|].
  split; [exact Hd2 | eapply sameFrameState_trans; eauto].
Qed.

Lemma flushBuffer_appends (r : DMXRecorder) :
  (HEADER_SIZE <= length (disk (fs r)))%nat -> appends [] r (flushBuffer r).
Proof.
  intros Hd. unfold flushBuffer.
  destruct (bool_decide _ && fileHandle r) eqn:Hc; [|now apply appends_refl].
  destruct r; cbn in *. unfold appends, stream, sameFrameState; cbn.
  rewrite disk_write, !app_nil_r.
  split; [now rewrite drop_app_le by exact Hd|].
  split; [rewrite length_app; unfold HEADER_SIZE, disk in *; lia | repeat split].
Qed.

Lemma appendByte_appends (v : Z) (r : DMXRecorder) :
  (HEADER_SIZE <= length (disk (fs r)))%nat -> appends [v mod 256] r (appendByte v r).
Proof.
  intros Hd. unfold appendByte.
  assert (Hstep : forall r0, (HEADER_SIZE <= length (disk (fs r0)))%nat ->
                             appends [v mod 256] r0 (set_pending (pending r0 ++ [v mod 256]) r0)).
  { intros r0 H0. destruct r0; cbn in *. unfold appends, stream, sameFrameState; cbn.
    split; [now rewrite app_assoc|]. split; [exact H0 | repeat split]. }
  case_decide.
  - pose proof (flushBuffer_appends r Hd) as Hf.
    apply (appends_trans [] [v mod 256] r (flushBuffer r)); [exact Hf|].
    apply Hstep. apply Hf.
  - now apply Hstep.
Qed.

Lemma appendUint16_appends (v : Z) (r : DMXRecorder) :
  (HEADER_SIZE <= length (disk (fs r)))%nat -> 0 <= v <= 65535 ->
  exists r', appendUint16 v r = Some r' /\ appends [Z.land v 255; Z.shiftr v 8] r r'.
Proof.
  intros Hd Hv. unfold appendUint16. rewrite (decide_True (P := 0 <= v <= 65535)) by exact Hv.
  eexists. split; [reflexivity|].
  assert (Hstep : forall r0, (HEADER_SIZE <= length (disk (fs r0)))%nat ->
            appends [Z.land v 255; Z.shiftr v 8] r0
                    (set_pending (pending r0 ++ [Z.land v 255; Z.shiftr v 8]) r0)).
  { intros r0 H0. destruct r0; cbn in *. unfold appends, stream, sameFrameState; cbn.
    split; [now rewrite app_assoc|]. split; [exact H0 | repeat split]. }
  case_decide.
  - pose proof (flushBuffer_appends r Hd) as Hf.
    apply (appends_trans [] _ r (flushBuffer r)); [exact Hf|].
    apply Hstep. apply Hf.
  - now apply Hstep.
Qed.

Lemma appendToBuffer_appends (data : list Z) (r : DMXRecorder) :
  (HEADER_SIZE <= length (disk (fs r)))%nat -> Z.of_nat (length data) < WRITE_BUFFER_SIZE ->
  appends data r (appendToBuffer data r).
Proof.
  intros Hd Hlen. unfold appendToBuffer.
  assert (Hstep : forall r0, (HEADER_SIZE <= length (disk (fs r0)))%nat ->
            appends data r0
              (if decide (WRITE_BUFFER_SIZE <= Z.of_nat (length data))
               then if fileHandle r0
                    then set_bytesWritten (bytesWritten r0 + Z.of_nat (length data))
                           (set_fs (fs r0 ++ [FsWrite data]) r0)
                    else r0
               else set_pending (pending r0 ++ data) r0)).
  { intros r0 H0. rewrite decide_False by lia.
    destruct r0; cbn in *. unfold appends, stream, sameFrameState; cbn.
    split; [now rewrite app_assoc|]. split; [exact H0 | repeat split]. }
  destruct (decide (WRITE_BUFFER_SIZE <= Z.of_nat (length (pending r)) + Z.of_nat (length data))).
  - pose proof (flushBuffer_appends r Hd) as Hf.
    apply (appends_trans [] data r (flushBuffer r)); [exact Hf|].
    apply Hstep. apply Hf.
  - now apply Hstep.
Qed.

(** *** Frames *)

Lemma writeSnapshotFrame_appends (channels : list Z) (dt : Z) (r : DMXRecorder) :
  (HEADER_SIZE <= length (disk (fs r)))%nat ->
  appends (frameBytes {| deltaTime := dt; changes := []; isSnapshot := true;
                         snapshotData := Some (take TOTAL_CHANNELS channels) |})
          r (writeSnapshotFrame channels dt r).
Proof.
  intros Hd. unfold writeSnapshotFrame, frameBytes. cbn [isSnapshot snapshotData deltaTime].
  rewrite take_take, Nat.min_id.
  pose proof (VarintFacts.encodeLoop_length 5 dt) as Hvl.
  fold (Varint.encodeVarint dt) in Hvl.
  pose proof (appendToBuffer_appends (Varint.encodeVarint dt) r Hd
                ltac:(unfold WRITE_BUFFER_SIZE; lia)) as H1.
  pose proof (appendByte_appends FrameType.SNAPSHOT _ (proj1 (proj2 H1))) as H2.
  pose proof (appendToBuffer_appends (take TOTAL_CHANNELS channels) _ (proj1 (proj2 H2))
                ltac:(rewrite length_take; unfold WRITE_BUFFER_SIZE, TOTAL_CHANNELS; lia)) as H3.
  pose proof (appends_trans _ _ _ _ _ (appends_trans _ _ _ _ _ H1 H2) H3) as H.
  rewrite <- app_assoc in H. exact H.
Qed.

Lemma appendChanges_appends (changes : list ChannelChange) (r : DMXRecorder) :
  (HEADER_SIZE <= length (disk (fs r)))%nat ->
  Forall (fun c => 0 <= channel c <= 65535) changes ->
  exists r', appendChanges changes r = Some r'
             /\ appends (concat (changeBytes <$> changes)) r r'.
Proof.
  revert r. induction changes as [|c changes IH]; intros r Hd Hall.
  - exists r. split; [reflexivity | now apply appends_refl].
  - apply Forall_cons in Hall as [Hc Hall]. cbn [appendChanges].
    destruct (appendUint16_appends (channel c) r Hd Hc) as (r1 & -> & H1). cbn [mbind option_bind].
    pose proof (appendByte_appends (value c) r1 (proj1 (proj2 H1))) as H2.
    destruct (IH _ (proj1 (proj2 H2)) Hall) as (r' & Hr' & H3).
    exists r'. split; [exact Hr'|].
    pose proof (appends_trans _ _ _ _ _ (appends_trans _ _ _ _ _ H1 H2) H3) as H.
    cbn [fmap list_fmap concat changeBytes]. exact H.
Qed.

Lemma writeDeltaFrame_appends (chs : list ChannelChange) (dt : Z) (r : DMXRecorder) :
  (HEADER_SIZE <= length (disk (fs r)))%nat ->
  Forall (fun c => 0 <= channel c <= 65535) chs ->
  Z.of_nat (length chs) <= 65535 ->
  exists r', writeDeltaFrame chs dt r = Some r'
             /\ appends (frameBytes {| deltaTime := dt; changes := chs;
                                       isSnapshot := false; snapshotData := None |}) r r'.
Proof.
  intros Hd Hall Hlen. unfold writeDeltaFrame, frameBytes.
  cbn [isSnapshot snapshotData deltaTime changes].
  pose proof (VarintFacts.encodeLoop_length 5 dt) as Hvl.
  fold (Varint.encodeVarint dt) in Hvl.
  pose proof (appendToBuffer_appends (Varint.encodeVarint dt) r Hd
                ltac:(unfold WRITE_BUFFER_SIZE; lia)) as H1.
  set (r1 := appendToBuffer (Varint.encodeVarint dt) r) in *.
  assert (Hcount : exists r2,
            (if decide (Z.of_nat (length chs) < FrameType.SNAPSHOT)
             then Some (appendByte (Z.of_nat (length chs)) r1)
             else appendUint16 (Z.of_nat (length chs)) (appendByte FrameType.EXTENDED r1))
            = Some r2 /\ appends (countBytes (length chs)) r1 r2).
  { unfold countBytes. case_decide.
    - eexists. split; [reflexivity|]. apply appendByte_appends, H1.
    - pose proof (appendByte_appends FrameType.EXTENDED r1 (proj1 (proj2 H1))) as Ha.
      destruct (appendUint16_appends (Z.of_nat (length chs)) _ (proj1 (proj2 Ha))
                  ltac:(lia)) as (r2 & Hr2 & Hb).
      exists r2. split; [exact Hr2|].
      exact (appends_trans _ _ _ _ _ Ha Hb). }
  destruct Hcount as (r2 & -> & H2). cbn [mbind option_bind].
  destruct (appendChanges_appends chs r2 (proj1 (proj2 H2)) Hall) as (r' & Hr' & H3).
  exists r'. split; [exact Hr'|].
  pose proof (appends_trans _ _ _ _ _ (appends_trans _ _ _ _ _ H1 H2) H3) as H.
  rewrite <- app_assoc in H. exact H.
Qed.

(** *** The change list *)

Lemma computeChanges_spec (channels previous : list Z) (c : ChannelChange) :
  c ∈ computeChanges channels previous ->
  exists i : nat, (i < TOTAL_CHANNELS)%nat /\ channel c = Z.of_nat i
                  /\ value c = default 0 (channels !! i)
                  /\ default 0 (channels !! i) <> default 0 (previous !! i).
Proof.
  unfold computeChanges. intros Hc. apply list_elem_of_omap in Hc as (i & Hi & Hsome).
  case_decide as Hne; [|discriminate]. simplify_eq.
  exists i. apply elem_of_seq in Hi. cbn. split_and!; [lia | reflexivity | reflexivity | exact Hne].
Qed.

Lemma omap_length_le {A B} (f : A -> option B) (l : list A) :
  (length (omap f l) <= length l)%nat.
Proof.
  induction l as [|x l IH]; [reflexivity|]. cbn. destruct (f x); cbn; lia.
Qed.

Lemma computeChanges_length (channels previous : list Z) :
  (length (computeChanges channels previous) <= TOTAL_CHANNELS)%nat.
Proof.
  unfold computeChanges. etransitivity; [apply omap_length_le|]. now rewrite length_seq.
Qed.

Lemma computeChanges_channels (channels previous : list Z) :
  Forall (fun c => 0 <= channel c <= 65535) (computeChanges channels previous).
Proof.
  apply Forall_forall. intros c Hc.
  destruct (computeChanges_spec _ _ _ Hc) as (i & Hi & -> & _).
  unfold TOTAL_CHANNELS in Hi. lia.
Qed.

(** No change is found exactly when the two arrays agree on the 512
    channels. *)
Lemma computeChanges_nil (channels previous : list Z) :
  computeChanges channels previous = [] <->
  forall i : nat, (i < TOTAL_CHANNELS)%nat ->
                  default 0 (channels !! i) = default 0 (previous !! i).
Proof.
  split.
  - intros Hnil i Hi.
    destruct (decide (default 0 (channels !! i) = default 0 (previous !! i))) as [|Hne];
      [assumption|].
    exfalso.
    assert (Hin : {| channel := Z.of_nat i; value := default 0 (channels !! i) |}
                  ∈ computeChanges channels previous).
    { unfold computeChanges. apply list_elem_of_omap.
      exists i. split; [apply elem_of_seq; lia|].
      cbn. now rewrite decide_True. }
    rewrite Hnil in Hin. inversion Hin.
  - intros Hall. apply elem_of_nil_inv. intros c Hc.
    destruct (computeChanges_spec _ _ _ Hc) as (i & Hi & _ & _ & Hne).
    apply Hne, Hall, Hi.
Qed.

(** *** [recordFrame] *)

#[local] Arguments Varint.encodeVarint : simpl never.
#[local] Arguments stream : simpl never.
#[local] Arguments disk : simpl never.
#[local] Arguments frameBytes : simpl never.
#[local] Arguments computeChanges : simpl never.

Lemma stream_eq (r : DMXRecorder) :
  stream r = drop HEADER_SIZE (disk (fs r)) ++ pending r.
Proof. reflexivity. Qed.


Lemma arraySet_full (source target : list Z) :
  length source = length target -> arraySet source target = Some source.
Proof.
  intros Hlen. unfold arraySet. rewrite decide_True by lia.
  rewrite drop_ge by lia. now rewrite app_nil_r.
Qed.

(** A frame that is written: the stream grows by its bytes and the cache,
    the clock of the last frame and the frame count move on. *)
Lemma recordFrame_written (channels : list Z) (now : Z) (r : DMXRecorder) (f : RecordingFrame) :
  recordingOk r -> length channels = TOTAL_CHANNELS ->
  frameFor channels now r = Some f ->
  exists r',
    recordFrame channels now r = Some r'
    /\ stream r' = stream r ++ frameBytes f
    /\ recordingOk r'
    /\ previousChannels r' = channels
    /\ lastFrameTime r' = now
    /\ frameCount r' = frameCount r + 1
    /\ lastSnapshotTime r' = (if isSnapshot f then now else lastSnapshotTime r)
    /\ startTime r' = startTime r /\ universe r' = universe r
    /\ protocol r' = protocol r /\ fileHandle r' = fileHandle r.
Proof.
  intros (Hst & Hd & Hprev) Hch Hf. unfold recordFrame, frameFor in *.
  rewrite Hst. cbn [negb].
  destruct (bool_decide (frameCount r = 0) || bool_decide (now - lastSnapshotTime r >= SNAPSHOT_INTERVAL)).
  - injection Hf as <-.
    pose proof (writeSnapshotFrame_appends channels
                  (if bool_decide (frameCount r = 0) then 0 else now - lastFrameTime r) r Hd)
      as (Hs & Hd' & Hsame).
    destruct (writeSnapshotFrame channels _ r) as [st fp fh pe pc stt lft lst fc bw pr un fs'].
    unfold sameFrameState in Hsame. rewrite !stream_eq in Hs.
    cbn in Hsame, Hs, Hd'. destruct_and!. subst. cbn.
    rewrite arraySet_full by congruence. cbn.
    eexists. split; [reflexivity|]. rewrite !stream_eq. unfold recordingOk. cbn.
    split_and!; try reflexivity; try assumption.
  - case_decide as Hlen; [|discriminate]. injection Hf as <-.
    destruct (writeDeltaFrame_appends (computeChanges channels (previousChannels r))
                (if bool_decide (frameCount r = 0) then 0 else now - lastFrameTime r) r Hd
                (computeChanges_channels _ _)
                ltac:(pose proof (computeChanges_length channels (previousChannels r));
                      unfold TOTAL_CHANNELS in *; lia))
      as (r1 & -> & Hs & Hd' & Hsame).
    cbn [mbind option_bind].
    destruct r1 as [st fp fh pe pc stt lft lst fc bw pr un fs'].
    unfold sameFrameState in Hsame. rewrite !stream_eq in Hs.
    cbn in Hsame, Hs, Hd'. destruct_and!. subst. cbn.
    rewrite arraySet_full by congruence. cbn.
    eexists. split; [reflexivity|]. rewrite !stream_eq. unfold recordingOk. cbn.
    split_and!; try reflexivity; try assumption.
Qed.

(** An unchanged frame below the snapshot threshold: nothing moves. *)
Lemma recordFrame_skipped (channels : list Z) (now : Z) (r : DMXRecorder) :
  frameFor channels now r = None -> recordFrame channels now r = Some r.
Proof.
  unfold recordFrame, frameFor. intros Hf.
  destruct (negb (isRecordingState (state r))); [reflexivity|].
  destruct (bool_decide (frameCount r = 0) || bool_decide (now - lastSnapshotTime r >= SNAPSHOT_INTERVAL));
    [discriminate|].
  case_decide; [discriminate | reflexivity].
Qed.

(** [frameFor] with its branches laid out. *)
Lemma frameFor_unfold (channels : list Z) (now : Z) (r : DMXRecorder) :
  frameFor channels now r
  = if bool_decide (frameCount r = 0) || bool_decide (now - lastSnapshotTime r >= SNAPSHOT_INTERVAL)
    then Some {| deltaTime := if bool_decide (frameCount r = 0) then 0 else now - lastFrameTime r;
                 changes := []; isSnapshot := true;
                 snapshotData := Some (take TOTAL_CHANNELS channels) |}
    else match computeChanges channels (previousChannels r) with
         | [] => None
         | c :: cs =>
             Some {| deltaTime := if bool_decide (frameCount r = 0) then 0 else now - lastFrameTime r;
                     changes := c :: cs; isSnapshot := false; snapshotData := None |}
         end.
Proof.
  unfold frameFor.
  destruct (bool_decide (frameCount r = 0) || bool_decide (now - lastSnapshotTime r >= SNAPSHOT_INTERVAL));
    [reflexivity|].
  generalize (computeChanges channels (previousChannels r)). intros [|c cs]; reflexivity.
Qed.

(** When [frameFor] is [None]: not the first frame, below the threshold,
    and no channel differs from the cache. *)
Lemma frameFor_None (channels : list Z) (now : Z) (r : DMXRecorder) :
  frameFor channels now r = None <->
  frameCount r <> 0 /\ now - lastSnapshotTime r < SNAPSHOT_INTERVAL
  /\ computeChanges channels (previousChannels r) = [].
Proof.
  rewrite frameFor_unfold. split.
  - intros Hf. destruct (computeChanges channels (previousChannels r)) as [|c cs].
    + destruct (decide (frameCount r = 0)) as [H0|H0].
      { rewrite (bool_decide_eq_true_2 _ H0) in Hf. discriminate Hf. }
      destruct (decide (now - lastSnapshotTime r >= SNAPSHOT_INTERVAL)) as [H1|H1].
      { rewrite (bool_decide_eq_true_2 _ H1), orb_true_r in Hf. discriminate Hf. }
      split_and!; [assumption | lia | reflexivity].
    + destruct (_ || _); discriminate Hf.
  - intros (Hfc & Hlt & ->).
    rewrite (bool_decide_eq_false_2 (frameCount r = 0)) by exact Hfc.
    rewrite bool_decide_eq_false_2 by lia. reflexivity.
Qed.

(** Two 512-channel arrays with no change between them are equal. *)
Lemma computeChanges_nil_eq (channels previous : list Z) :
  length channels = TOTAL_CHANNELS -> length previous = TOTAL_CHANNELS ->
  computeChanges channels previous = [] -> channels = previous.
Proof.
  intros Hc Hp Hnil. apply list_eq_same_length with TOTAL_CHANNELS; [assumption..|].
  intros i x y Hi Hx Hy.
  pose proof (proj1 (computeChanges_nil channels previous) Hnil i Hi) as H.
  rewrite Hx, Hy in H. exact H.
Qed.

Lemma computeChanges_same (channels : list Z) : computeChanges channels channels = [].
Proof. apply computeChanges_nil. reflexivity. Qed.

End RecorderFacts.

(** ** Art-Net receiver: the listener as a whole, the universe table and
    node discovery *)

Module ArtNetExtra.
Import ArtNet ArtNetFacts.




Lemma extractChannels_length (msg : list Z) (dataLength : Z) :
  length (extractChannels msg dataLength) = TOTAL_CHANNELS.
Proof.
  unfold extractChannels.
  generalize (seq 0 (Z.to_nat (Z.min dataLength (Z.of_nat TOTAL_CHANNELS)))).
  assert (Hz : length (replicate TOTAL_CHANNELS 0) = TOTAL_CHANNELS) by apply length_replicate.
  revert Hz. generalize (replicate TOTAL_CHANNELS 0).
  intros zs Hz idx. revert zs Hz.
  induction idx as [|i idx IH]; intros zs Hz; [exact Hz|].
  cbn [foldl]. apply IH. destruct (msg !! (18 + i)%nat); [|exact Hz].
  now rewrite length_insert.
Qed.

(** X2. Every packet the receiver emits is accounted for in the universe
    table: when [handleMessage] emits a DMX packet, the packet's universe
    passes the validity guard, its channel array has 512 entries and its
    time stamp is the clock reading; the table entry of that universe has
    the clock reading as last-seen time, the sender's address as source and
    a packet count of 1 for a universe not seen before, one more than
    before otherwise; no other entry of the table and no node entry
    changes; and [universeDiscovered] is emitted for that universe exactly
    when it was not in the table. *)
Theorem X2_packet_counted (msg : list Z) (rinfo : RemoteInfo) (now : Z)
    (h h' : ArtNetHandler) (out : list Output) (p : DMXPacket) :
  handleMessage msg rinfo now h = Some (h', out) ->
  p ∈ packets out ->
  packets out = [p]
  /\ isValidUniverse (universe p) = true
  /\ length (channels p) = TOTAL_CHANNELS
  /\ timestamp p = now
  /\ source p = Some (address rinfo)
  /\ (exists info,
        discoveredUniverses h' !! universe p = Some info
        /\ ui_lastSeen info = now
        /\ ui_source info = Some (address rinfo)
        /\ ui_packetCount info
           = match discoveredUniverses h !! universe p with
             | Some old => ui_packetCount old + 1
             | None => 1
             end)
  /\ (forall u, u <> universe p -> discoveredUniverses h' !! u = discoveredUniverses h !! u)
  /\ discoveredNodes h' = discoveredNodes h
  /\ (Emit (universeDiscovered (universe p)) ∈ out
      <-> discoveredUniverses h !! universe p = None).
Proof.
  unfold handleMessage. intros H Hp.
  case_decide; [injection H as <- <-; inversion Hp|].
  destruct (negb (validateHeader msg)); [injection H as <- <-; inversion Hp|].
  destruct (Buf.readUInt16LE msg 8) as [op|]; [|discriminate H]. cbn [mbind option_bind] in H.
  case_decide.
  2:{ case_decide; [|injection H as <- <-; inversion Hp].
      injection H as H. pose proof (parseArtPollReply_no_packet msg rinfo now h) as (Hn & _).
      rewrite H in Hn. cbn [snd] in Hn. rewrite Hn in Hp. inversion Hp. }
  unfold parseDMXPacket in H.
  destruct (Buf.readUInt16BE msg 10) as [v|]; [|discriminate H]. cbn [mbind option_bind] in H.
  case_decide; [injection H as <- <-; inversion Hp|].
  destruct (Buf.readUInt16LE msg 14) as [u|]; [|discriminate H]. cbn [mbind option_bind] in H.
  destruct (isValidUniverse u) eqn:Hvalid; cbn [negb] in H; [|injection H as <- <-; inversion Hp].
  destruct (Buf.readUInt16BE msg 16) as [l|]; [|discriminate H]. cbn [mbind option_bind] in H.
  case_decide; [injection H as <- <-; inversion Hp|].
  case_decide; [injection H as <- <-; inversion Hp|].
  destruct (discoveredUniverses h !! u) as [old|] eqn:Hold; injection H as <- <-;
    cbn [app packets omap] in Hp; apply list_elem_of_singleton in Hp; subst p;
    cbn [universe channels timestamp source discoveredUniverses discoveredNodes app packets omap].
  - rewrite Hold. split_and!; try reflexivity; try exact Hvalid.
    + apply extractChannels_length.
    + eexists. rewrite lookup_insert_eq. split_and!; reflexivity.
    + intros u' Hu'. now rewrite lookup_insert_ne.
    + split; [|discriminate]. intros Hin.
      repeat (apply elem_of_cons in Hin as [Hin|Hin]; [discriminate Hin|]).
      inversion Hin.
  - rewrite Hold. split_and!; try reflexivity; try exact Hvalid.
    + apply extractChannels_length.
    + eexists. rewrite lookup_insert_eq. split_and!; reflexivity.
    + intros u' Hu'. now rewrite lookup_insert_ne.
    + split; [reflexivity|]. intros _. apply list_elem_of_further, list_elem_of_here.
Qed.

(** The theorem at a three-channel datagram for universe 1 received by a
    fresh handler. *)
Lemma X2_packet_counted_witness :
  exists h' out p,
    handleMessage Examples.dmx_first Examples.sender 0 initial = Some (h', out)
    /\ packets out = [p]
    /\ (exists info, discoveredUniverses h' !! universe p = Some info
                     /\ ui_packetCount info = 1)
    /\ (Emit (universeDiscovered (universe p)) ∈ out).
Proof.
  destruct (handleMessage Examples.dmx_first Examples.sender 0 initial) as [[h' out]|] eqn:H;
    [|vm_compute in H; discriminate H].
  assert (Hex : exists p, p ∈ packets out).
  { vm_compute in H. injection H as <- <-. eexists. apply list_elem_of_here. }
  destruct Hex as [p Hp].
  destruct (X2_packet_counted _ _ _ _ _ _ p H Hp)
    as (H1 & _ & _ & _ & _ & (info & Hi & _ & _ & Hc) & _ & _ & Hd).
  exists h', out, p. split; [reflexivity|]. split; [exact H1|].
  assert (Hnone : discoveredUniverses initial !! universe p = None) by apply lookup_empty.
  split.
  - exists info. split; [exact Hi|]. rewrite Hc, Hnone. reflexivity.
  - apply Hd, Hnone.
Defined.

(** The [SwOut] loop over any list of port numbers. *)
Lemma addSwOut_fold_elem (msg : list Z) (ports : list nat) (us : list Z) (u : Z) :
  u ∈ foldl (fun (us : list Z) (i : nat) =>
               match msg !! (190 + i)%nat with
               | Some swOutValue =>
                   if decide (swOutValue <> 0xff /\ swOutValue ∉ us) then us ++ [swOutValue] else us
               | None => us
               end) us ports
  <-> u ∈ us \/ (u <> 0xff /\ exists i, i ∈ ports /\ msg !! (190 + i)%nat = Some u).
Proof.
  revert us. induction ports as [|i ports IH]; intros us.
  - cbn [foldl]. split; [now left|]. intros [H|(_ & i & Hi & _)]; [exact H|inversion Hi].
  - cbn [foldl]. rewrite IH. split.
    + intros [H|(Hne & j & Hj & Hm)].
      * destruct (msg !! (190 + i)%nat) as [s|] eqn:Hs; [|now left].
        case_decide as Hd; [|now left].
        apply elem_of_app in H as [H|H]; [now left|].
        apply list_elem_of_singleton in H. subst s. right. split; [apply Hd|].
        exists i. split; [apply list_elem_of_here | exact Hs].
      * right. split; [exact Hne|]. exists j. split; [now apply list_elem_of_further | exact Hm].
    + intros [H|(Hne & j & Hj & Hm)].
      * left. destruct (msg !! (190 + i)%nat) as [s|]; [|exact H].
        case_decide; [|exact H]. apply elem_of_app. now left.
      * apply elem_of_cons in Hj as [->|Hj].
        -- left. rewrite Hm. case_decide as Hd.
           ++ apply elem_of_app. right. apply list_elem_of_here.
           ++ destruct (decide (u ∈ us)) as [|Hnin]; [assumption|].
              exfalso. apply Hd. split; assumption.
        -- right. split; [exact Hne|]. exists j. split; assumption.
Qed.

Lemma addSwOut_fold_NoDup (msg : list Z) (ports : list nat) (us : list Z) :
  NoDup us ->
  NoDup (foldl (fun (us : list Z) (i : nat) =>
                  match msg !! (190 + i)%nat with
                  | Some swOutValue =>
                      if decide (swOutValue <> 0xff /\ swOutValue ∉ us) then us ++ [swOutValue] else us
                  | None => us
                  end) us ports).
Proof.
  revert us. induction ports as [|i ports IH]; intros us Hnd; [exact Hnd|].
  cbn [foldl]. apply IH. destruct (msg !! (190 + i)%nat) as [s|]; [|exact Hnd].
  case_decide as Hd; [|exact Hnd].
  apply NoDup_app. split; [exact Hnd|]. split; [|apply NoDup_singleton].
  intros x Hx Hx'. apply list_elem_of_singleton in Hx'. subst x. now apply Hd.
Qed.

Lemma nodes_get_set (k : string) (v : ArtNetNode) (m : list (string * ArtNetNode)) :
  nodes_get k (nodes_set k v m) = Some v.
Proof.
  induction m as [|[k' v'] m IH]; cbn [nodes_set nodes_get].
  - now rewrite decide_True.
  - destruct (decide (k = k')) as [->|Hne]; cbn [nodes_get].
    + now rewrite decide_True.
    + now rewrite decide_False.
Qed.

Lemma nodes_get_set_ne (k k' : string) (v : ArtNetNode) (m : list (string * ArtNetNode)) :
  k' <> k -> nodes_get k' (nodes_set k v m) = nodes_get k' m.
Proof.
  intros Hne. induction m as [|[k0 v0] m IH]; cbn [nodes_set nodes_get].
  - now rewrite decide_False.
  - destruct (decide (k = k0)) as [->|Hk]; cbn [nodes_get].
    + now rewrite !decide_False.
    + destruct (decide (k' = k0)); [reflexivity | exact IH].
Qed.

(** X3. Node discovery from an ArtPollReply of at least 207 bytes: the
    sender's entry in the node table is created or refreshed with the clock
    reading, every other entry is left as it was and nothing else of the
    handler changes; the entry's universe list is sorted in ascending
    order and holds exactly the universes known before together with the
    four [SwOut] bytes (offsets 190..193) that are not [0xFF]; it has no
    duplicates when the list known before had none; and [nodeDiscovered]
    is emitted, with the stored entry, exactly when the sender was not in
    the table. *)
Theorem X3_poll_reply_node (msg : list Z) (rinfo : RemoteInfo) (now : Z)
    (h : ArtNetHandler) :
  (ARTNET_POLL_REPLY_MIN_LENGTH <= length msg)%nat ->
  exists node,
    let r := parseArtPollReply msg rinfo now h in
    nodes_get (address rinfo) (discoveredNodes r.1) = Some node
    /\ lastSeen node = now
    /\ Sorted Z.le (universes node)
    /\ (forall u, u ∈ universes node
                  <-> u ∈ knownUniverses (address rinfo) h
                      \/ (u <> 0xff /\ exists i, (i < 4)%nat /\ msg !! (190 + i)%nat = Some u))
    /\ (NoDup (knownUniverses (address rinfo) h) -> NoDup (universes node))
    /\ (forall a, a <> address rinfo ->
                  nodes_get a (discoveredNodes r.1) = nodes_get a (discoveredNodes h))
    /\ discoveredUniverses r.1 = discoveredUniverses h
    /\ socket r.1 = socket h
    /\ r.2 = match nodes_get (address rinfo) (discoveredNodes h) with
             | None => [Log (DiscoveredNode (address rinfo)); Emit (nodeDiscovered node)]
             | Some _ => []
             end.
Proof.
  intros Hlen. unfold parseArtPollReply, knownUniverses.
  rewrite decide_False by lia.
  unfold ARTNET_POLL_REPLY_MIN_LENGTH in Hlen.
  destruct (lookup_lt_is_Some_2 msg 25 ltac:(lia)) as [hi Hhi].
  destruct (lookup_lt_is_Some_2 msg 24 ltac:(lia)) as [lo Hlo].
  unfold Buf.readUInt8. rewrite Hhi, Hlo. cbn [mbind option_bind].
  set (old := match nodes_get (address rinfo) (discoveredNodes h) with
              | Some node => universes node | None => [] end).
  assert (Hold : forall n0 : ArtNetNode,
             universes match nodes_get (address rinfo) (discoveredNodes h) with
                       | None => {| ip := address rinfo; shortName := shortName n0;
                                    longName := longName n0; universes := [];
                                    macAddress := macAddress n0; manufacturer := manufacturer n0;
                                    firmwareVersion := firmwareVersion n0; lastSeen := now |}
                       | Some node => {| ip := ip node; shortName := shortName n0;
                                         longName := longName n0; universes := universes node;
                                         macAddress := macAddress n0; manufacturer := manufacturer n0;
                                         firmwareVersion := firmwareVersion n0; lastSeen := now |}
                       end = old).
  { intros n0. unfold old. destruct (nodes_get _ _); reflexivity. }
  eexists. cbv zeta. cbn [fst snd discoveredNodes discoveredUniverses socket].
  split; [apply nodes_get_set|]. cbn [lastSeen universes].
  split; [reflexivity|].
  assert (Hu : universes match nodes_get (address rinfo) (discoveredNodes h) with
                         | Some node =>
                             {| ip := ip node; shortName := cstring (subarray msg 26 44);
                                longName := cstring (subarray msg 44 108);
                                universes := universes node; macAddress := subarray msg 201 207;
                                manufacturer := Z.lor (Z.shiftl hi 8) lo;
                                firmwareVersion := (msg !! 16%nat, msg !! 17%nat);
                                lastSeen := now |}
                         | None =>
                             {| ip := address rinfo; shortName := cstring (subarray msg 26 44);
                                longName := cstring (subarray msg 44 108);
                                universes := []; macAddress := subarray msg 201 207;
                                manufacturer := Z.lor (Z.shiftl hi 8) lo;
                                firmwareVersion := (msg !! 16%nat, msg !! 17%nat);
                                lastSeen := now |}
                         end = old).
  { unfold old. destruct (nodes_get _ _); reflexivity. }
  rewrite Hu. clear Hu Hold.
  split; [apply (Sorted_merge_sort Z.le)|].
  split.
  { intros u. rewrite merge_sort_Permutation. unfold addSwOut.
    rewrite addSwOut_fold_elem. apply or_iff_compat_l, and_iff_compat_l.
    split; intros (i & Hi & Hm); exists i; (split; [|exact Hm]).
    - apply elem_of_seq in Hi. lia.
    - apply elem_of_seq. lia. }
  split.
  { intros Hnd. rewrite merge_sort_Permutation. now apply addSwOut_fold_NoDup. }
  split; [intros a Ha; now apply nodes_get_set_ne|].
  split; [reflexivity|]. split; [reflexivity|].
  destruct (nodes_get (address rinfo) (discoveredNodes h)); reflexivity.
Qed.

(** The theorem at a 207-byte reply whose [SwOut] bytes are 3, 255, 1, 3:
    the new node outputs universes 1 and 3. *)
Lemma X3_poll_reply_node_witness :
  exists node,
    nodes_get "10.0.0.7" (discoveredNodes
                            (parseArtPollReply Examples.pollReply Examples.sender 5 initial).1)
    = Some node
    /\ forall u, u ∈ universes node
                 <-> u ∈ knownUniverses "10.0.0.7" initial
                     \/ (u <> 0xff /\ exists i, (i < 4)%nat
                                              /\ Examples.pollReply !! (190 + i)%nat = Some u).
Proof.
  destruct (X3_poll_reply_node Examples.pollReply Examples.sender 5 initial)
    as (node & Hget & _ & _ & Hu & _).
  - vm_compute. lia.
  - exists node. split; [exact Hget | exact Hu].
Defined.

End ArtNetExtra.

(** ** Art-Net transmitter: sequence numbers, over-long and too short
    frames *)

Module TransmitterExtra.

Local Abbreviation packet_universe := universe (only parsing).
Local Abbreviation packet_channels := channels (only parsing).

Import Transmitter TransmitterFacts.

Lemma land_255_mod (v : Z) : Z.land v 0xff = v mod 256.
Proof. change 0xff with (Z.ones 8). now rewrite Z.land_ones by lia. Qed.

Lemma send_running (t : ArtNetTransmitter) (D : list Z) :
  isRunning t = true -> 0 <= sequence t <= 255 -> 0 <= universe t <= 65535 ->
  send D t
  = Some ({| universe := universe t; sequence := (sequence t + 1) mod 256; isRunning := true |},
          Some (ARTNET_HEADER ++
                [0; 80; 0; 14; sequence t; 0;
                 Z.land (universe t) 255; Z.shiftr (universe t) 8;
                 Z.shiftr (Z.of_nat (Nat.min (length D) TOTAL_CHANNELS)) 8;
                 Z.land (Z.of_nat (Nat.min (length D) TOTAL_CHANNELS)) 255]
                ++ take (Nat.min (length D) TOTAL_CHANNELS) D)).
Proof.
  intros Hrun Hseq Hu. unfold send. rewrite Hrun. cbn [negb].
  pose proof (buildPacket_spec t D Hseq Hu) as Hb. cbv zeta in Hb. rewrite Hb.
  cbn [mbind option_bind]. now rewrite land_255_mod.
Qed.

(** X4. Sequence numbers of a running transmitter: a run of [send] calls
    puts one datagram per frame on the wire and never throws, whatever the
    frames are; the [i]-th datagram carries at offset 12 the sequence
    number the transmitter started with plus [i], modulo 256, so the
    counter wraps from 255 to 0 and also takes the value 0; afterwards the
    counter has advanced by the number of frames, modulo 256, and the
    transmitter is still running on the same universe. *)
Theorem X4_sequence_wraps (frames : list (list Z)) (t : ArtNetTransmitter) :
  isRunning t = true -> 0 <= sequence t <= 255 -> 0 <= universe t <= 65535 ->
  exists t' ps,
    sendAll frames t = Some (t', ps)
    /\ length ps = length frames
    /\ (forall (i : nat) p, ps !! i = Some p ->
          p !! 12%nat = Some ((sequence t + Z.of_nat i) mod 256))
    /\ sequence t' = (sequence t + Z.of_nat (length frames)) mod 256
    /\ universe t' = universe t
    /\ isRunning t' = true.
Proof.
  revert t. induction frames as [|D frames IH]; intros t Hrun Hseq Hu.
  - exists t, []. cbn [sendAll length]. split_and!; try reflexivity; try assumption.
    + intros i p Hp. inversion Hp.
    + rewrite Z.add_0_r, Z.mod_small by lia. reflexivity.
  - cbn [sendAll]. rewrite send_running by assumption. cbn [mbind option_bind].
    destruct (IH {| universe := universe t; sequence := (sequence t + 1) mod 256;
                    isRunning := true |})
      as (t' & ps & -> & Hlen & Hps & Hs' & Hu' & Hr'); cbn [isRunning sequence universe].
    + reflexivity.
    + pose proof (Z.mod_pos_bound (sequence t + 1) 256). lia.
    + exact Hu.
    + cbn [mbind option_bind] in *. cbn [sequence universe] in Hps, Hs', Hu'.
      eexists _, _. split; [reflexivity|]. split_and!.
      * cbn [length]. now rewrite Hlen.
      * intros [|i] p Hp.
        -- injection Hp as <-. cbn. rewrite Z.add_0_r, Z.mod_small by lia. reflexivity.
        -- cbn [lookup list_lookup] in Hp. rewrite (Hps i p Hp).
           f_equal. rewrite Zplus_mod_idemp_l. f_equal. lia.
      * rewrite Hs'. rewrite Zplus_mod_idemp_l. f_equal. cbn [length]. lia.
      * exact Hu'.
      * exact Hr'.
Qed.

(** The theorem at a transmitter whose counter stands at 255: the second
    of two datagrams carries sequence number 0. *)
Lemma X4_sequence_wraps_witness :
  exists t' ps,
    sendAll [[1; 2]; [3; 4]] (mkArtNetTransmitter 7 255 true) = Some (t', ps)
    /\ (forall p, ps !! 1%nat = Some p -> p !! 12%nat = Some 0)
    /\ sequence t' = 1.
Proof.
  destruct (X4_sequence_wraps [[1; 2]; [3; 4]] (mkArtNetTransmitter 7 255 true))
    as (t' & ps & H & _ & Hp & Hs & _).
  - reflexivity.
  - simpl. lia.
  - simpl. lia.
  - exists t', ps. split; [exact H|]. split; [|exact Hs].
    intros p Hps. exact (Hp 1%nat p Hps).
Defined.

(** X5. A frame longer than 512 channels is cut at 512: [send] transmits
    a datagram of 530 bytes whose length field is 512, and a receiver
    decodes it to the frame's first 512 channels; what follows channel 512
    is never put on the wire. *)
Theorem X5_long_frame_truncated (t : ArtNetTransmitter) (D : list Z)
    (rinfo : ArtNet.RemoteInfo) (now : Z) (h : ArtNet.ArtNetHandler) :
  isRunning t = true -> 0 <= sequence t <= 255 -> 0 <= universe t <= 63999 ->
  (512 < length D)%nat ->
  exists t' p h' out pk,
    send D t = Some (t', Some p)
    /\ length p = 530%nat
    /\ Buf.readUInt16BE p 16 = Some 512
    /\ ArtNet.handleMessage p rinfo now h = Some (h', out)
    /\ ArtNet.packets out = [pk]
    /\ packet_universe pk = universe t
    /\ packet_channels pk = take 512 D.
Proof.
  intros Hrun Hseq Hu Hlen.
  pose proof (send_running t D Hrun Hseq ltac:(lia)) as Hs.
  replace (Nat.min (length D) TOTAL_CHANNELS) with 512%nat in Hs
    by (unfold TOTAL_CHANNELS; lia).
  set (p := ARTNET_HEADER ++ _) in Hs.
  assert (Hp : length p = 530%nat).
  { unfold p. rewrite !length_app, length_take. cbn [length ARTNET_HEADER]. lia. }
  destruct (ArtNetFacts.handleMessage_valid_dmx p rinfo now h (universe t) 512 14)
    as (h' & out & pk & Hh & Hpk & Hpu & Hpl & Htake & Hdrop).
  - reflexivity.
  - reflexivity.
  - reflexivity.
  - lia.
  - unfold p, Buf.readUInt16LE. cbn. now rewrite lor_lo_hi.
  - lia.
  - reflexivity.
  - lia.
  - rewrite Hp. lia.
  - eexists _, p, h', out, pk. split; [exact Hs|]. split; [exact Hp|].
    split; [reflexivity|]. split; [exact Hh|]. split; [exact Hpk|]. split; [exact Hpu|].
    change (Z.to_nat 512) with 512%nat in Htake.
    rewrite take_ge in Htake by lia. rewrite Htake. unfold p. cbn.
    rewrite drop_0. apply take_take.
Qed.

(** The theorem at a frame of 600 channels, all at 9. *)
Lemma X5_long_frame_truncated_witness :
  exists t' p h' out pk,
    send (replicate 600 9) Examples.tx = Some (t', Some p)
    /\ length p = 530%nat
    /\ ArtNet.handleMessage p Examples.sender 0 ArtNet.initial = Some (h', out)
    /\ ArtNet.packets out = [pk]
    /\ packet_channels pk = take 512 (replicate 600 9).
Proof.
  destruct (X5_long_frame_truncated Examples.tx (replicate 600 9) Examples.sender 0
              ArtNet.initial)
    as (t' & p & h' & out & pk & H1 & H2 & _ & H3 & H4 & _ & H5).
  - reflexivity.
  - simpl. lia.
  - simpl. lia.
  - rewrite length_replicate. lia.
  - exists t', p, h', out, pk. split_and!; assumption.
Defined.

(** X6. A frame of fewer than two channels is transmitted but not
    received: [send] puts an Art-Net DMX datagram of 18 or 19 bytes on
    the wire and advances the sequence counter, and the receiver drops
    that datagram for its data length, emitting no packet and leaving its
    tables unchanged. *)
Theorem X6_short_frame_dropped (t : ArtNetTransmitter) (D : list Z)
    (rinfo : ArtNet.RemoteInfo) (now : Z) (h : ArtNet.ArtNetHandler) :
  isRunning t = true -> 0 <= sequence t <= 255 -> 0 <= universe t <= 63999 ->
  (length D < 2)%nat ->
  exists t' p,
    send D t = Some (t', Some p)
    /\ length p = (18 + length D)%nat
    /\ sequence t' = (sequence t + 1) mod 256
    /\ ArtNet.handleMessage p rinfo now h
       = Some (h, [ArtNet.Log (ArtNet.InvalidDataLength (Z.of_nat (length D)))]).
Proof.
  intros Hrun Hseq Hu Hlen.
  pose proof (send_running t D Hrun Hseq ltac:(lia)) as Hs.
  replace (Nat.min (length D) TOTAL_CHANNELS) with (length D) in Hs
    by (unfold TOTAL_CHANNELS; lia).
  rewrite firstn_all in Hs.
  eexists _, _. split; [exact Hs|]. cbn [sequence].
  split; [rewrite !length_app; cbn [length ARTNET_HEADER]; lia|].
  split; [reflexivity|].
  assert (HU : Z.lor (Z.land (universe t) 255) (Z.shiftl (Z.shiftr (universe t) 8) 8)
               = universe t) by apply lor_lo_hi.
  assert (Hvalid : isValidUniverse (universe t) = true).
  { unfold isValidUniverse. rewrite !bool_decide_eq_true_2 by lia. reflexivity. }
  destruct D as [|d [|d' D]]; [| |cbn [length] in Hlen; lia].
  - unfold ArtNet.handleMessage, ArtNet.parseDMXPacket, Buf.readUInt16LE, Buf.readUInt16BE.
    cbn. rewrite HU, Hvalid. cbn. reflexivity.
  - unfold ArtNet.handleMessage, ArtNet.parseDMXPacket, Buf.readUInt16LE, Buf.readUInt16BE.
    cbn. rewrite HU, Hvalid. cbn. reflexivity.
Qed.

(** The theorem at a one-channel frame. *)
Lemma X6_short_frame_dropped_witness :
  exists t' p,
    send [200] Examples.tx = Some (t', Some p)
    /\ ArtNet.handleMessage p Examples.sender 0 ArtNet.initial
       = Some (ArtNet.initial, [ArtNet.Log (ArtNet.InvalidDataLength 1)]).
Proof.
  destruct (X6_short_frame_dropped Examples.tx [200] Examples.sender 0 ArtNet.initial)
    as (t' & p & H1 & _ & _ & H2).
  - reflexivity.
  - simpl. lia.
  - simpl. lia.
  - simpl. lia.
  - exists t', p. split; [exact H1 | exact H2].
Defined.

End TransmitterExtra.

(** ** sACN: the cleanup sweep, the source list, repeat packets and
    source keys *)

Module SACNExtra.
Import SACN SACNFacts.

(** *** The cleanup sweep *)

Lemma staleSources_eq (now : Z) (m : SourceMap) :
  staleSources now m = filter (fun e => now - si_lastSeen e.2 > SOURCE_TIMEOUT_MS) m.
Proof.
  unfold staleSources. apply list_filter_iff. intros e. unfold isStale.
  apply bool_decide_eq_true.
Qed.

Lemma freshSources_eq (now : Z) (m : SourceMap) :
  freshSources now m = filter (fun e => now - si_lastSeen e.2 <= SOURCE_TIMEOUT_MS) m.
Proof.
  unfold freshSources. apply list_filter_iff. intros e. unfold isStale.
  rewrite bool_decide_eq_false. lia.
Qed.

Lemma freshSources_all (now : Z) (m : SourceMap) :
  staleSources now m = [] -> freshSources now m = m.
Proof.
  unfold staleSources, freshSources. induction m as [|e m IH]; [reflexivity|].
  destruct (isStale now e) eqn:He.
  - rewrite filter_cons_True by exact He. discriminate.
  - rewrite filter_cons_False by (rewrite He; discriminate).
    rewrite (filter_cons_True (fun e0 => isStale now e0 = false)) by exact He.
    intros H. now rewrite IH.
Qed.

Lemma setActive_entryData (a : option string) (m : SourceMap) :
  entryData <$> setActive a m = entryData <$> m.
Proof.
  unfold setActive. rewrite <- list_fmap_compose. apply list_fmap_ext.
  intros i [k v] _. reflexivity.
Qed.

Section Sweep.

Context {Payload : Type} (toChannels : Payload -> list Z).

(** X7. The cleanup sweep at clock reading [now] removes exactly the
    sources last seen more than 5000 ms ago: the table afterwards holds,
    in the same order and with the same name, address, priority and
    last-seen time, the sources seen within the last 5000 ms; when no
    source has timed out the handler is left untouched and nothing is
    logged or emitted; when some have, one time-out note per removed
    source is logged, in table order, followed by exactly one
    [sourcesChanged] event carrying the sorted list of the remaining
    sources; the universe table is never touched. *)
Theorem X7_cleanup_removes_stale (now : Z) (h : SACNHandler) :
  let r := cleanupStaleSources now h in
  entryData <$> sources r.1
  = entryData <$> filter (fun e => now - si_lastSeen e.2 <= SOURCE_TIMEOUT_MS) (sources h)
  /\ discoveredUniverses r.1 = discoveredUniverses h
  /\ ((forall e, e ∈ sources h -> now - si_lastSeen e.2 <= SOURCE_TIMEOUT_MS) ->
      r = (h, []))
  /\ ((exists e, e ∈ sources h /\ now - si_lastSeen e.2 > SOURCE_TIMEOUT_MS) ->
      r.2 = ((fun e : string * SACNSourceInfo => Log (SourceTimedOut e.1))
               <$> filter (fun e => now - si_lastSeen e.2 > SOURCE_TIMEOUT_MS) (sources h))
            ++ [Emit (sourcesChanged (getSources (sources r.1)))]
      /\ (sources r.1 = [] -> activeSource r.1 = None)).
Proof.
  cbv zeta. unfold cleanupStaleSources.
  rewrite <- freshSources_eq, <- staleSources_eq.
  destruct (staleSources now (sources h)) as [|s ss] eqn:Hs.
  - rewrite bool_decide_eq_true_2 by reflexivity. cbn [negb fst snd].
    rewrite freshSources_all by exact Hs.
    split; [reflexivity|]. split; [reflexivity|]. split; [reflexivity|].
    intros (e & He & Hstale). exfalso.
    assert (Hin : e ∈ staleSources now (sources h)).
    { rewrite staleSources_eq. apply list_elem_of_filter. split; assumption. }
    rewrite Hs in Hin. inversion Hin.
  - rewrite bool_decide_eq_false_2 by discriminate. cbn [negb].
    assert (Hex : exists e, e ∈ sources h /\ now - si_lastSeen e.2 > SOURCE_TIMEOUT_MS).
    { exists s. assert (Hin : s ∈ staleSources now (sources h))
        by (rewrite Hs; apply list_elem_of_here).
      rewrite staleSources_eq in Hin. apply list_elem_of_filter in Hin as [? ?].
      split; assumption. }
    case_decide as Hkept.
    + destruct (findHighest (freshSources now (sources h))) as [hp hs]. cbn [fst snd sources].
      cbn [discoveredUniverses activeSource].
      split; [apply setActive_entryData|]. split; [reflexivity|]. split.
      * intros Hall. destruct Hex as (e & He & Hst). specialize (Hall e He). lia.
      * intros _. split; [reflexivity|].
        intros Hnil. apply (f_equal length) in Hnil.
        rewrite setActive_length in Hnil. cbn [length] in Hnil. lia.
    + cbn [fst snd sources discoveredUniverses activeSource].
      split; [reflexivity|]. split; [reflexivity|]. split.
      * intros Hall. destruct Hex as (e & He & Hst). specialize (Hall e He). lia.
      * intros _. split; reflexivity.
Qed.

(** *** The sorted source list *)

Lemma insertByPriority_Permutation (x : SACNSourceInfo) (l : list SACNSourceInfo) :
  insertByPriority x l ≡ₚ x :: l.
Proof.
  induction l as [|y l IH]; [reflexivity|]. cbn [insertByPriority].
  case_decide; [|reflexivity]. rewrite IH. apply Permutation_swap.
Qed.

Lemma insertByPriority_sorted (x : SACNSourceInfo) (l : list SACNSourceInfo) :
  StronglySorted (fun a b => si_priority b <= si_priority a) l ->
  StronglySorted (fun a b => si_priority b <= si_priority a) (insertByPriority x l).
Proof.
  induction 1 as [|y l Hl IH Hy]; cbn [insertByPriority].
  - repeat constructor.
  - case_decide as Hc.
    + constructor; [exact IH|]. rewrite insertByPriority_Permutation.
      constructor; [lia | exact Hy].
    + constructor; [constructor; assumption|].
      constructor; [lia|]. eapply Forall_impl; [exact Hy|]. cbn. intros z Hz. lia.
Qed.

Lemma foldl_insert_spec (l acc : list SACNSourceInfo) :
  StronglySorted (fun a b => si_priority b <= si_priority a) acc ->
  StronglySorted (fun a b => si_priority b <= si_priority a)
                 (foldl (fun acc x => insertByPriority x acc) acc l)
  /\ foldl (fun acc x => insertByPriority x acc) acc l ≡ₚ acc ++ l.
Proof.
  revert acc. induction l as [|x l IH]; intros acc Hacc; cbn [foldl].
  - split; [exact Hacc|]. now rewrite app_nil_r.
  - destruct (IH (insertByPriority x acc) (insertByPriority_sorted x acc Hacc)) as [Hs Hp].
    split; [exact Hs|]. rewrite Hp, insertByPriority_Permutation.
    cbn [app]. apply Permutation_middle.
Qed.

(** X8. The source list handed to [sourcesChanged] listeners and returned
    by [getSources]: it holds every tracked source exactly once (it is a
    permutation of the table's values) and is in descending order of
    priority, every source having a priority at least that of each source
    listed after it. *)
Theorem X8_getSources_sorted (m : SourceMap) :
  getSources m ≡ₚ m.*2
  /\ StronglySorted (fun a b => si_priority b <= si_priority a) (getSources m)
  /\ length (getSources m) = length m.
Proof.
  unfold getSources.
  destruct (foldl_insert_spec (m.*2) [] ltac:(constructor)) as [Hs Hp].
  cbn [app] in Hp. split; [exact Hp|]. split; [exact Hs|].
  rewrite Hp. apply length_fmap.
Qed.

(** *** A repeat packet from the active source *)

Lemma findHighest_raise (m : SourceMap) (k : string) (old info : SACNSourceInfo) :
  NoDup m.*1 -> (findHighest m).2 = Some k -> map_get k m = Some old ->
  si_priority old <= si_priority info ->
  (findHighest (map_set k info m)).2 = Some k.
Proof.
  intros Hnd Hact Hget Hpri.
  destruct (findHighest_cases m) as [[Hnone _]|(n & e & Hn & Hfh & H0 & Hmax & Hfirst)];
    [congruence|].
  rewrite Hfh in Hact. cbn [snd] in Hact. injection Hact as Hk.
  destruct e as [k' v]. cbn [fst snd] in *. subst k'.
  assert (Hold : old = v).
  { clear -Hnd Hn Hget. revert n Hn Hget Hnd.
    induction m as [|[k0 v0] m IH]; intros n Hn Hget Hnd; [discriminate Hn|].
    cbn [map_get] in Hget. destruct n as [|n].
    - injection Hn as -> ->. rewrite decide_True in Hget by reflexivity. congruence.
    - cbn [lookup list_lookup] in Hn. apply NoDup_cons in Hnd as [Hnin Hnd].
      case_decide as Hd.
      + exfalso. subst k0. apply Hnin. apply list_elem_of_fmap. exists (k, v).
        split; [reflexivity|]. eapply list_elem_of_lookup_2, Hn.
      + eapply IH; eassumption. }
  subst v.
  assert (Hnin : k ∉ (take n m).*1).
  { intros Hin. apply list_elem_of_fmap in Hin as ([k1 v1] & Hk1 & Hin).
    cbn [fst] in Hk1. subst k1.
    apply list_elem_of_lookup_1 in Hin as (j & Hj).
    assert (Hjn : (j < n)%nat).
    { apply lookup_lt_Some in Hj. rewrite length_take in Hj. lia. }
    rewrite lookup_take_lt in Hj by exact Hjn.
    pose proof (NoDup_keys_lookup m j n _ _ Hnd Hj Hn eq_refl). lia. }
  rewrite (map_set_existing k info old m n Hn Hnin).
  rewrite (findHighest_first_max (<[n := (k, info)]> m) n (k, info)); [reflexivity|..].
  - apply list_lookup_insert_eq. eapply lookup_lt_Some, Hn.
  - cbn [snd]. lia.
  - intros e' He'. cbn [snd]. apply list_elem_of_lookup_1 in He' as (j & Hj).
    destruct (decide (j = n)) as [->|Hne].
    + rewrite list_lookup_insert_eq in Hj by (eapply lookup_lt_Some, Hn).
      injection Hj as <-. cbn [snd]. lia.
    + rewrite list_lookup_insert_ne in Hj by congruence.
      pose proof (Hmax e' (list_elem_of_lookup_2 _ _ _ Hj)). lia.
  - intros j e' Hjn Hj. cbn [snd].
    rewrite list_lookup_insert_ne in Hj by lia.
    pose proof (Hfirst j e' Hjn Hj). lia.
Qed.

(** X9. A repeat packet from the active source is forwarded quietly: when
    the handler's tables are consistent, the packet's universe is valid,
    its source is the active source and its priority is not below the one
    on record, then the source stays active, the packet's channel data is
    emitted as one DMX packet, no [sourcesChanged] event is emitted and no
    multiple-source note is logged. *)
Theorem X9_active_repeat_is_quiet (p : SACNPacket) (now : Z) (h : SACNHandler)
    (old : SACNSourceInfo) :
  consistent h ->
  isValidUniverse (universe p) = true ->
  activeSource h = Some (getSourceKey p) ->
  map_get (getSourceKey p) (sources h) = Some old ->
  si_priority old <= default 100 (priority p) ->
  let r := handlePacket toChannels p now h in
  activeSource r.1 = Some (getSourceKey p)
  /\ packets r.2 = [mkDMXPacket (universe p) (toChannels (payload p)) (sourceName p)
                                (priority p) (sequence p) now]
  /\ (forall srcs, Emit (sourcesChanged srcs) ∉ r.2)
  /\ (forall a pri, Log (MultipleSources a pri) ∉ r.2)
  /\ length (sources r.1) = length (sources h).
Proof.
  intros (Hnd & Hact & _) Hvalid Hactive Hget Hpri. cbv zeta.
  set (info := {| si_sourceName := default "Unknown"%string (sourceName p);
                  si_sourceAddress := sourceAddress p;
                  si_priority := default 100 (priority p);
                  si_lastSeen := now; isActive := false |}).
  assert (Hfh : (findHighest (map_set (getSourceKey p) info (sources h))).2
                = Some (getSourceKey p)).
  { eapply findHighest_raise; [exact Hnd | congruence | exact Hget | exact Hpri]. }
  assert (Hlen : length (map_set (getSourceKey p) info (sources h)) = length (sources h)).
  { clear -Hget. induction (sources h) as [|[k v] m IH]; [discriminate Hget|].
    cbn [map_get map_set] in *. case_decide; [reflexivity|].
    cbn [length]. f_equal. apply IH, Hget. }
  unfold handlePacket. rewrite Hvalid. cbn [negb].
  unfold updateSourceTracking. cbn [sources activeSource discoveredUniverses].
  fold info. rewrite Hget, Hactive.
  destruct (findHighest (map_set (getSourceKey p) info (sources h))) as [hp hs].
  cbn [snd] in Hfh. subst hs.
  rewrite (bool_decide_eq_false_2 (Some old = None)) by discriminate.
  rewrite !bool_decide_eq_true_2 by reflexivity. cbn [negb orb].
  destruct (discoveredUniverses h !! universe p) as [oldU|];
    cbn [fst snd app activeSource sources].
  - split; [reflexivity|].
    destruct (bool_decide _); cbn [app packets omap];
      (split; [reflexivity|]); rewrite setActive_length;
      (split_and!; [intros srcs Hin | intros a pri Hin | exact Hlen]);
      repeat (apply elem_of_cons in Hin as [Hin|Hin]; [discriminate Hin|]);
      inversion Hin.
  - rewrite bool_decide_eq_false_2 by discriminate. cbn [app packets omap].
    split; [reflexivity|]. split; [reflexivity|]. rewrite setActive_length.
    split_and!; [intros srcs Hin | intros a pri Hin | exact Hlen];
      repeat (apply elem_of_cons in Hin as [Hin|Hin]; [discriminate Hin|]);
      inversion Hin.
Qed.

(** *** Source keys *)

Lemma hexDigit_inj (a b : Z) :
  0 <= a < 16 -> 0 <= b < 16 -> hexDigit a = hexDigit b -> a = b.
Proof.
  intros Ha Hb.
  assert (Hca : a = 0 \/ a = 1 \/ a = 2 \/ a = 3 \/ a = 4 \/ a = 5 \/ a = 6 \/ a = 7 \/ a = 8
                \/ a = 9 \/ a = 10 \/ a = 11 \/ a = 12 \/ a = 13 \/ a = 14 \/ a = 15) by lia.
  assert (Hcb : b = 0 \/ b = 1 \/ b = 2 \/ b = 3 \/ b = 4 \/ b = 5 \/ b = 6 \/ b = 7 \/ b = 8
                \/ b = 9 \/ b = 10 \/ b = 11 \/ b = 12 \/ b = 13 \/ b = 14 \/ b = 15) by lia.
  clear Ha Hb.
  destruct_or!; subst a b; intros H;
    first [reflexivity | vm_compute in H; discriminate H].
Qed.

Lemma byte_nibbles (x y : Z) :
  0 <= x < 256 -> 0 <= y < 256 ->
  Z.shiftr x 4 = Z.shiftr y 4 -> Z.land x 15 = Z.land y 15 -> x = y.
Proof.
  intros Hx Hy. change 15 with (Z.ones 4).
  rewrite !Z.land_ones, !Z.shiftr_div_pow2 by lia. change (2 ^ 4) with 16.
  intros H1 H2. rewrite (Z.div_mod x 16), (Z.div_mod y 16) by lia. congruence.
Qed.

Lemma toHex_inj (c c' : list Z) :
  Buf.is_bytes c = true -> Buf.is_bytes c' = true -> toHex c = toHex c' -> c = c'.
Proof.
  revert c'. induction c as [|x c IH]; intros [|y c'] Hc Hc' H;
    [reflexivity | discriminate H | discriminate H |].
  cbn [Buf.is_bytes forallb] in Hc, Hc'.
  apply andb_true_iff in Hc as [Hx Hc]. apply andb_true_iff in Hc' as [Hy Hc'].
  apply andb_true_iff in Hx as [Hx0 Hx1]. apply andb_true_iff in Hy as [Hy0 Hy1].
  apply Z.leb_le in Hx0, Hy0. apply Z.ltb_lt in Hx1, Hy1.
  cbn [toHex] in H. injection H as Hhi Hlo Hrest.
  assert (Hnib : forall z, 0 <= z < 256 -> 0 <= Z.shiftr z 4 < 16 /\ 0 <= Z.land z 15 < 16).
  { intros z Hz. change 15 with (Z.ones 4).
    rewrite Z.land_ones, Z.shiftr_div_pow2 by lia. change (2 ^ 4) with 16.
    split; [|apply Z.mod_pos_bound; lia].
    split; [apply Z.div_pos; lia | apply Z.div_lt_upper_bound; lia]. }
  destruct (Hnib x ltac:(lia)) as [Hxh Hxl]. destruct (Hnib y ltac:(lia)) as [Hyh Hyl].
  f_equal.
  - apply byte_nibbles; [lia | lia | |].
    + apply hexDigit_inj; [exact Hxh | exact Hyh|]. congruence.
    + apply hexDigit_inj; [exact Hxl | exact Hyl|]. congruence.
  - apply IH; assumption.
Qed.

(** X10. Senders are told apart by their CID: for two packets that each
    carry a non-empty CID, the source keys are equal exactly when the CIDs
    are equal, whatever the packets' names and addresses; so two senders
    with the same name and address but different CIDs get separate
    entries in the source table, and a sender that changes its name keeps
    its entry. *)
Theorem X10_cid_decides_key (p q : @SACNPacket Payload) (c c' : list Z) :
  cid p = Some c -> cid q = Some c' -> c <> [] -> c' <> [] ->
  Buf.is_bytes c = true -> Buf.is_bytes c' = true ->
  (getSourceKey p = getSourceKey q <-> c = c').
Proof.
  intros Hp Hq Hc Hc' Hb Hb'. unfold getSourceKey. rewrite Hp, Hq.
  destruct c as [|x c]; [congruence|]. destruct c' as [|y c']; [congruence|].
  split; [intros H; apply toHex_inj; assumption | now intros ->].
Qed.

End Sweep.

(** The theorem at the handler that tracks B (priority 50) and the active
    A (priority 100), for a further packet of A. *)
Lemma X9_active_repeat_is_quiet_witness :
  let r := handlePacket Examples.noChannels (Examples.fromA 1) 20 Examples.afterBthenA in
  activeSource r.1 = Some "A"%string
  /\ forall srcs, Emit (sourcesChanged srcs) ∉ r.2.
Proof.
  destruct (X9_active_repeat_is_quiet Examples.noChannels (Examples.fromA 1) 20
              Examples.afterBthenA
              {| si_sourceName := "A"; si_sourceAddress := None; si_priority := 100;
                 si_lastSeen := 10; isActive := true |})
    as (H1 & _ & H2 & _).
  - apply (reachable_consistent Examples.noChannels).
    apply reach_packet, reach_packet, reach_initial.
  - reflexivity.
  - reflexivity.
  - reflexivity.
  - simpl. lia.
  - split; [exact H1 | exact H2].
Defined.

(** The theorem at two packets of the same name whose CIDs differ in the
    last byte. *)
Lemma X10_cid_decides_key_witness :
  getSourceKey (mkSACNPacket 1 tt (Some "desk"%string) None None None (Some [171; 1]))
  = getSourceKey (mkSACNPacket 1 tt (Some "desk"%string) None None None (Some [171; 2]))
  <-> [171; 1] = [171; 2].
Proof.
  apply (X10_cid_decides_key
           (mkSACNPacket 1 tt (Some "desk"%string) None None None (Some [171; 1]))
           (mkSACNPacket 1 tt (Some "desk"%string) None None None (Some [171; 2]))
           [171; 1] [171; 2]).
  - reflexivity.
  - reflexivity.
  - discriminate.
  - discriminate.
  - reflexivity.
  - reflexivity.
Defined.

End SACNExtra.

(** ** The recording codec: varints and the file header *)

Module CodecExtra.

Local Abbreviation header_frameCount := frameCount (only parsing).
Local Abbreviation header_startTime := startTime (only parsing).
Local Abbreviation header_protocol := protocol (only parsing).

Import Varint JSFacts VarintFacts Recorder RecorderFacts.

(** *** Varints *)

Lemma encodeLoop_length_bound (k n : nat) (w : Z) :
  0 <= w < 2 ^ (7 * (Z.of_nat k + 1)) -> (length (encodeLoop n w) <= k + 1)%nat.
Proof.
  revert n w. induction k as [|k IH]; intros n w Hw.
  - destruct n as [|n]; [cbn; lia|]. rewrite encodeLoop_S.
    change (2 ^ (7 * (Z.of_nat 0 + 1))) with 128 in Hw.
    rewrite decide_False by lia. cbn. lia.
  - destruct n as [|n]; [cbn; lia|]. rewrite encodeLoop_S.
    case_decide; [|cbn; lia]. cbn [length].
    specialize (IH n (JS.shru w 7)). rewrite shru_7 in *.
    assert (Hlt : (w mod 2 ^ 32) / 128 < 2 ^ (7 * (Z.of_nat k + 1))).
    { apply Z.div_lt_upper_bound; [lia|].
      replace (7 * (Z.of_nat (S k) + 1)) with (7 + 7 * (Z.of_nat k + 1)) in Hw by lia.
      rewrite Z.pow_add_r in Hw by lia. change (2 ^ 7) with 128 in Hw.
      pose proof (Z.mod_le w (2 ^ 32) ltac:(lia) ltac:(lia)). lia. }
    assert (Hge : 0 <= (w mod 2 ^ 32) / 128).
    { apply Z.div_pos; [|lia]. apply Z.mod_pos_bound. lia. }
    specialize (IH ltac:(lia)). lia.
Qed.

Lemma encodeVarint_length (v : Z) : (1 <= length (encodeVarint v) <= 5)%nat.
Proof.
  split; [apply (encodeLoop_length 5 v)|].
  unfold encodeVarint. rewrite encodeLoop_S. case_decide; [|cbn; lia]. cbn [length].
  pose proof (shru_7_range v) as Hr.
  pose proof (encodeLoop_length_bound 3 4 (JS.shru v 7)) as Hb.
  change (2 ^ (7 * (Z.of_nat 3 + 1))) with (2 ^ 28) in Hb.
  specialize (Hb ltac:(lia)). lia.
Qed.

(** X11. Varint round trip: a time delta from 0 up to 2^31 - 1 is
    encoded in one to five bytes, and decoding at the position where the
    encoding starts, whatever bytes come before and after it, returns the
    delta and the number of bytes of the encoding. *)
Theorem X11_varint_round_trip (v : Z) (pre rest : list Z) :
  0 <= v < 2 ^ 31 ->
  decodeVarint (pre ++ encodeVarint v ++ rest) (length pre) = (v, length (encodeVarint v))
  /\ (1 <= length (encodeVarint v) <= 5)%nat
  /\ (v <= 127 -> encodeVarint v = [v]).
Proof.
  intros Hv. split; [apply decodeVarint_encodeVarint, Hv|].
  split.
  - apply encodeVarint_length.
  - intros Hs. unfold encodeVarint. rewrite encodeLoop_S.
    rewrite decide_False by lia. rewrite and_0x7F. rewrite Z.mod_small by lia. reflexivity.
Qed.

(** The theorem at a delta of 300 ms between two frames. *)
Lemma X11_varint_round_trip_witness :
  decodeVarint ([1; 2] ++ encodeVarint 300 ++ [254]) 2 = (300, length (encodeVarint 300)).
Proof.
  apply (X11_varint_round_trip 300 [1; 2] [254]). lia.
Defined.

(** X12. Varint framing holds for every integer: whatever value is
    encoded, also a negative one or one of 2^31 and more that the decoder
    does not return, the encoding has one to five bytes, each in 0..255,
    and the decoder consumes exactly the bytes of the encoding, so the
    frame that follows is read from the right position. *)
Theorem X12_varint_framing (v : Z) (pre rest : list Z) :
  (decodeVarint (pre ++ encodeVarint v ++ rest) (length pre)).2 = length (encodeVarint v)
  /\ (1 <= length (encodeVarint v) <= 5)%nat
  /\ Forall (fun b => 0 <= b < 256) (encodeVarint v).
Proof.
  split; [apply decodeVarint_bytesRead|]. split.
  - apply encodeVarint_length.
  - apply encodeLoop_bytes.
Qed.

(** X13. A negative time delta loses its sign: the encoder's loop test
    [value > 0x7F] fails at once, a single byte [value & 0x7F] is written,
    and the decoder returns that byte, a value from 0 to 127.  So a frame
    recorded after the clock was set back is replayed with a wrong,
    non-negative delay. *)
Theorem X13_negative_delta (v : Z) (pre rest : list Z) :
  v < 0 ->
  encodeVarint v = [v mod 128]
  /\ decodeVarint (pre ++ encodeVarint v ++ rest) (length pre) = (v mod 128, 1%nat)
  /\ 0 <= v mod 128 < 128.
Proof.
  intros Hv. pose proof (Z.mod_pos_bound v 128 ltac:(lia)) as Hm.
  assert (He : encodeVarint v = [v mod 128]).
  { unfold encodeVarint. rewrite encodeLoop_S. rewrite decide_False by lia.
    now rewrite and_0x7F. }
  split; [exact He|]. split; [|exact Hm].
  assert (He' : encodeVarint (v mod 128) = [v mod 128]).
  { unfold encodeVarint. rewrite encodeLoop_S. rewrite decide_False by lia.
    rewrite and_0x7F. now rewrite Z.mod_mod by lia. }
  rewrite He, <- He'.
  rewrite decodeVarint_encodeVarint by lia. now rewrite He'.
Qed.

(** The theorem at a clock that went back by one millisecond: the delta
    -1 is stored and read back as 127. *)
Lemma X13_negative_delta_witness :
  encodeVarint (-1) = [127]
  /\ decodeVarint ([] ++ encodeVarint (-1) ++ []) 0 = (127, 1%nat).
Proof.
  destruct (X13_negative_delta (-1) [] []) as (H1 & H2 & _); [lia|].
  split; [exact H1 | exact H2].
Defined.

(** *** The file header *)

Lemma u32_bytes (v : Z) :
  0 <= v <= 4294967295 ->
  Z.land v 255 + Z.shiftl (Z.land (Z.shiftr v 8) 255) 8
  + Z.shiftl (Z.land (Z.shiftr v 16) 255) 16 + Z.shiftl (Z.land (Z.shiftr v 24) 255) 24 = v.
Proof.
  intros Hv. change 255 with (Z.ones 8).
  rewrite !Z.land_ones, !Z.shiftr_div_pow2, !Z.shiftl_mul_pow2 by lia.
  change (2 ^ 8) with 256. change (2 ^ 16) with 65536. change (2 ^ 24) with 16777216.
  Z.div_mod_to_equations. lia.
Qed.

(** The little-endian bytes of an integer add up to the integer modulo
    256^n. *)
Lemma bytes_sum (n : nat) (v : Z) :
  foldr (fun (i : nat) acc =>
           acc + Z.shiftl (Z.land (Z.shiftr v (8 * Z.of_nat i)) 255) (8 * Z.of_nat i))
        0 (seq 0 n)
  = v mod 2 ^ (8 * Z.of_nat n).
Proof.
  induction n as [|n IH].
  - cbn. now rewrite Z.mod_1_r.
  - rewrite seq_S, foldr_app. cbn [foldr Nat.add].
    assert (Hgen : forall (l : list nat) (a : Z),
               foldr (fun (i : nat) acc =>
                        acc + Z.shiftl (Z.land (Z.shiftr v (8 * Z.of_nat i)) 255)
                                       (8 * Z.of_nat i)) a l
               = a + foldr (fun (i : nat) acc =>
                              acc + Z.shiftl (Z.land (Z.shiftr v (8 * Z.of_nat i)) 255)
                                             (8 * Z.of_nat i)) 0 l).
    { induction l as [|i l IHl]; intros a; cbn [foldr]; [lia|]. rewrite IHl. lia. }
    rewrite Hgen, IH. change 255 with (Z.ones 8).
    rewrite Z.land_ones, Z.shiftr_div_pow2, Z.shiftl_mul_pow2 by lia.
    replace (8 * Z.of_nat (S n)) with (8 * Z.of_nat n + 8) by lia.
    rewrite Z.pow_add_r by lia.
    set (P := 2 ^ (8 * Z.of_nat n)). assert (HP : 0 < P) by (apply Z.pow_pos_nonneg; lia).
    change (2 ^ 8) with 256.
    rewrite Z.rem_mul_r by lia. lia.
Qed.

(** The 32 bytes of a header. *)
Lemma createHeader_bytes (d : Z) (r : DMXRecorder) :
  0 <= universe r <= 65535 -> - 2 ^ 63 <= startTime r < 2 ^ 63 ->
  0 <= d <= 4294967295 -> 0 <= frameCount r <= 4294967295 ->
  createHeader d r
  = Some ([68; 77; 88; 82; 1; 1; match protocol r with sacn => 0 | artnet => 1 end;
           Z.land (universe r) 255; Z.shiftr (universe r) 8]
          ++ ((fun i : nat => Z.land (Z.shiftr (startTime r) (8 * Z.of_nat i)) 255) <$> seq 0 8)
          ++ [Z.land d 255; Z.land (Z.shiftr d 8) 255; Z.land (Z.shiftr d 16) 255;
              Z.land (Z.shiftr d 24) 255;
              Z.land (frameCount r) 255; Z.land (Z.shiftr (frameCount r) 8) 255;
              Z.land (Z.shiftr (frameCount r) 16) 255; Z.land (Z.shiftr (frameCount r) 24) 255]
          ++ replicate 7 0).
Proof.
  intros Hu Hs Hd Hf. unfold createHeader.
  change (Buf.copy (Buf.of_string DMXREC_MAGIC) 0 (Buf.alloc HEADER_SIZE))
    with ([68; 77; 88; 82] ++ replicate 28 0).
  unfold Buf.writeUInt8, Buf.writeUInt16LE, Buf.writeBigInt64LE, Buf.writeUInt32LE.
  cbn [replicate app length foldl seq Nat.add].
  repeat (rewrite decide_True;
          [cbn [mbind option_bind insert list_insert length Nat.add]
          |split; [first [assumption
                         | unfold DMXREC_VERSION, RecordingFlags.HAS_SNAPSHOTS; lia
                         | destruct (protocol r); lia]
                  |rewrite ?length_insert; cbn [length]; lia]]).
  reflexivity.
Qed.

Lemma writes_None (d : Z) (r : DMXRecorder) :
  ~ (0 <= universe r <= 65535 /\ - 2 ^ 63 <= startTime r < 2 ^ 63
     /\ 0 <= d <= 4294967295 /\ 0 <= frameCount r <= 4294967295) ->
  createHeader d r = None.
Proof.
  intros Hn. unfold createHeader.
  change (Buf.copy (Buf.of_string DMXREC_MAGIC) 0 (Buf.alloc HEADER_SIZE))
    with ([68; 77; 88; 82] ++ replicate 28 0).
  unfold Buf.writeUInt8.
  rewrite decide_True by (cbn; unfold DMXREC_VERSION; lia). cbn [mbind option_bind].
  rewrite decide_True
    by (rewrite length_insert; cbn; unfold RecordingFlags.HAS_SNAPSHOTS; lia).
  cbn [mbind option_bind].
  rewrite decide_True by (rewrite !length_insert; cbn; destruct (protocol r); lia).
  cbn [mbind option_bind].
  unfold Buf.writeUInt16LE. case_decide as H1; [|reflexivity]. cbn [mbind option_bind].
  unfold Buf.writeBigInt64LE. case_decide as H2; [|reflexivity]. cbn [mbind option_bind].
  unfold Buf.writeUInt32LE. case_decide as H3; [|reflexivity]. cbn [mbind option_bind].
  case_decide as H4; [|reflexivity]. exfalso. apply Hn. tauto.
Qed.

Lemma createHeader_is_Some_iff (d : Z) (r : DMXRecorder) :
  is_Some (createHeader d r)
  <-> 0 <= universe r <= 65535 /\ - 2 ^ 63 <= startTime r < 2 ^ 63
      /\ 0 <= d <= 4294967295 /\ 0 <= frameCount r <= 4294967295.
Proof.
  split.
  - intros [h Hh].
    destruct (decide (0 <= universe r <= 65535 /\ - 2 ^ 63 <= startTime r < 2 ^ 63
                      /\ 0 <= d <= 4294967295 /\ 0 <= frameCount r <= 4294967295))
      as [Hr|Hr]; [exact Hr|].
    rewrite (writes_None d r Hr) in Hh. discriminate Hh.
  - intros (Hu & Hs & Hd & Hf). rewrite createHeader_bytes by assumption. eexists.
    reflexivity.
Qed.

(** X14. When the header can be written: [createHeader] returns normally
    exactly when the universe fits 16 bits, the start time fits a signed
    64-bit integer and the duration and the frame count fit 32 bits
    unsigned; otherwise one of its buffer writes throws.  A header that is
    returned has 32 bytes, each in 0..255.  In particular [createHeader]
    throws for a duration above 4294967295 ms and for a universe above
    65535. *)
Theorem X14_header_ranges (d : Z) (r : DMXRecorder) :
  (is_Some (createHeader d r)
   <-> 0 <= universe r <= 65535 /\ - 2 ^ 63 <= startTime r < 2 ^ 63
       /\ 0 <= d <= 4294967295 /\ 0 <= frameCount r <= 4294967295)
  /\ (forall h, createHeader d r = Some h ->
                length h = HEADER_SIZE /\ Buf.is_bytes h = true).
Proof.
  pose proof (createHeader_is_Some_iff d r) as Hiff.
  split; [exact Hiff|].
  intros h Hh. destruct (proj1 Hiff (ex_intro _ h Hh)) as (Hu & Hs & Hd & Hf).
  rewrite createHeader_bytes in Hh by assumption. injection Hh as <-.
  split; [reflexivity|].
  cbn [fmap list_fmap seq app replicate Buf.is_bytes forallb].
  pose proof (shiftr_8_range (universe r) Hu) as Hhi.
  repeat match goal with
         | |- context [Z.land ?x 255] =>
             let H := fresh "Hb" in
             pose proof (land_255_range x) as H;
             generalize dependent (Z.land x 255); intros
         end.
  generalize dependent (Z.shiftr (universe r) 8). intros.
  repeat (apply andb_true_intro; split);
    first [reflexivity
          | apply Z.leb_le; lia
          | apply Z.ltb_lt; lia
          | destruct (protocol r); reflexivity].
Qed.

(** A header that was written is read back field by field. *)
Lemma parseHeader_createHeader (d : Z) (r : DMXRecorder) (rest : list Z) :
  0 <= universe r <= 65535 -> - 2 ^ 63 <= startTime r < 2 ^ 63 ->
  0 <= d <= 4294967295 -> 0 <= frameCount r <= 4294967295 ->
  exists h,
    createHeader d r = Some h
    /\ Player.parseHeader (h ++ rest)
       = Some (mkRecordingHeader DMXREC_MAGIC DMXREC_VERSION RecordingFlags.HAS_SNAPSHOTS
                 (match protocol r with sacn => 0 | artnet => 1 end)
                 (universe r) (startTime r) d (frameCount r)).
Proof.
  intros Hu Hs Hd Hf. eexists. split; [apply createHeader_bytes; assumption|].
  unfold Player.parseHeader.
  rewrite decide_False
    by (rewrite !length_app, length_fmap, length_seq, length_replicate; cbn [length];
        unfold Player.HEADER_SIZE; lia).
  cbn [fmap list_fmap seq app replicate take].
  change (Player.asciiString [68; 77; 88; 82]) with DMXREC_MAGIC.
  rewrite bool_decide_eq_true_2 by reflexivity. cbn [negb].
  unfold Buf.readUInt8, Buf.readUInt16LE, Buf.readUInt32LE, Buf.readBigInt64LE.
  cbn [lookup list_lookup mbind option_bind Nat.add].
  rewrite decide_False by (unfold DMXREC_VERSION; lia).
  cbn [lookup list_lookup mbind option_bind Nat.add].
  rewrite (decide_True (P := (9 + 8 <= _)%nat)) by (cbn [length]; lia).
  cbn [lookup list_lookup mbind option_bind Nat.add].
  pose proof (bytes_sum 8 (startTime r)) as Hsum.
  cbn [seq foldr] in Hsum. cbn [seq foldr Nat.add lookup list_lookup default from_option id].
  rewrite Hsum. change (2 ^ (8 * Z.of_nat 8)) with (2 ^ 64).
  rewrite !u32_bytes by assumption. rewrite lor_lo_hi.
  f_equal. f_equal.
  case_decide as Hc.
  - destruct (decide (0 <= startTime r)); [apply Z.mod_small; lia|].
    exfalso. revert Hc. rewrite <- (Z.mod_add _ 1) by lia. rewrite Z.mod_small; lia.
  - destruct (decide (0 <= startTime r)) as [Hp|Hp].
    + exfalso. apply Hc. rewrite Z.mod_small; lia.
    + rewrite <- (Z.mod_add _ 1) by lia. rewrite Z.mod_small; lia.
Qed.




Lemma land_127_range (x : Z) : 0 <= Z.land x 127 < 128.
Proof. change 127 with (Z.ones 7). rewrite Z.land_ones by lia. apply Z.mod_pos_bound. lia. Qed.

Lemma ascii_of_land (x : Z) (c : Ascii.ascii) :
  Ascii.ascii_of_nat (Z.to_nat (Z.land x 127)) = c ->
  Z.land x 127 = Z.of_nat (Ascii.nat_of_ascii c).
Proof.
  intros <-. pose proof (land_127_range x).
  rewrite Ascii.nat_ascii_embedding by lia. lia.
Qed.

(** X16. Which files [parseHeader] accepts: exactly the buffers of at
    least 32 bytes whose first four bytes, with the high bit of each
    dropped as the ASCII decoding does, are [DMXR] and whose version byte
    is at most 1.  A shorter buffer, another magic string or a later
    version is refused with an exception; flags, protocol code, universe,
    times and frame count are taken as found. *)
Theorem X16_header_acceptance (buffer : list Z) :
  is_Some (Player.parseHeader buffer)
  <-> (32 <= length buffer)%nat
      /\ (fun b => Z.land b 127) <$> take 4 buffer = [68; 77; 88; 82]
      /\ (forall v, buffer !! 4%nat = Some v -> v <= 1).
Proof.
  destruct (decide (32 <= length buffer)%nat) as [Hlen|Hlen].
  2:{ unfold Player.parseHeader, Player.HEADER_SIZE. rewrite decide_True by lia.
      split; [intros [? H]; discriminate H | intros [? _]; lia]. }
  do 32 (destruct buffer as [|? buffer]; [cbn [length] in Hlen; lia|]).
  unfold Player.parseHeader, Player.HEADER_SIZE.
  rewrite decide_False by (cbn [length]; lia).
  cbn [take Player.asciiString fmap list_fmap].
  unfold Buf.readUInt8, Buf.readUInt16LE, Buf.readUInt32LE, Buf.readBigInt64LE.
  cbn [lookup list_lookup mbind option_bind Nat.add].
  split.
  - intros [hd H]. split; [exact Hlen|].
    case_bool_decide as Hm; cbn [negb] in H; [|discriminate H].
    cbn [mbind option_bind] in H. case_decide as Hv; [discriminate H|].
    unfold DMXREC_MAGIC in Hm. injection Hm as H0 H1 H2 H3.
    apply ascii_of_land in H0, H1, H2, H3. cbn in H0, H1, H2, H3.
    split; [now rewrite H0, H1, H2, H3|].
    intros v [= <-]. unfold DMXREC_VERSION in Hv. lia.
  - intros (_ & Hm & Hv). injection Hm as -> -> -> ->.
    rewrite bool_decide_eq_true_2 by reflexivity. cbn [negb mbind option_bind].
    rewrite decide_False by (specialize (Hv _ eq_refl); unfold DMXREC_VERSION; lia).
    cbn [lookup list_lookup mbind option_bind Nat.add].
    rewrite (decide_True (P := (9 + 8 <= _)%nat)) by (cbn [length]; lia).
    eexists. reflexivity.
Qed.

End CodecExtra.

(** ** The recorder: starting, writing frames, stopping *)

Module RecorderExtra.

Local Abbreviation header_frameCount := frameCount (only parsing).
Local Abbreviation header_startTime := startTime (only parsing).
Local Abbreviation header_protocol := protocol (only parsing).

Import Varint JSFacts VarintFacts Recorder RecorderFacts CodecExtra.

#[local] Arguments Varint.encodeVarint : simpl never.
#[local] Arguments stream : simpl never.
#[local] Arguments disk : simpl never.
#[local] Arguments frameBytes : simpl never.
#[local] Arguments computeChanges : simpl never.
#[local] Arguments createHeader : simpl never.
#[local] Arguments Player.parseHeader : simpl never.

Lemma createHeader_length (d : Z) (r : DMXRecorder) (h : list Z) :
  createHeader d r = Some h -> length h = HEADER_SIZE.
Proof.
  intros Hh.
  destruct (proj1 (createHeader_is_Some_iff d r) (ex_intro _ h Hh)) as (Hu & Hs & Hd & Hf).
  rewrite createHeader_bytes in Hh by assumption. injection Hh as <-. reflexivity.
Qed.

Lemma createHeader_ext (d : Z) (r r' : DMXRecorder) :
  protocol r = protocol r' -> universe r = universe r' -> startTime r = startTime r' ->
  frameCount r = frameCount r' -> createHeader d r = createHeader d r'.
Proof. unfold createHeader. now intros -> -> -> ->. Qed.



Lemma flushBuffer_pending (r : DMXRecorder) :
  fileHandle r = true -> pending (flushBuffer r) = [].
Proof.
  intros Hfh. unfold flushBuffer. rewrite Hfh, andb_true_r.
  case_bool_decide as Hp; [reflexivity|].
  destruct (pending r); [reflexivity | cbn [length] in Hp; lia].
Qed.

(** [stopRecording] on a running recording. *)
Lemma stopRecording_spec (now : Z) (r : DMXRecorder) :
  (isRecordingState (state r) = false -> stopRecording now r = None)
  /\ (recordingOk r -> fileHandle r = true ->
      0 <= universe r <= 65535 -> - 2 ^ 63 <= startTime r < 2 ^ 63 ->
      0 <= frameCount r <= 4294967295 -> 0 <= now - startTime r <= 4294967295 ->
      exists r',
        stopRecording now r = Some (r', now - startTime r)
        /\ state r' = idle /\ fileHandle r' = false /\ pending r' = []
        /\ frameCount r' = frameCount r
        /\ drop HEADER_SIZE (disk (fs r')) = stream r
        /\ Player.parseHeader (disk (fs r'))
           = Some (mkRecordingHeader DMXREC_MAGIC DMXREC_VERSION RecordingFlags.HAS_SNAPSHOTS
                     (match protocol r with sacn => 0 | artnet => 1 end)
                     (universe r) (startTime r) (now - startTime r) (frameCount r))).
Proof.
  unfold stopRecording. split; [intros ->; reflexivity|].
  intros (Hst & Hd & _) Hfh Hu Hs Hf Hdur. rewrite Hst. cbn [negb].
  destruct (flushBuffer_appends r Hd) as (Hstream & Hd0 & Hsame).
  pose proof (flushBuffer_pending r Hfh) as Hp0.
  set (r0 := flushBuffer r) in *.
  unfold sameFrameState in Hsame.
  destruct Hsame as (_ & _ & Hfh0 & _ & Hst0 & _ & _ & Hfc0 & Hpr0 & Hun0).
  rewrite Hst0, Hfh0, Hfh.
  destruct (parseHeader_createHeader (now - startTime r) r0
              (drop HEADER_SIZE (disk (fs r0))))
    as (h & Hh & Hparse); [congruence..|].
  rewrite Hh. cbn [mbind option_bind].
  pose proof (createHeader_length _ _ _ Hh) as Hlen.
  eexists. split; [reflexivity|].
  cbn [state fileHandle pending frameCount fs set_state set_fileHandle set_fs].
  rewrite take_ge by (rewrite Hlen; reflexivity).
  rewrite disk_rewrite_header by (rewrite Hlen; exact Hd0).
  rewrite Hlen.
  split_and!; try reflexivity.
  - exact Hp0.
  - exact Hfc0.
  - rewrite drop_app_length' by (symmetry; exact Hlen).
    rewrite app_nil_r in Hstream. rewrite <- Hstream.
    unfold stream. rewrite Hp0. now rewrite app_nil_r.
  - rewrite Hparse. rewrite Hpr0, Hun0, Hst0, Hfc0. reflexivity.
Qed.



(** *** Frames: what is written and what applying it gives *)

(** Storing the changes found between two arrays into the older one, up to
    channel [n]. *)
Lemma apply_changes_upto (new prev : list Z) (n : nat) :
  length new = length prev -> (n <= length prev)%nat ->
  foldl (fun (ch : list Z) (change : ChannelChange) =>
           <[Z.to_nat (channel change) := value change]> ch)
        prev
        (omap (fun i : nat =>
                 let newValue := default 0 (new !! i) in
                 let oldValue := default 0 (prev !! i) in
                 if decide (newValue <> oldValue)
                 then Some {| channel := Z.of_nat i; value := newValue |} else None)
              (seq 0 n))
  = take n new ++ drop n prev.
Proof.
  intros Hlen. induction n as [|n IH]; intros Hn; [reflexivity|].
  rewrite seq_S, omap_app, foldl_app, IH by lia. cbn [Nat.add omap list_omap].
  destruct (lookup_lt_is_Some_2 new n ltac:(lia)) as [x Hx].
  destruct (lookup_lt_is_Some_2 prev n ltac:(lia)) as [y Hy].
  rewrite Hx, Hy. cbn [default from_option id].
  rewrite (take_S_r new n x Hx), (drop_S prev y n Hy), <- app_assoc. cbn [app].
  case_decide as Hne; cbn [foldl channel value].
  - rewrite Nat2Z.id. rewrite insert_app_r_alt by (rewrite length_take; lia).
    rewrite length_take. replace (n - n `min` length new)%nat with 0%nat by lia.
    reflexivity.
  - destruct (decide (x = y)) as [->|]; [reflexivity | contradiction].
Qed.

Lemma apply_computeChanges (new prev : list Z) :
  length new = TOTAL_CHANNELS -> length prev = TOTAL_CHANNELS ->
  foldl (fun (ch : list Z) (change : ChannelChange) =>
           <[Z.to_nat (channel change) := value change]> ch)
        prev (computeChanges new prev)
  = new.
Proof.
  intros Hn Hp. unfold computeChanges.
  rewrite apply_changes_upto by lia.
  rewrite take_ge, drop_ge by lia. apply app_nil_r.
Qed.

(** Applying the frame written for [channels] to the recorder's cache
    gives [channels]. *)
Lemma applyChannels_frameFor (channels : list Z) (now : Z) (r : DMXRecorder)
    (f : RecordingFrame) :
  length channels = TOTAL_CHANNELS -> length (previousChannels r) = TOTAL_CHANNELS ->
  frameFor channels now r = Some f ->
  Player.applyChannels f (previousChannels r) = Some channels.
Proof.
  intros Hc Hp. rewrite frameFor_unfold.
  destruct (_ || _).
  - intros [= <-]. unfold Player.applyChannels. cbn [isSnapshot snapshotData].
    rewrite take_ge by lia. rewrite decide_True by lia.
    rewrite drop_ge by lia. now rewrite app_nil_r.
  - pose proof (apply_computeChanges channels (previousChannels r) Hc Hp) as Happ.
    destruct (computeChanges channels (previousChannels r)) as [|c cs]; [discriminate|].
    intros [= <-]. unfold Player.applyChannels. cbn [isSnapshot snapshotData changes].
    now rewrite Happ.
Qed.

Lemma default_last_cons {A} (a x : A) (l : list A) :
  default a (last (x :: l)) = default x (last l).
Proof. rewrite last_cons. destruct (last l); reflexivity. Qed.

(** A session of [recordFrame] calls. *)
Lemma recordFrames_spec (frames : list (Z * list Z)) (r : DMXRecorder) :
  recordingOk r -> fileHandle r = true ->
  Forall (fun f => length f.2 = TOTAL_CHANNELS) frames ->
  exists r',
    recordFrames frames r = Some r'
    /\ stream r' = stream r ++ concat ((fun w => frameBytes w.1) <$> writtenFrames frames r)
    /\ frameCount r' = frameCount r + Z.of_nat (length (writtenFrames frames r))
    /\ previousChannels r'
       = default (previousChannels r) (last (snd <$> writtenFrames frames r))
    /\ recordingOk r' /\ fileHandle r' = true
    /\ startTime r' = startTime r /\ universe r' = universe r /\ protocol r' = protocol r.
Proof.
  revert r. induction frames as [|[now channels] frames IH]; intros r Hok Hfh Hall.
  - exists r. cbn [recordFrames writtenFrames fmap list_fmap concat length last default
                   from_option].
    rewrite app_nil_r, Z.add_0_r. split_and!; try reflexivity; assumption.
  - apply Forall_cons in Hall as [Hc Hall]. cbn [snd] in Hc.
    cbn [recordFrames writtenFrames].
    destruct (frameFor channels now r) as [f|] eqn:Hf.
    + destruct (recordFrame_written channels now r f Hok Hc Hf)
        as (r1 & -> & Hs1 & Hok1 & Hp1 & _ & Hfc1 & _ & Hst1 & Hu1 & Hpr1 & Hfh1).
      cbn [mbind option_bind].
      destruct (IH r1 Hok1 ltac:(congruence) Hall)
        as (r' & -> & Hs & Hfc & Hp & Hok' & Hfh' & Hst & Hu & Hpr).
      exists r'. split; [reflexivity|].
      cbn [fmap list_fmap concat length fst snd].
      rewrite default_last_cons, <- Hp1.
      split_and!; try assumption; try congruence.
      * rewrite Hs, Hs1. now rewrite <- app_assoc.
      * rewrite Hfc, Hfc1. lia.
    + rewrite (recordFrame_skipped channels now r Hf). cbn [mbind option_bind].
      apply (IH r Hok Hfh Hall).
Qed.


(** Applying the written frames in order. *)
Lemma replay_written (frames : list (Z * list Z)) (r : DMXRecorder) :
  recordingOk r ->
  Forall (fun f => length f.2 = TOTAL_CHANNELS) frames ->
  Player.applyAll (fst <$> writtenFrames frames r) (previousChannels r)
  = snd <$> writtenFrames frames r.
Proof.
  revert r. induction frames as [|[now channels] frames IH]; intros r Hok Hall;
    [reflexivity|].
  apply Forall_cons in Hall as [Hc Hall]. cbn [snd] in Hc. cbn [writtenFrames].
  destruct (frameFor channels now r) as [f|] eqn:Hf.
  - destruct (recordFrame_written channels now r f Hok Hc Hf)
      as (r1 & -> & _ & Hok1 & Hp1 & _).
    cbn [fmap list_fmap fst snd Player.applyAll].
    rewrite (applyChannels_frameFor channels now r f Hc (proj2 (proj2 Hok)) Hf).
    f_equal. rewrite <- Hp1. apply IH; assumption.
  - rewrite (recordFrame_skipped channels now r Hf). apply IH; assumption.
Qed.

(** X20. Replay reproduces the recorded channel states: starting from
    the recorder's channel cache and applying, as the player does, the
    frames a session wrote, one after the other, gives after each frame
    exactly the 512-channel array that was handed to [recordFrame] when
    that frame was written.  Frames that were skipped as unchanged have no
    entry. *)
Theorem X20_replay_reproduces (frames : list (Z * list Z)) (r : DMXRecorder) :
  recordingOk r ->
  Forall (fun f => length f.2 = TOTAL_CHANNELS) frames ->
  Player.applyAll (fst <$> writtenFrames frames r) (previousChannels r)
  = snd <$> writtenFrames frames r.
Proof. exact (replay_written frames r). Qed.


Lemma X20_replay_reproduces_witness :
  Player.applyAll (fst <$> writtenFrames Examples.session Examples.recorderStarted)
                  (replicate 512 0)
  = [replicate 512 0; <[0%nat := 255]> (replicate 512 0)].
Proof.
  apply (X20_replay_reproduces Examples.session Examples.recorderStarted).
  - split; [reflexivity|]. split; [vm_compute; lia | reflexivity].
  - repeat constructor.
Defined.

(** *** Reading a frame back *)

Lemma lookup_app_plus (l1 l2 : list Z) (i : nat) :
  (l1 ++ l2) !! (length l1 + i)%nat = l2 !! i.
Proof. induction l1 as [|x l1 IH]; [reflexivity | exact IH]. Qed.

Lemma readUInt16LE_at (pre rest : list Z) (v : Z) (off : nat) :
  off = length pre ->
  Buf.readUInt16LE (pre ++ Z.land v 255 :: Z.shiftr v 8 :: rest) off = Some v.
Proof.
  intros ->. unfold Buf.readUInt16LE.
  replace (length pre) with (length pre + 0)%nat at 1 by lia.
  replace (S (length pre)) with (length pre + 1)%nat by lia.
  rewrite !lookup_app_plus. cbn [lookup list_lookup]. now rewrite lor_lo_hi.
Qed.

Lemma readChanges_spec (cs : list ChannelChange) (pre rest : list Z)
    (acc : list ChannelChange) (off : nat) :
  Forall (fun c => 0 <= channel c <= 65535 /\ 0 <= value c <= 255) cs ->
  off = length pre ->
  Player.readChanges (pre ++ concat (changeBytes <$> cs) ++ rest) (length cs) off acc
  = Some (acc ++ cs, (off + 3 * length cs)%nat).
Proof.
  revert pre acc off. induction cs as [|c cs IH]; intros pre acc off Hall ->.
  - cbn [length Player.readChanges]. rewrite app_nil_r. f_equal. f_equal. lia.
  - apply Forall_cons in Hall as [[Hch Hv] Hall].
    cbn [length Player.readChanges fmap list_fmap concat changeBytes app].
    rewrite readUInt16LE_at by reflexivity. cbn [mbind option_bind].
    replace (length pre + 2)%nat with (length pre + 2)%nat by reflexivity.
    rewrite lookup_app_plus. cbn [lookup list_lookup].
    rewrite (Z.mod_small (value c)) by lia.
    replace (pre ++ Z.land (channel c) 255 :: Z.shiftr (channel c) 8 :: value c
                 :: concat (changeBytes <$> cs) ++ rest)
      with ((pre ++ [Z.land (channel c) 255; Z.shiftr (channel c) 8; value c])
              ++ concat (changeBytes <$> cs) ++ rest)
      by (rewrite <- app_assoc; reflexivity).
    rewrite (IH (pre ++ [Z.land (channel c) 255; Z.shiftr (channel c) 8; value c])
                (acc ++ [{| channel := channel c; value := value c |}])
                (S (length pre + 2)) Hall)
      by (rewrite length_app; cbn [length]; lia).
    destruct c as [ch v]. cbn [channel value]. rewrite <- app_assoc. cbn [app].
    f_equal. f_equal. lia.
Qed.

Lemma length_concat_changes (cs : list ChannelChange) :
  length (concat (changeBytes <$> cs)) = (3 * length cs)%nat.
Proof.
  induction cs as [|c cs IH]; [reflexivity|].
  cbn [fmap list_fmap concat changeBytes app length]. rewrite IH. lia.
Qed.

(** Reading at the start of a written frame. *)
Lemma readNextFrame_frameBytes (f : RecordingFrame) (pre rest : list Z) (p : Player.DMXPlayer) :
  wellFormed f ->
  Player.frameData p = Some (pre ++ frameBytes f ++ rest) ->
  Player.frameOffset p = length pre ->
  Player.readNextFrame p
  = Some (Some f, Player.set_frameOffset (length pre + length (frameBytes f))%nat p).
Proof.
  intros [Hdt Hwf] Hdata Hoff. unfold Player.readNextFrame. rewrite Hdata, Hoff.
  pose proof (encodeVarint_length (deltaTime f)) as Hvl.
  assert (Hnonempty : (length pre < length (pre ++ frameBytes f ++ rest))%nat).
  { rewrite !length_app. unfold frameBytes. rewrite length_app. lia. }
  rewrite decide_False by lia.
  unfold frameBytes in *. rewrite <- !app_assoc.
  rewrite (decodeVarint_encodeVarint (deltaTime f) pre _ Hdt).
  set (enc := encodeVarint (deltaTime f)) in *.
  destruct f as [dt cs snap sd]. cbn [deltaTime changes isSnapshot snapshotData] in *.
  destruct snap, sd as [d|]; try contradiction.
  - destruct Hwf as [Hd ->]. rewrite take_ge by lia.
    rewrite (app_assoc pre enc). cbn [app].
    replace (length pre + length enc)%nat with (length (pre ++ enc) + 0)%nat
      by (rewrite length_app; lia).
    rewrite lookup_app_plus. cbn [lookup list_lookup].
    rewrite decide_True by reflexivity.
    replace (pre ++ enc) with (pre ++ enc) by reflexivity.
    replace ((pre ++ enc) ++ FrameType.SNAPSHOT :: d ++ rest)
      with (((pre ++ enc) ++ [FrameType.SNAPSHOT]) ++ d ++ rest)
      by (rewrite <- (app_assoc (pre ++ enc)); reflexivity).
    rewrite drop_app_length' by (rewrite !length_app; cbn [length]; lia).
    rewrite take_app_length' by lia.
    f_equal. f_equal. f_equal. rewrite !length_app. cbn [length]. lia.
  - destruct Hwf as [Hn Hall]. unfold countBytes.
    rewrite (app_assoc pre enc).
    case_decide as Hsmall.
    + rewrite Z.mod_small by (unfold FrameType.SNAPSHOT in Hsmall; lia).
      cbn [app].
      replace (length pre + length enc)%nat with (length (pre ++ enc) + 0)%nat
        by (rewrite length_app; lia).
      rewrite lookup_app_plus. cbn [lookup list_lookup].
      rewrite decide_False by lia.
      rewrite decide_False by (unfold FrameType.EXTENDED, FrameType.SNAPSHOT in *; lia).
      cbn [mbind option_bind]. rewrite Nat2Z.id.
      replace ((pre ++ enc) ++ Z.of_nat (length cs) :: concat (changeBytes <$> cs) ++ rest)
        with (((pre ++ enc) ++ [Z.of_nat (length cs)]) ++ concat (changeBytes <$> cs) ++ rest)
        by (rewrite <- (app_assoc (pre ++ enc)); reflexivity).
      rewrite (readChanges_spec cs _ rest [] _ Hall)
        by (rewrite !length_app; cbn [length]; lia).
      cbn [mbind option_bind app]. f_equal. f_equal. f_equal.
      rewrite !length_app. cbn [length]. rewrite ?length_app, length_concat_changes. lia.
    + cbn [app].
      replace (length pre + length enc)%nat with (length (pre ++ enc) + 0)%nat
        by (rewrite length_app; lia).
      rewrite lookup_app_plus. cbn [lookup list_lookup].
      rewrite decide_False by (unfold FrameType.EXTENDED, FrameType.SNAPSHOT; lia).
      rewrite decide_True by reflexivity.
      replace ((pre ++ enc) ++ FrameType.EXTENDED :: Z.land (Z.of_nat (length cs)) 255
                 :: Z.shiftr (Z.of_nat (length cs)) 8 :: concat (changeBytes <$> cs) ++ rest)
        with (((pre ++ enc) ++ [FrameType.EXTENDED]) ++ Z.land (Z.of_nat (length cs)) 255
                 :: Z.shiftr (Z.of_nat (length cs)) 8 :: concat (changeBytes <$> cs) ++ rest)
        by (rewrite <- (app_assoc (pre ++ enc)); reflexivity).
      rewrite readUInt16LE_at by (rewrite !length_app; cbn [length]; lia).
      cbn [mbind option_bind]. rewrite Nat2Z.id.
      replace (((pre ++ enc) ++ [FrameType.EXTENDED]) ++ Z.land (Z.of_nat (length cs)) 255
                 :: Z.shiftr (Z.of_nat (length cs)) 8 :: concat (changeBytes <$> cs) ++ rest)
        with ((((pre ++ enc) ++ [FrameType.EXTENDED])
                 ++ [Z.land (Z.of_nat (length cs)) 255; Z.shiftr (Z.of_nat (length cs)) 8])
                ++ concat (changeBytes <$> cs) ++ rest)
        by (rewrite <- (app_assoc ((pre ++ enc) ++ [FrameType.EXTENDED])); reflexivity).
      rewrite (readChanges_spec cs _ rest [] _ Hall)
        by (rewrite !length_app; cbn [length]; lia).
      cbn [mbind option_bind app]. f_equal. f_equal. f_equal.
      rewrite !length_app. cbn [length]. rewrite ?length_app, length_concat_changes. lia.
Qed.

(** X21. A frame is read back as it was written: in frame data that
    holds, from the player's offset on, the bytes the recorder writes for
    a frame in the format's ranges (delta time below 2^31; a snapshot of
    512 values; or at most 65535 changes with 16-bit channels and byte
    values), followed by anything, [readNextFrame] returns that very
    frame, with the same delta time and the same snapshot data or change
    list, and moves the offset to the first byte after the frame.  This
    covers the extended form used for 254 and more changes. *)
Theorem X21_frame_round_trip (f : RecordingFrame) (pre rest : list Z) (p : Player.DMXPlayer) :
  wellFormed f ->
  Player.frameData p = Some (pre ++ frameBytes f ++ rest) ->
  Player.frameOffset p = length pre ->
  Player.readNextFrame p
  = Some (Some f, Player.set_frameOffset (length pre + length (frameBytes f))%nat p).
Proof. apply readNextFrame_frameBytes. Qed.

(** The theorem at a delta frame of one change, 40 ms after the frame
    before, at the start of the frame data. *)
Lemma X21_frame_round_trip_witness :
  Player.readNextFrame
    (Player.set_frameData (Some ([] ++ frameBytes Examples.deltaFrame ++ [0; 254]))
                          Player.create)
  = Some (Some Examples.deltaFrame,
          Player.set_frameOffset
            (length (@nil Z) + length (frameBytes Examples.deltaFrame))%nat
            (Player.set_frameData (Some ([] ++ frameBytes Examples.deltaFrame ++ [0; 254]))
                                  Player.create)).
Proof.
  apply (X21_frame_round_trip Examples.deltaFrame [] [0; 254]).
  - split; [simpl; lia|]. simpl. split; [lia|]. repeat constructor; simpl; lia.
  - reflexivity.
  - reflexivity.
Defined.

(** *** Frames that are not written *)

(** X22. When a frame costs nothing: for a running recording and a
    512-channel frame, [recordFrame] leaves the recorder exactly as it was
    (no byte written or buffered, cache, last-frame time and frame count
    unchanged) if and only if a frame was written before, fewer than
    5000 ms have passed since the last snapshot, and the frame equals the
    channel cache.  In every other case one frame is written and the
    frame count grows by one; in particular a frame equal to the cache
    that arrives 5000 ms or more after the last snapshot is written as a
    full snapshot of 512 values. *)
Theorem X22_skipped_frames (channels : list Z) (now : Z) (r : DMXRecorder) :
  recordingOk r -> length channels = TOTAL_CHANNELS ->
  (recordFrame channels now r = Some r
   <-> frameCount r <> 0 /\ now - lastSnapshotTime r < SNAPSHOT_INTERVAL
       /\ channels = previousChannels r)
  /\ (recordFrame channels now r <> Some r ->
      exists r', recordFrame channels now r = Some r'
                 /\ frameCount r' = frameCount r + 1 /\ lastFrameTime r' = now
                 /\ previousChannels r' = channels)
  /\ (frameCount r <> 0 -> now - lastSnapshotTime r >= SNAPSHOT_INTERVAL ->
      exists r', recordFrame channels now r = Some r'
                 /\ stream r' = stream r ++ encodeVarint (now - lastFrameTime r)
                                         ++ FrameType.SNAPSHOT :: channels
                 /\ lastSnapshotTime r' = now).
Proof.
  intros Hok Hc.
  assert (Hwritten : forall f, frameFor channels now r = Some f ->
            exists r', recordFrame channels now r = Some r'
                       /\ frameCount r' = frameCount r + 1 /\ lastFrameTime r' = now
                       /\ previousChannels r' = channels
                       /\ stream r' = stream r ++ frameBytes f
                       /\ lastSnapshotTime r'
                          = if isSnapshot f then now else lastSnapshotTime r).
  { intros f Hf.
    destruct (recordFrame_written channels now r f Hok Hc Hf)
      as (r' & H1 & H2 & _ & H3 & H4 & H5 & H6 & _).
    exists r'. split_and!; assumption. }
  split_and!.
  - split.
    + intros Hr. destruct (frameFor channels now r) as [f|] eqn:Hf.
      * destruct (Hwritten f eq_refl) as (r' & Hr' & Hfc & _).
        rewrite Hr in Hr'. injection Hr' as <-. lia.
      * apply frameFor_None in Hf as (H0 & H1 & Hnil).
        split; [exact H0|]. split; [exact H1|].
        apply computeChanges_nil_eq; [exact Hc | apply Hok | exact Hnil].
    + intros (H0 & H1 & ->). apply recordFrame_skipped, frameFor_None.
      split; [exact H0|]. split; [exact H1 | apply computeChanges_same].
  - intros Hne. destruct (frameFor channels now r) as [f|] eqn:Hf.
    + destruct (Hwritten f eq_refl) as (r' & H1 & H2 & H3 & H4 & _).
      exists r'. split_and!; assumption.
    + exfalso. apply Hne, recordFrame_skipped, Hf.
  - intros H0 H1.
    assert (Hf : frameFor channels now r
                 = Some {| deltaTime := now - lastFrameTime r; changes := [];
                           isSnapshot := true;
                           snapshotData := Some (take TOTAL_CHANNELS channels) |}).
    { rewrite frameFor_unfold.
      rewrite (bool_decide_eq_false_2 (frameCount r = 0)) by exact H0.
      rewrite bool_decide_eq_true_2 by exact H1. reflexivity. }
    destruct (Hwritten _ Hf) as (r' & Hr' & _ & _ & _ & Hs & Hls).
    exists r'. split; [exact Hr'|]. split; [|exact Hls].
    rewrite Hs. unfold frameBytes. cbn [deltaTime isSnapshot snapshotData].
    rewrite take_take, Nat.min_id. rewrite take_ge by lia. reflexivity.
Qed.

(** The theorem at a started recorder after a first frame of zeros: a
    second frame of zeros 40 ms later is skipped. *)
Lemma X22_skipped_frames_witness :
  recordFrame (replicate 512 0) 1040 Examples.recorderAfterFirst
  = Some Examples.recorderAfterFirst.
Proof.
  destruct (X22_skipped_frames (replicate 512 0) 1040 Examples.recorderAfterFirst) as [H _].
  - split; [reflexivity|]. split; [vm_compute; lia | reflexivity].
  - reflexivity.
  - apply H. split; [vm_compute; discriminate|]. split; [vm_compute; reflexivity|].
    reflexivity.
Defined.

End RecorderExtra.

(** ** The player: playback, pausing, seeking *)

Module PlayerExtra.
Import Varint VarintFacts Player.

#[local] Arguments Varint.encodeVarint : simpl never.
#[local] Arguments Varint.decodeVarint : simpl never.
#[local] Arguments Recorder.frameBytes : simpl never.
#[local] Arguments readNextFrame : simpl never.
#[local] Arguments applyChannels : simpl never.

Lemma frameBytes_nonempty (f : RecordingFrame) : (0 < length (Recorder.frameBytes f))%nat.
Proof.
  unfold Recorder.frameBytes. rewrite length_app.
  pose proof (CodecExtra.encodeVarint_length (deltaTime f)). lia.
Qed.

Lemma apply_changes_length (cs : list ChannelChange) (ch : list Z) :
  length (foldl (fun (ch : list Z) (change : ChannelChange) =>
                   <[Z.to_nat (channel change) := value change]> ch) ch cs)
  = length ch.
Proof.
  revert ch. induction cs as [|c cs IH]; intros ch; [reflexivity|].
  cbn [foldl]. rewrite IH. apply length_insert.
Qed.

(** A frame in the format's ranges can always be applied to 512 channels,
    and 512 channels result. *)
Lemma applyChannels_wellFormed (f : RecordingFrame) (ch : list Z) :
  Recorder.wellFormed f -> length ch = TOTAL_CHANNELS ->
  exists ch', applyChannels f ch = Some ch' /\ length ch' = TOTAL_CHANNELS.
Proof.
  intros [_ Hwf] Hch. unfold applyChannels.
  destruct (isSnapshot f), (snapshotData f) as [d|]; try contradiction.
  - destruct Hwf as [Hd _]. rewrite decide_True by lia. eexists. split; [reflexivity|].
    rewrite length_app, length_drop. lia.
  - eexists. split; [reflexivity|]. now rewrite apply_changes_length.
Qed.

(** Scheduling when frames remain: the next frame is read and put on the
    timer. *)
Lemma schedule_next (body : list Z) (hd : RecordingHeader) (pre : list Z)
    (f : RecordingFrame) (rest : list RecordingFrame) (p : DMXPlayer) :
  cued body hd pre (f :: rest) p -> Recorder.wellFormed f ->
  scheduleNextFrame p
  = Some (set_playbackTimer (Some f)
            (set_currentPosition (currentPosition p + deltaTime f)
               (set_frameOffset (length pre + length (Recorder.frameBytes f))%nat p)),
          []).
Proof.
  intros (Hst & Hdata & Hhd & Hloop & Htimer & Hbody & Hoff & Hfc & Hch) Hwf.
  pose proof (frameBytes_nonempty f) as Hne.
  assert (Hread : readNextFrame p
                  = Some (Some f,
                          set_frameOffset (length pre + length (Recorder.frameBytes f))%nat p)).
  { apply RecorderExtra.readNextFrame_frameBytes with (rest := concat (Recorder.frameBytes <$> rest));
      [exact Hwf | | exact Hoff].
    rewrite Hdata, Hbody. reflexivity. }
  unfold scheduleNextFrame, scheduleBody at 1. rewrite Hst, Hdata, Hhd. cbn [isPlaying].
  rewrite (bool_decide_eq_false_2 (length body <= frameOffset p)%nat).
  2:{ rewrite Hoff, Hbody. cbn [fmap list_fmap concat]. rewrite !length_app. lia. }
  rewrite (bool_decide_eq_false_2 (currentFrame p >= frameCount hd))
    by (cbn [length] in Hfc; lia).
  cbn [orb]. rewrite Hread. cbn [mbind option_bind]. reflexivity.
Qed.

(** Scheduling when no frame remains: playback finishes. *)
Lemma schedule_end (body : list Z) (hd : RecordingHeader) (pre : list Z) (p : DMXPlayer) :
  cued body hd pre [] p ->
  scheduleNextFrame p = Some (set_state finished p, [onStateChange finished; onFinished]).
Proof.
  intros (Hst & Hdata & Hhd & Hloop & Htimer & Hbody & Hoff & Hfc & Hch).
  unfold scheduleNextFrame, scheduleBody at 1. rewrite Hst, Hdata, Hhd. cbn [isPlaying].
  rewrite (bool_decide_eq_true_2 (length body <= frameOffset p)%nat).
  2:{ rewrite Hoff, Hbody. cbn [fmap list_fmap concat]. rewrite app_nil_r. lia. }
  cbn [orb]. rewrite Hloop. unfold setState. rewrite Hst. reflexivity.
Qed.

(** Playback from a cued player to the end. *)
Lemma playback_run (body : list Z) (hd : RecordingHeader) (rest : list RecordingFrame) :
  Forall Recorder.wellFormed rest ->
  forall (pre : list Z) (p : DMXPlayer),
    cued body hd pre rest p ->
    exists p1 out1 p2 out2,
      scheduleNextFrame p = Some (p1, out1)
      /\ runTimers (length rest) p1 = Some (p2, out2)
      /\ framesOf (out1 ++ out2) = applyAll rest (channels p)
      /\ state p2 = finished /\ playbackTimer p2 = None
      /\ channels p2 = default (channels p) (last (applyAll rest (channels p)))
      /\ currentFrame p2 = frameCount hd
      /\ (onFinished ∈ out1 ++ out2).
Proof.
  induction 1 as [|f rest Hwf Hall IH]; intros pre p Hcued.
  - rewrite (schedule_end body hd pre p Hcued).
    destruct Hcued as (Hst & Hdata & Hhd & Hloop & Htimer & Hbody & Hoff & Hfc & Hch).
    eexists _, _, _, _. split; [reflexivity|]. cbn [length runTimers].
    split; [reflexivity|].
    cbn [app framesOf omap list_omap applyAll last default from_option
         state playbackTimer channels currentFrame set_state].
    split_and!; try reflexivity; try assumption.
    + cbn [length] in Hfc. lia.
    + apply list_elem_of_further, list_elem_of_here.
  - rewrite (schedule_next body hd pre f rest p Hcued Hwf).
    destruct Hcued as (Hst & Hdata & Hhd & Hloop & Htimer & Hbody & Hoff & Hfc & Hch).
    destruct (applyChannels_wellFormed f (channels p) Hwf Hch) as (ch' & Happ & Hch').
    set (q := set_currentFrame (currentFrame p + 1)
                (set_channels ch'
                   (set_playbackTimer None
                      (set_playbackTimer (Some f)
                         (set_currentPosition (currentPosition p + deltaTime f)
                            (set_frameOffset (length pre + length (Recorder.frameBytes f))%nat
                               p)))))).
    assert (Hq : cued body hd (pre ++ Recorder.frameBytes f) rest q).
    { unfold cued, q.
      cbn [state frameData header loopEnabled playbackTimer frameOffset currentFrame channels
           set_currentFrame set_channels set_playbackTimer set_currentPosition set_frameOffset].
      split_and!; try assumption; try reflexivity.
      - rewrite Hbody. cbn [fmap list_fmap concat]. now rewrite app_assoc.
      - now rewrite length_app.
      - cbn [length] in Hfc. lia. }
    destruct (IH (pre ++ Recorder.frameBytes f) q Hq)
      as (p1 & out1 & p2 & out2 & Hsched & Hrun & Hframes & Hst2 & Ht2 & Hch2 & Hfc2 & Hfin).
    eexists _, _, p2, _. split; [reflexivity|].
    cbn [length runTimers playbackTimer set_playbackTimer].
    unfold timerFired.
    cbn [playbackTimer set_playbackTimer]. unfold applyFrame.
    cbn [channels set_playbackTimer set_currentPosition set_frameOffset].
    rewrite Happ. cbn [mbind option_bind].
    change (set_currentFrame _ _) with q.
    rewrite Hsched. cbn [mbind option_bind]. rewrite Hrun. cbn [mbind option_bind].
    split; [reflexivity|].
    assert (Hchq : channels q = ch') by reflexivity.
    assert (Hhq : header q = Some hd) by exact Hhd.
    rewrite Hchq, Hhq in *. cbn [applyAll]. rewrite Happ.
    split_and!.
    + cbn [app framesOf omap list_omap]. f_equal.
      change (omap (fun e => match e with onFrame ch => Some ch | _ => None end) (out1 ++ out2))
        with (framesOf (out1 ++ out2)).
      exact Hframes.
    + exact Hst2.
    + exact Ht2.
    + rewrite Hch2. rewrite last_cons. destruct (last (applyAll rest ch')); reflexivity.
    + exact Hfc2.
    + apply elem_of_app in Hfin. rewrite !elem_of_app. tauto.
Qed.

(** Loading a file and starting playback leaves the player cued at the
    first frame, with all channels at zero. *)
Lemma load_play_cued (path : string) (file : list Z) (hd : RecordingHeader)
    (frames : list RecordingFrame) (p0 : DMXPlayer) :
  parseHeader file = Some hd ->
  drop HEADER_SIZE file = concat (Recorder.frameBytes <$> frames) ->
  frameCount hd = Z.of_nat (length frames) ->
  isPlaying (state p0) = false -> playbackTimer p0 = None -> loopEnabled p0 = false ->
  length (channels p0) = TOTAL_CHANNELS ->
  exists p1 q,
    load path file p0 = Some (p1, [])
    /\ state p1 = idle /\ header p1 = Some hd
    /\ cued (drop HEADER_SIZE file) hd [] frames q
    /\ channels q = replicate TOTAL_CHANNELS 0
    /\ play p1 = '(p2, scheduled) ← scheduleNextFrame q;
                 Some (p2, [onStateChange playing] ++ scheduled).
Proof.
  intros Hparse Hbody Hfc Hst Htimer Hloop Hch.
  set (p1 := set_state idle
               (set_currentPosition 0
                  (set_currentFrame 0
                     (fillZero
                        (set_frameIndexBuilt false
                           (set_frameIndex []
                              (set_frameOffset 0%nat
                                 (set_frameData (Some (drop HEADER_SIZE file))
                                    (set_header (Some hd)
                                       (set_filePath (Some path) p0)))))))))).
  set (q := set_state playing
              (fillZero (set_currentPosition 0 (set_currentFrame 0 (set_frameOffset 0%nat p1))))).
  assert (Hchq : channels q = replicate TOTAL_CHANNELS 0).
  { change (channels q)
      with (replicate (length (replicate (length (channels p0)) 0)) 0).
    now rewrite length_replicate, Hch. }
  exists p1, q.
  split; [unfold load; rewrite Hst, Hparse; reflexivity|].
  split; [reflexivity|]. split; [reflexivity|].
  split.
  { unfold cued. split_and!; try reflexivity; try assumption.
    - change (currentFrame q) with 0. lia.
    - rewrite Hchq. apply length_replicate. }
  split; [exact Hchq|]. reflexivity.
Qed.

(** Loading, playing and letting the timers fire. *)
Lemma playback_file (path : string) (file : list Z) (hd : RecordingHeader)
    (frames : list RecordingFrame) (p0 : DMXPlayer) :
  parseHeader file = Some hd ->
  drop HEADER_SIZE file = concat (Recorder.frameBytes <$> frames) ->
  Forall Recorder.wellFormed frames ->
  frameCount hd = Z.of_nat (length frames) ->
  isPlaying (state p0) = false -> playbackTimer p0 = None -> loopEnabled p0 = false ->
  length (channels p0) = TOTAL_CHANNELS ->
  exists p1 p2 out2 p3 out3,
    load path file p0 = Some (p1, [])
    /\ play p1 = Some (p2, out2)
    /\ runTimers (length frames) p2 = Some (p3, out3)
    /\ framesOf (out2 ++ out3) = applyAll frames (replicate TOTAL_CHANNELS 0)
    /\ length (framesOf (out2 ++ out3)) = length frames
    /\ state p3 = finished /\ (onFinished ∈ out2 ++ out3)
    /\ channels p3
       = default (replicate TOTAL_CHANNELS 0)
                 (last (applyAll frames (replicate TOTAL_CHANNELS 0))).
Proof.
  intros Hparse Hbody Hall Hfc Hst Htimer Hloop Hch.
  destruct (load_play_cued path file hd frames p0 Hparse Hbody Hfc Hst Htimer Hloop Hch)
    as (p1 & q & Hload & _ & _ & Hcued & Hq & Hplay).
  destruct (playback_run (drop HEADER_SIZE file) hd frames Hall [] q Hcued)
    as (p2 & out1 & p3 & out3 & Hsched & Hrun & Hframes & Hst3 & _ & Hch3 & _ & Hfin).
  rewrite Hsched in Hplay. cbn [mbind option_bind] in Hplay. rewrite Hq in *.
  exists p1, p2, ([onStateChange playing] ++ out1), p3, out3.
  split; [exact Hload|]. split; [exact Hplay|]. split; [exact Hrun|].
  assert (Hfr : framesOf (([onStateChange playing] ++ out1) ++ out3)
                = applyAll frames (replicate TOTAL_CHANNELS 0)).
  { rewrite <- Hframes. reflexivity. }
  split; [exact Hfr|]. split.
  - rewrite Hfr.
    assert (Hgen : forall ch, length ch = TOTAL_CHANNELS ->
                              length (applyAll frames ch) = length frames).
    { clear -Hall. induction Hall as [|f frames Hf Hall IH]; intros ch Hlen; [reflexivity|].
      destruct (applyChannels_wellFormed f ch Hf Hlen) as (ch' & Happ & Hch').
      cbn [applyAll length]. rewrite Happ. cbn [length]. f_equal. apply IH, Hch'. }
    apply Hgen, length_replicate.
  - split; [exact Hst3|]. split; [|exact Hch3].
    rewrite <- app_assoc. cbn [app]. apply list_elem_of_further, Hfin.
Qed.

(** X23. Playback of a loaded file: for a file that [parseHeader] accepts
    and whose frame data is the encoding of a list of frames in the
    format's ranges, as many as the header's frame count says, and a
    player that is not playing, has looping off and 512 channels: [load]
    succeeds; [play] then starts playback; and
    letting the frame timers fire one after the other hands to the frame
    callback exactly the channel arrays obtained by applying the frames in
    order to 512 zeros, one array per frame, after which the player is in
    state finished, has announced it, and holds the last of these
    arrays. *)
Theorem X23_playback (path : string) (file : list Z) (hd : RecordingHeader)
    (frames : list RecordingFrame) (p0 : DMXPlayer) :
  parseHeader file = Some hd ->
  drop HEADER_SIZE file = concat (Recorder.frameBytes <$> frames) ->
  Forall Recorder.wellFormed frames ->
  frameCount hd = Z.of_nat (length frames) ->
  isPlaying (state p0) = false -> playbackTimer p0 = None -> loopEnabled p0 = false ->
  length (channels p0) = TOTAL_CHANNELS ->
  exists p1 p2 out2 p3 out3,
    load path file p0 = Some (p1, [])
    /\ play p1 = Some (p2, out2)
    /\ runTimers (length frames) p2 = Some (p3, out3)
    /\ framesOf (out2 ++ out3) = applyAll frames (replicate TOTAL_CHANNELS 0)
    /\ length (framesOf (out2 ++ out3)) = length frames
    /\ state p3 = finished /\ (onFinished ∈ out2 ++ out3)
    /\ channels p3
       = default (replicate TOTAL_CHANNELS 0)
                 (last (applyAll frames (replicate TOTAL_CHANNELS 0))).
Proof. exact (playback_file path file hd frames p0). Qed.

(** The theorem at the file recorded from three frames, of which two were
    written: playback hands two channel arrays to the frame callback. *)
Lemma X23_playback_witness :
  exists p1 p2 out2 p3 out3,
    load "show.dmxrec" Examples.recordedFile create = Some (p1, [])
    /\ play p1 = Some (p2, out2)
    /\ runTimers 2 p2 = Some (p3, out3)
    /\ framesOf (out2 ++ out3) = [replicate 512 0; <[0%nat := 255]> (replicate 512 0)]
    /\ state p3 = finished.
Proof.
  destruct (X23_playback "show.dmxrec" Examples.recordedFile
              (mkRecordingHeader "DMXR" 1 1 0 1 1000 2000 2)
              Examples.recordedFrames create)
    as (p1 & p2 & out2 & p3 & out3 & H1 & H2 & H3 & H4 & _ & H5 & _).
  - vm_compute. reflexivity.
  - vm_compute. reflexivity.
  - repeat constructor; simpl; lia.
  - reflexivity.
  - reflexivity.
  - reflexivity.
  - reflexivity.
  - reflexivity.
  - exists p1, p2, out2, p3, out3. split_and!; assumption.
Defined.

(** *** Pausing *)

(** [readNextFrame] moves the offset and nothing else. *)
Lemma readNextFrame_only_offset (p q : DMXPlayer) (fr : option RecordingFrame) :
  readNextFrame p = Some (fr, q) -> q = set_frameOffset (frameOffset q) p.
Proof.
  unfold readNextFrame. destruct p as [st fp hd fd fo ch cf cp pp le fi fib pt].
  cbn [frameData frameOffset set_frameOffset].
  destruct fd as [data|]; [|intros [= <- <-]; reflexivity].
  case_decide; [intros [= <- <-]; reflexivity|].
  destruct (Varint.decodeVarint data fo) as [dt n].
  destruct (data !! (fo + n)%nat) as [count|]; [|intros [= <- <-]; reflexivity].
  case_decide; [intros [= <- <-]; reflexivity|].
  destruct (if decide (count = FrameType.EXTENDED)
            then Buf.readUInt16LE data (S (fo + n)) ≫= (fun n0 => Some (n0, (S (fo + n) + 2)%nat))
            else Some (count, S (fo + n))) as [[actual off]|];
    [|discriminate].
  cbn [mbind option_bind].
  destruct (readChanges data (Z.to_nat actual) off []) as [[cs off']|]; [|discriminate].
  cbn [mbind option_bind]. intros [= <- <-]. reflexivity.
Qed.

(** What [readNextFrame] returns depends on the frame data and the offset
    only. *)
Lemma readNextFrame_frame (p p' q : DMXPlayer) (fr : option RecordingFrame) :
  frameData p' = frameData p -> frameOffset p' = frameOffset p ->
  readNextFrame p = Some (fr, q) ->
  readNextFrame p' = Some (fr, set_frameOffset (frameOffset q) p').
Proof.
  unfold readNextFrame.
  destruct p as [st fp hd fd fo ch cf cp pp le fi fib pt].
  destruct p' as [st' fp' hd' fd' fo' ch' cf' cp' pp' le' fi' fib' pt'].
  cbn [frameData frameOffset set_frameOffset]. intros -> ->.
  destruct fd as [data|]; [|intros [= <- <-]; reflexivity].
  case_decide; [intros [= <- <-]; reflexivity|].
  destruct (Varint.decodeVarint data fo) as [dt n].
  destruct (data !! (fo + n)%nat) as [count|]; [|intros [= <- <-]; reflexivity].
  case_decide; [intros [= <- <-]; reflexivity|].
  destruct (if decide (count = FrameType.EXTENDED)
            then Buf.readUInt16LE data (S (fo + n)) ≫= (fun n0 => Some (n0, (S (fo + n) + 2)%nat))
            else Some (count, S (fo + n))) as [[actual off]|];
    [|discriminate].
  cbn [mbind option_bind].
  destruct (readChanges data (Z.to_nat actual) off []) as [[cs off']|]; [|discriminate].
  cbn [mbind option_bind]. intros [= <- <-]. reflexivity.
Qed.

(** Resuming after a pause: the timer is gone, the next frame is scheduled. *)
Lemma pause_play (p : DMXPlayer) (data : list Z) (hd : RecordingHeader) :
  state p = playing -> frameData p = Some data -> header p = Some hd ->
  play (pause p).1
  = '(p2, scheduled) ← scheduleNextFrame
                         (set_pausedPosition (currentPosition p) (set_playbackTimer None p));
    Some (p2, [onStateChange playing] ++ scheduled).
Proof.
  intros Hst Hdata Hhd.
  destruct p as [st fp h0 fd fo ch cf cp pp le fi fib pt].
  cbn [state frameData header] in *. subst st fd h0. reflexivity.
Qed.

(** Scheduling with looping off: either playback finishes, or the frame at
    the offset goes on the timer. *)
Lemma schedule_cases (p p2 : DMXPlayer) (data : list Z) (hd : RecordingHeader)
    (out : list Event) :
  state p = playing -> frameData p = Some data -> header p = Some hd ->
  loopEnabled p = false ->
  scheduleNextFrame p = Some (p2, out) ->
  channels p2 = channels p /\ currentFrame p2 = currentFrame p /\ framesOf out = []
  /\ ((playbackTimer p2 = playbackTimer p /\ state p2 = finished)
      \/ (exists next q, readNextFrame p = Some (Some next, q)
                         /\ playbackTimer p2 = Some next /\ state p2 = playing)).
Proof.
  intros Hst Hdata Hhd Hloop. unfold scheduleNextFrame, scheduleBody at 1.
  rewrite Hst, Hdata, Hhd, Hloop. cbn [isPlaying].
  assert (Hfinish : forall q, state q = playing ->
            (let '(p0, changed) := setState finished q in Some (p0, changed ++ [onFinished]))
            = Some (set_state finished q, [onStateChange finished; onFinished])).
  { intros q Hq. unfold setState. rewrite Hq. reflexivity. }
  destruct (_ || _).
  - rewrite (Hfinish p Hst). intros [= <- <-].
    split; [reflexivity|]. split; [reflexivity|]. split; [reflexivity|].
    left. split; reflexivity.
  - destruct (readNextFrame p) as [[[next|] q]|] eqn:Hread; cbn [mbind option_bind];
      [| |discriminate];
      pose proof (readNextFrame_only_offset _ _ _ Hread) as Hq; rewrite Hq.
    + intros [= <- <-].
      split; [reflexivity|]. split; [reflexivity|]. split; [reflexivity|].
      right. exists next, q. rewrite <- Hq. split; [reflexivity|]. split; [reflexivity|].
      rewrite Hq. exact Hst.
    + cbn [loopEnabled set_frameOffset]. rewrite Hloop.
      rewrite Hfinish by exact Hst. intros [= <- <-].
      split; [reflexivity|]. split; [reflexivity|]. split; [reflexivity|].
      left. split; reflexivity.
Qed.

(** X25. Pausing loses the pending frame.  While playing, the next frame
    has already been read and waits on the timer.  [pause] cancels the
    timer, and [play] then schedules the frame that follows: with looping
    off, after [pause] and [play] the channels and the frame counter are
    what they were, nothing was handed to the frame callback, and the
    timer holds the frame read at the current offset or playback has
    finished; the frame that was pending is never applied.  Had the timer
    fired instead, that frame would have been applied and shown first. *)
Theorem X25_pause_drops_pending_frame (p p2 : DMXPlayer) (f : RecordingFrame)
    (data : list Z) (hd : RecordingHeader) (out : list Event) :
  state p = playing -> playbackTimer p = Some f ->
  frameData p = Some data -> header p = Some hd -> loopEnabled p = false ->
  play (pause p).1 = Some (p2, out) ->
  channels p2 = channels p
  /\ currentFrame p2 = currentFrame p
  /\ framesOf out = []
  /\ ((playbackTimer p2 = None /\ state p2 = finished)
      \/ (exists next q, readNextFrame p = Some (Some next, q)
                         /\ playbackTimer p2 = Some next /\ state p2 = playing))
  /\ (forall p' out', timerFired p = Some (p', out') ->
        exists ch rest, applyChannels f (channels p) = Some ch /\ out' = onFrame ch :: rest).
Proof.
  intros Hst Htimer Hdata Hhd Hloop Hplay.
  assert (Hfired : forall p' out', timerFired p = Some (p', out') ->
            exists ch rest, applyChannels f (channels p) = Some ch /\ out' = onFrame ch :: rest).
  { intros p' out'. unfold timerFired. rewrite Htimer. unfold applyFrame.
    cbn [channels set_playbackTimer].
    destruct (applyChannels f (channels p)) as [ch|]; [|discriminate].
    cbn [mbind option_bind channels set_currentFrame set_channels].
    destruct (scheduleNextFrame _) as [[p3' sch']|]; [|discriminate].
    cbn [mbind option_bind app]. intros [= <- <-]. eexists _, _. split; reflexivity. }
  rewrite (pause_play p data hd Hst Hdata Hhd) in Hplay.
  destruct (scheduleNextFrame _) as [[p3 sch]|] eqn:Hsch; [|discriminate Hplay].
  cbn [mbind option_bind] in Hplay. injection Hplay as <- <-.
  destruct (schedule_cases
              (set_pausedPosition (currentPosition p) (set_playbackTimer None p))
              p3 data hd sch Hst Hdata Hhd Hloop Hsch)
    as (Hch & Hcf & Hfr & Hcases).
  split; [exact Hch|]. split; [exact Hcf|]. split; [exact Hfr|]. split.
  - destruct Hcases as [[Ht Hs]|(next & q & Hread & Ht & Hs)].
    + left. split; [exact Ht | exact Hs].
    + right. eexists next, _. split; [|split; assumption].
      exact (readNextFrame_frame
               (set_pausedPosition (currentPosition p) (set_playbackTimer None p))
               p q (Some next) eq_refl eq_refl Hread).
  - exact Hfired.
Qed.

(** The theorem at the player that has loaded the recorded file and
    started playback: the first frame waits on the timer, and after
    [pause] and [play] the channels are still all zero. *)
Lemma X25_pause_drops_pending_frame_witness :
  exists p2 out,
    play (pause Examples.playerPlaying).1 = Some (p2, out)
    /\ channels p2 = replicate 512 0 /\ framesOf out = [].
Proof.
  destruct (play (pause Examples.playerPlaying).1) as [[p2 out]|] eqn:H;
    [|vm_compute in H; discriminate H].
  destruct (X25_pause_drops_pending_frame Examples.playerPlaying p2
              {| deltaTime := 0; changes := []; isSnapshot := true;
                 snapshotData := Some (replicate 512 0) |}
              (drop 32 Examples.recordedFile)
              (mkRecordingHeader "DMXR" 1 1 0 1 1000 2000 2) out)
    as (H1 & _ & H2 & _).
  - reflexivity.
  - vm_compute. reflexivity.
  - vm_compute. reflexivity.
  - vm_compute. reflexivity.
  - reflexivity.
  - exact H.
  - exists p2, out. split; [reflexivity|]. split; [exact H1 | exact H2].
Defined.

(** *** Seeking *)



(** *** The seek index *)

(** One round of the index loop over a written frame. *)
Lemma indexLoop_step (fuel : nat) (data pre rest : list Z) (f : RecordingFrame) (pos : Z)
    (idx : list FrameIndex) :
  Recorder.wellFormed f -> data = pre ++ Recorder.frameBytes f ++ rest ->
  indexLoop (S fuel) data (length pre) pos idx
  = indexLoop fuel data (length pre + length (Recorder.frameBytes f))%nat (pos + deltaTime f)
      (idx ++ (if isSnapshot f
               then [{| fi_offset := length pre; fi_position := pos; fi_isSnapshot := true |}]
               else [])).
Proof.
  intros [Hdt Hwf] ->. cbn [indexLoop].
  pose proof (CodecExtra.encodeVarint_length (deltaTime f)) as Hvl.
  assert (Hnonempty : (length pre < length (pre ++ Recorder.frameBytes f ++ rest))%nat).
  { rewrite !length_app. unfold Recorder.frameBytes. rewrite length_app. lia. }
  rewrite decide_False by lia.
  unfold Recorder.frameBytes in *. rewrite <- !app_assoc.
  rewrite (decodeVarint_encodeVarint (deltaTime f) pre _ Hdt).
  set (enc := encodeVarint (deltaTime f)) in *.
  destruct f as [dt cs snap sd]. cbn [deltaTime changes isSnapshot snapshotData] in *.
  rewrite (app_assoc pre enc).
  replace (length pre + length enc)%nat with (length (pre ++ enc) + 0)%nat
    by (rewrite length_app; lia).
  destruct snap, sd as [d|]; try contradiction.
  - destruct Hwf as [Hd ->]. rewrite take_ge by lia. cbn [app].
    rewrite RecorderExtra.lookup_app_plus. cbn [lookup list_lookup].
    rewrite bool_decide_eq_true_2 by reflexivity.
    f_equal. rewrite !length_app. cbn [length]. rewrite ?length_app. lia.
  - destruct Hwf as [Hn Hall]. unfold Recorder.countBytes.
    case_decide as Hsmall.
    + rewrite Z.mod_small by (unfold FrameType.SNAPSHOT in Hsmall; lia).
      cbn [app]. rewrite RecorderExtra.lookup_app_plus. cbn [lookup list_lookup].
      rewrite bool_decide_eq_false_2 by lia.
      rewrite decide_False by (unfold FrameType.EXTENDED, FrameType.SNAPSHOT in *; lia).
      rewrite app_nil_r. f_equal.
      rewrite !length_app. cbn [length].
      rewrite ?length_app, RecorderExtra.length_concat_changes. lia.
    + cbn [app]. rewrite RecorderExtra.lookup_app_plus. cbn [lookup list_lookup].
      rewrite bool_decide_eq_false_2 by (unfold FrameType.EXTENDED, FrameType.SNAPSHOT; lia).
      rewrite decide_True by reflexivity.
      replace ((pre ++ enc) ++ FrameType.EXTENDED :: Z.land (Z.of_nat (length cs)) 255
                 :: Z.shiftr (Z.of_nat (length cs)) 8
                 :: concat (Recorder.changeBytes <$> cs) ++ rest)
        with (((pre ++ enc) ++ [FrameType.EXTENDED]) ++ Z.land (Z.of_nat (length cs)) 255
                 :: Z.shiftr (Z.of_nat (length cs)) 8
                 :: concat (Recorder.changeBytes <$> cs) ++ rest)
        by (rewrite <- (app_assoc (pre ++ enc)); reflexivity).
      rewrite RecorderExtra.readUInt16LE_at by (rewrite !length_app; cbn [length]; lia).
      cbn [mbind option_bind]. rewrite app_nil_r. f_equal.
      rewrite !length_app. cbn [length].
      rewrite ?length_app, RecorderExtra.length_concat_changes. lia.
Qed.

Lemma indexLoop_frames (frames : list RecordingFrame) :
  Forall Recorder.wellFormed frames ->
  forall (fuel : nat) (data pre : list Z) (pos : Z) (idx : list FrameIndex),
    (length frames <= fuel)%nat ->
    data = pre ++ concat (Recorder.frameBytes <$> frames) ->
    indexLoop fuel data (length pre) pos idx = Some (idx ++ indexOf frames (length pre) pos).
Proof.
  induction 1 as [|f frames Hwf Hall IH]; intros fuel data pre pos idx Hfuel Hdata.
  - cbn [fmap list_fmap concat indexOf] in *. rewrite !app_nil_r in *. subst data.
    destruct fuel as [|fuel]; [reflexivity|]. cbn [indexLoop].
    now rewrite decide_True by lia.
  - destruct fuel as [|fuel]; [cbn [length] in Hfuel; lia|].
    cbn [fmap list_fmap concat] in Hdata.
    rewrite (indexLoop_step fuel data pre (concat (Recorder.frameBytes <$> frames)) f pos idx
               Hwf Hdata).
    rewrite <- length_app.
    rewrite (IH fuel data (pre ++ Recorder.frameBytes f)); cbn [length] in Hfuel; [|lia|].
    + cbn [indexOf]. rewrite length_app, <- app_assoc. reflexivity.
    + rewrite Hdata. now rewrite app_assoc.
Qed.

Lemma frames_length_le (frames : list RecordingFrame) :
  (length frames <= length (concat (Recorder.frameBytes <$> frames)))%nat.
Proof.
  induction frames as [|f frames IH]; [reflexivity|].
  cbn [fmap list_fmap concat length]. rewrite length_app.
  pose proof (frameBytes_nonempty f). lia.
Qed.

(** The index built for frame data that encodes [frames]. *)
Lemma buildFrameIndex_frames (frames : list RecordingFrame) (p : DMXPlayer) :
  Forall Recorder.wellFormed frames ->
  frameData p = Some (concat (Recorder.frameBytes <$> frames)) ->
  frameIndexBuilt p = false ->
  buildFrameIndex p = Some (set_frameIndexBuilt true (set_frameIndex (indexOf frames 0 0) p)).
Proof.
  intros Hall Hdata Hbuilt. unfold buildFrameIndex. rewrite Hdata, Hbuilt.
  cbn [mbind option_bind].
  pose proof (indexLoop_frames frames Hall _ _ [] 0 [] (frames_length_le frames) eq_refl) as Hi.
  cbn [app length] in Hi. rewrite Hi. reflexivity.
Qed.

(** X27. The seek index: for frame data that encodes a list of frames in
    the format's ranges, [buildFrameIndex] returns normally and the index
    has one entry per snapshot frame, in file order, holding the byte
    offset at which the frame starts and, as its position, the sum of the
    delta times of the frames before it.  The snapshot's own delta time
    is not part of its position: the entry carries the time of the frame
    before the snapshot, not the time at which the snapshot was
    recorded.  Delta frames get no entry, and a second call does nothing. *)
Theorem X27_frame_index (frames : list RecordingFrame) (p : DMXPlayer) :
  Forall Recorder.wellFormed frames ->
  frameData p = Some (concat (Recorder.frameBytes <$> frames)) ->
  frameIndexBuilt p = false ->
  exists p',
    buildFrameIndex p = Some p'
    /\ frameIndex p' = indexOf frames 0 0
    /\ frameIndexBuilt p' = true
    /\ buildFrameIndex p' = Some p'
    /\ length (frameIndex p') = length (filter (fun f => isSnapshot f = true) frames)
    /\ p' = set_frameIndexBuilt true (set_frameIndex (frameIndex p') p).
Proof.
  intros Hall Hdata Hbuilt.
  exists (set_frameIndexBuilt true (set_frameIndex (indexOf frames 0 0) p)).
  split; [exact (buildFrameIndex_frames frames p Hall Hdata Hbuilt)|].
  cbn [frameIndex frameIndexBuilt set_frameIndexBuilt set_frameIndex].
  split; [reflexivity|]. split; [reflexivity|]. split.
  - unfold buildFrameIndex.
    cbn [frameData frameIndexBuilt set_frameIndexBuilt set_frameIndex].
    rewrite Hdata. reflexivity.
  - split; [|reflexivity]. clear. generalize 0%nat, 0.
    induction frames as [|f frames IH]; intros off pos; [reflexivity|].
    cbn [indexOf]. rewrite length_app, IH.
    destruct (isSnapshot f) eqn:Hs.
    + rewrite filter_cons_True by exact Hs. reflexivity.
    + rewrite filter_cons_False by (rewrite Hs; discriminate). reflexivity.
Qed.

(** The theorem at the two frames of the recorded file: one snapshot, one
    index entry. *)
Lemma X27_frame_index_witness :
  exists p',
    buildFrameIndex
      (set_frameData (Some (concat (Recorder.frameBytes <$> Examples.recordedFrames))) create)
    = Some p'
    /\ frameIndex p' = [{| fi_offset := 0; fi_position := 0; fi_isSnapshot := true |}].
Proof.
  destruct (X27_frame_index Examples.recordedFrames
              (set_frameData (Some (concat (Recorder.frameBytes <$> Examples.recordedFrames)))
                             create))
    as (p' & H1 & H2 & _).
  - repeat constructor; simpl; lia.
  - reflexivity.
  - reflexivity.
  - exists p'. split; [exact H1 | exact H2].
Defined.

(** X28. Seeking restores a snapshot before its time.  Take frame data
    that holds two snapshot frames: [A] with delta time 0, then [B] with
    delta time [d], so that playback shows [A] at position 0 and [B] only
    [d] ms later.  Because the index gives the second snapshot the
    position 0 (its own delta is not counted), [seek 0] picks the second
    snapshot: it returns normally, hands [B] to the frame callback,
    reports position 0 and leaves the player holding [B] with frame
    counter 1.  So after a seek to the start, the state recorded [d] ms
    into the recording is shown at once. *)
Theorem X28_seek_restores_later_snapshot (A B : list Z) (d : Z) (hd : RecordingHeader)
    (p : DMXPlayer) :
  length A = TOTAL_CHANNELS -> length B = TOTAL_CHANNELS -> 0 <= d < 2 ^ 31 ->
  frameData p
  = Some (Recorder.frameBytes {| deltaTime := 0; changes := []; isSnapshot := true;
                                 snapshotData := Some A |}
          ++ Recorder.frameBytes {| deltaTime := d; changes := []; isSnapshot := true;
                                    snapshotData := Some B |}) ->
  header p = Some hd -> frameIndexBuilt p = false -> isPlaying (state p) = false ->
  length (channels p) = TOTAL_CHANNELS ->
  exists p',
    seek 0 p = Some (p', [onPosition 0 (duration hd); onFrame B])
    /\ channels p' = B /\ currentPosition p' = 0 /\ currentFrame p' = 1.
Proof.
  intros HA HB Hd Hdata Hhd Hbuilt Hst Hch.
  set (sA := {| deltaTime := 0; changes := []; isSnapshot := true; snapshotData := Some A |}) in *.
  set (sB := {| deltaTime := d; changes := []; isSnapshot := true; snapshotData := Some B |}) in *.
  assert (HwA : Recorder.wellFormed sA) by (split; [cbn; lia | split; [exact HA | reflexivity]]).
  assert (HwB : Recorder.wellFormed sB) by (split; [exact Hd | split; [exact HB | reflexivity]]).
  set (fA := Recorder.frameBytes sA) in *. set (fB := Recorder.frameBytes sB) in *.
  assert (Hdata' : frameData p = Some (concat (Recorder.frameBytes <$> [sA; sB]))).
  { rewrite Hdata. cbn [fmap list_fmap concat]. now rewrite app_nil_r. }
  pose proof (buildFrameIndex_frames [sA; sB] p (Forall_cons_2 _ _ _ HwA (Forall_cons_2 _ _ _ HwB (Forall_nil_2 _)))
                Hdata' Hbuilt) as Hidx.
  assert (Hio : indexOf [sA; sB] 0 0
                = [{| fi_offset := 0; fi_position := 0; fi_isSnapshot := true |};
                   {| fi_offset := length fA; fi_position := 0; fi_isSnapshot := true |}]).
  { reflexivity. }
  rewrite Hio in Hidx.
  unfold seek. rewrite Hdata, Hhd, Hbuilt, Hidx. cbn [mbind option_bind].
  cbn [state frameIndex set_frameIndexBuilt set_frameIndex]. rewrite Hst.
  replace (Z.max 0 (Z.min 0 (duration hd))) with 0 by lia.
  assert (Hfind : findSnapshot
                    [{| fi_offset := 0; fi_position := 0; fi_isSnapshot := true |};
                     {| fi_offset := length fA; fi_position := 0; fi_isSnapshot := true |}] 0
                  = Some (1%nat, {| fi_offset := length fA; fi_position := 0;
                                    fi_isSnapshot := true |})).
  { reflexivity. }
  cbn [frameIndex set_frameIndexBuilt set_frameIndex]. rewrite Hfind.
  set (q := set_currentFrame (Z.of_nat 1)
              (set_currentPosition 0
                 (set_frameOffset (length fA)
                    (fillZero
                       (set_frameIndexBuilt true
                          (set_frameIndex
                             [{| fi_offset := 0; fi_position := 0; fi_isSnapshot := true |};
                              {| fi_offset := length fA; fi_position := 0;
                                 fi_isSnapshot := true |}] p)))))).
  change (readNextFrame _) with (readNextFrame q).
  rewrite (RecorderExtra.readNextFrame_frameBytes sB fA [] q HwB)
    by (try rewrite app_nil_r; first [exact Hdata | reflexivity]).
  cbn [mbind option_bind isSnapshot snapshotData sB].
  unfold applyFrame, applyChannels.
  cbn [isSnapshot snapshotData channels set_frameOffset set_currentFrame set_currentPosition
       fillZero set_channels set_frameIndexBuilt set_frameIndex q].
  change (isSnapshot sB) with true. change (snapshotData sB) with (Some B). cbv iota.
  rewrite length_replicate, decide_True by lia.
  rewrite drop_ge by (rewrite length_replicate; lia). rewrite app_nil_r.
  cbn [mbind option_bind replayLoop currentPosition set_channels set_frameOffset
       set_currentFrame set_currentPosition].
  rewrite (bool_decide_eq_false_2 (0 < 0)) by lia. cbn [andb mbind option_bind].
  eexists. split; [reflexivity|]. split; [reflexivity|]. split; reflexivity.
Qed.

(** The theorem at two snapshots six seconds apart: all channels at 0,
    then all at 7. *)
Lemma X28_seek_restores_later_snapshot_witness :
  exists p',
    seek 0 Examples.playerTwoSnapshots
    = Some (p', [onPosition 0 6000; onFrame (replicate 512 7)])
    /\ channels p' = replicate 512 7.
Proof.
  destruct (X28_seek_restores_later_snapshot (replicate 512 0) (replicate 512 7) 6000
              (mkRecordingHeader "DMXR" 1 1 0 1 1000 6000 2) Examples.playerTwoSnapshots)
    as (p' & H1 & H2 & _).
  - reflexivity.
  - reflexivity.
  - lia.
  - reflexivity.
  - reflexivity.
  - reflexivity.
  - reflexivity.
  - reflexivity.
  - exists p'. split; [exact H1 | exact H2].
Defined.

(** *** Looping *)

(** With looping on and no frame data, scheduling loops back for ever. *)
Lemma schedule_empty_loop (p : DMXPlayer) (hd : RecordingHeader) :
  state p = playing -> frameData p = Some [] -> header p = Some hd -> loopEnabled p = true ->
  scheduleNextFrame p = None.
Proof.
  intros Hst Hdata Hhd Hloop.
  unfold scheduleNextFrame, scheduleBody at 1. rewrite Hst, Hdata, Hhd, Hloop.
  cbn [isPlaying length].
  rewrite (bool_decide_eq_true_2 (0 <= frameOffset p)%nat) by lia. cbn [orb].
  unfold scheduleBody.
  cbn [state frameData header loopEnabled frameOffset fillZero set_channels
       set_currentPosition set_currentFrame set_frameOffset].
  rewrite Hst, Hdata, Hhd, Hloop. cbn [isPlaying length].
  rewrite (bool_decide_eq_true_2 (0 <= 0)%nat) by lia. reflexivity.
Qed.

(** X30. Looping an empty recording never comes back: for a loaded
    recording without frame data (a file of the 32 header bytes only, as
    left by a recording stopped before its first frame) and looping
    switched on, [play] on a player that is not playing does not return
    normally.  [scheduleNextFrame] finds the end of the data, resets to
    the start and calls itself, finds the end again in the same state,
    and so on without end; the second loop-back within one call is the
    exception of [scheduleNextFrame], and [play] passes it on. *)
Theorem X30_loop_on_empty_recording (p : DMXPlayer) (hd : RecordingHeader) :
  frameData p = Some [] -> header p = Some hd -> loopEnabled p = true ->
  isPlaying (state p) = false ->
  play p = None.
Proof.
  intros Hdata Hhd Hloop Hst. unfold play. rewrite Hdata, Hhd, Hst.
  assert (Hgen : forall q, frameData q = Some [] -> header q = Some hd ->
                           loopEnabled q = true ->
            (let '(p0, changed) := setState playing q in
             scheduleNextFrame p0 ≫= (fun '(p1, scheduled) => Some (p1, changed ++ scheduled)))
            = None).
  { intros q Hd Hh Hl. unfold setState.
    destruct (state q) eqn:Hs;
      rewrite (schedule_empty_loop _ hd); try reflexivity; try assumption. }
  destruct (state p); try discriminate Hst; apply Hgen; assumption.
Qed.

(** The theorem at a fresh player holding a header-only recording, with
    looping switched on. *)
Lemma X30_loop_on_empty_recording_witness :
  play (set_loopEnabled true
          (set_header (Some (mkRecordingHeader "DMXR" 1 1 0 1 1000 0 0))
             (set_frameData (Some []) create)))
  = None.
Proof.
  apply (X30_loop_on_empty_recording _ (mkRecordingHeader "DMXR" 1 1 0 1 1000 0 0));
    reflexivity.
Defined.

End PlayerExtra.

(** ** Recording, then playing the file back *)

Module RoundTrip.
Import Recorder RecorderFacts.

#[local] Arguments Varint.encodeVarint : simpl never.
#[local] Arguments stream : simpl never.
#[local] Arguments disk : simpl never.
#[local] Arguments frameBytes : simpl never.
#[local] Arguments computeChanges : simpl never.

Lemma is_bytes_lookup (b : list Z) (i : nat) :
  Buf.is_bytes b = true -> 0 <= default 0 (b !! i) <= 255.
Proof.
  intros Hb. destruct (b !! i) as [x|] eqn:Hx; cbn [default from_option id]; [|lia].
  unfold Buf.is_bytes in Hb. rewrite forallb_forall in Hb.
  apply list_elem_of_lookup_2, list_elem_of_In, Hb in Hx.
  apply andb_true_iff in Hx as [H0 H1]. apply Z.leb_le in H0. apply Z.ltb_lt in H1. lia.
Qed.

(** A frame the recorder writes for bytes, at most 2^31 - 1 ms after the
    last one, is in the format's ranges. *)
Lemma frameFor_wellFormed (channels : list Z) (now : Z) (r : DMXRecorder) (f : RecordingFrame) :
  length channels = TOTAL_CHANNELS -> Buf.is_bytes channels = true ->
  0 <= now - lastFrameTime r < 2 ^ 31 ->
  frameFor channels now r = Some f -> wellFormed f.
Proof.
  intros Hc Hb Hdt. rewrite frameFor_unfold.
  assert (Hdelta : 0 <= (if bool_decide (frameCount r = 0) then 0 else now - lastFrameTime r)
                   < 2 ^ 31)
    by (destruct (bool_decide _); lia).
  destruct (_ || _).
  - intros [= <-]. split; [exact Hdelta|]. cbn [isSnapshot snapshotData changes].
    split; [|reflexivity]. rewrite length_take. lia.
  - pose proof (computeChanges_length channels (previousChannels r)) as Hlen.
    pose proof (computeChanges_spec channels (previousChannels r)) as Hspec.
    destruct (computeChanges channels (previousChannels r)) as [|c cs]; [discriminate|].
    intros [= <-]. split; [exact Hdelta|]. cbn [isSnapshot snapshotData changes].
    split; [unfold TOTAL_CHANNELS in Hlen; lia|].
    apply Forall_forall. intros c' Hc'.
    destruct (Hspec c' Hc') as (i & Hi & -> & -> & _).
    split; [unfold TOTAL_CHANNELS in Hi; lia | apply is_bytes_lookup, Hb].
Qed.

(** The frames a session writes are in the format's ranges when the
    frames are bytes and the clock readings ascend within 2^31 ms. *)
Lemma writtenFrames_wellFormed (frames : list (Z * list Z)) (r : DMXRecorder) (t0 : Z) :
  recordingOk r -> t0 <= lastFrameTime r ->
  Forall (fun f => length f.2 = TOTAL_CHANNELS /\ Buf.is_bytes f.2 = true
                   /\ lastFrameTime r <= f.1 < t0 + 2 ^ 31) frames ->
  StronglySorted Z.le (fst <$> frames) ->
  Forall wellFormed (fst <$> writtenFrames frames r).
Proof.
  revert r. induction frames as [|[now channels] frames IH]; intros r Hok Ht0 Hall Hsorted;
    [constructor|].
  apply Forall_cons in Hall as [(Hc & Hb & Hnow) Hall]. cbn [fst snd] in Hc, Hb, Hnow.
  cbn [fmap list_fmap fst] in Hsorted. apply StronglySorted_inv in Hsorted as [Hsorted Hle].
  cbn [writtenFrames].
  destruct (frameFor channels now r) as [f|] eqn:Hf.
  - destruct (recordFrame_written channels now r f Hok Hc Hf)
      as (r1 & -> & _ & Hok1 & _ & Hlft & _).
    cbn [fmap list_fmap fst]. constructor.
    + apply (frameFor_wellFormed channels now r f Hc Hb); [lia | exact Hf].
    + apply IH; [exact Hok1 | lia | | exact Hsorted].
      rewrite Hlft. apply Forall_forall. intros [now' ch'] Hin.
      rewrite Forall_forall in Hall. destruct (Hall _ Hin) as (H1 & H2 & H3).
      cbn [fst snd] in *. split; [exact H1|]. split; [exact H2|].
      rewrite Forall_forall in Hle.
      assert (Hge : now <= now').
      { apply Hle. apply list_elem_of_fmap. exists (now', ch'). split; [reflexivity | exact Hin]. }
      lia.
  - rewrite (recordFrame_skipped channels now r Hf). apply IH; assumption.
Qed.

Lemma writtenFrames_length (frames : list (Z * list Z)) (r : DMXRecorder) :
  (length (writtenFrames frames r) <= length frames)%nat.
Proof.
  revert r. induction frames as [|[now channels] frames IH]; intros r; [reflexivity|].
  cbn [writtenFrames length].
  destruct (recordFrame channels now r) as [r'|]; [|cbn [length]; lia].
  destruct (frameFor channels now r); cbn [length]; specialize (IH r'); lia.
Qed.

(** X24. A recording plays back as it was recorded.  Take a recorder
    that has just started (recording, file open, header on file, no frame
    yet, cache all zero), a sequence of 512-byte frames with ascending
    clock readings within 2^31 ms of the start, and a stop time that fits
    the header.  Then recording the frames and stopping succeeds, and
    loading the resulting file into a new player, playing it and letting
    the frame timers fire hands to the frame callback exactly the channel
    arrays of the frames that were written, in order, one callback per
    written frame, and leaves the player finished.  Frames skipped as
    equal to their predecessor are not played. *)
Theorem X24_record_then_play (frames : list (Z * list Z)) (r : DMXRecorder) (stopAt : Z)
    (path : string) :
  recordingOk r -> fileHandle r = true -> frameCount r = 0 -> stream r = [] ->
  previousChannels r = replicate TOTAL_CHANNELS 0 ->
  0 <= universe r <= 65535 -> - 2 ^ 63 <= startTime r < 2 ^ 63 ->
  0 <= stopAt - startTime r <= 4294967295 ->
  Z.of_nat (length frames) <= 4294967295 ->
  Forall (fun f => length f.2 = TOTAL_CHANNELS /\ Buf.is_bytes f.2 = true
                   /\ lastFrameTime r <= f.1 < lastFrameTime r + 2 ^ 31) frames ->
  StronglySorted Z.le (fst <$> frames) ->
  exists r1 r2 p1 p2 out2 p3 out3,
    recordFrames frames r = Some r1
    /\ stopRecording stopAt r1 = Some (r2, stopAt - startTime r)
    /\ Player.load path (disk (fs r2)) Player.create = Some (p1, [])
    /\ Player.play p1 = Some (p2, out2)
    /\ Player.runTimers (length (writtenFrames frames r)) p2 = Some (p3, out3)
    /\ Player.framesOf (out2 ++ out3) = snd <$> writtenFrames frames r
    /\ Player.state p3 = Player.finished.
Proof.
  intros Hok Hfh Hfc Hstream Hprev Hu Hst Hdur Hn Hall Hsorted.
  assert (Hlens : Forall (fun f : Z * list Z => length f.2 = TOTAL_CHANNELS) frames).
  { eapply Forall_impl; [exact Hall|]. cbn. intros f Hf. apply Hf. }
  destruct (RecorderExtra.recordFrames_spec frames r Hok Hfh Hlens)
    as (r1 & Hrec & Hs1 & Hfc1 & _ & Hok1 & Hfh1 & Hst1 & Hu1 & Hpr1).
  pose proof (writtenFrames_length frames r) as Hwl.
  destruct (proj2 (RecorderExtra.stopRecording_spec stopAt r1) Hok1 Hfh1)
    as (r2 & Hstop & _ & _ & _ & _ & Hbody & Hparse); [lia..|].
  rewrite Hst1 in Hstop.
  pose proof (writtenFrames_wellFormed frames r (lastFrameTime r) Hok ltac:(lia) Hall Hsorted)
    as Hwf.
  destruct (PlayerExtra.playback_file path (disk (fs r2)) _
              (fst <$> writtenFrames frames r) Player.create Hparse)
    as (p1 & p2 & out2 & p3 & out3 & Hload & Hplay & Hrun & Hframes & _ & Hfin & _).
  - change Player.HEADER_SIZE with HEADER_SIZE. rewrite Hbody, Hs1, Hstream. cbn [app].
    now rewrite <- list_fmap_compose.
  - exact Hwf.
  - change (frameCount r1 = Z.of_nat (length (fst <$> writtenFrames frames r))).
    rewrite Hfc1, Hfc, length_fmap. lia.
  - reflexivity.
  - reflexivity.
  - reflexivity.
  - apply length_replicate.
  - rewrite length_fmap in Hrun.
    exists r1, r2, p1, p2, out2, p3, out3.
    split; [exact Hrec|]. split; [exact Hstop|]. split; [exact Hload|].
    split; [exact Hplay|]. split; [exact Hrun|]. split; [|exact Hfin].
    rewrite Hframes, <- Hprev. apply (RecorderExtra.replay_written frames r Hok Hlens).
Qed.

(** The theorem at the session of three frames, stopped at clock reading
    3000: two arrays are played, the second frame having been skipped. *)
Lemma X24_record_then_play_witness :
  exists r1 r2 p1 p2 out2 p3 out3,
    recordFrames Examples.session Examples.recorderStarted = Some r1
    /\ stopRecording 3000 r1 = Some (r2, 2000)
    /\ Player.load "show.dmxrec" (disk (fs r2)) Player.create = Some (p1, [])
    /\ Player.play p1 = Some (p2, out2)
    /\ Player.runTimers 2 p2 = Some (p3, out3)
    /\ Player.framesOf (out2 ++ out3)
       = [replicate 512 0; <[0%nat := 255]> (replicate 512 0)].
Proof.
  destruct (X24_record_then_play Examples.session Examples.recorderStarted 3000 "show.dmxrec")
    as (r1 & r2 & p1 & p2 & out2 & p3 & out3 & H1 & H2 & H3 & H4 & H5 & H6 & _).
  - split; [reflexivity|]. split; [vm_compute; lia | reflexivity].
  - reflexivity.
  - reflexivity.
  - reflexivity.
  - reflexivity.
  - vm_compute. split; discriminate.
  - vm_compute. split; [discriminate | reflexivity].
  - vm_compute. split; discriminate.
  - vm_compute. discriminate.
  - repeat constructor; vm_compute; congruence.
  - repeat constructor; vm_compute; discriminate.
  - exists r1, r2, p1, p2, out2, p3, out3. split_and!; assumption.
Defined.

End RoundTrip.

(** ** Universe bookkeeping *)

Module UniverseExtra.
Import UniverseManager.

Lemma updateFromPacket_spec (u : Z) (source : option string) (now : Z) (m : UniverseManager)
    (v : Z) :
  selectedUniverse (updateFromPacket u source now m) = selectedUniverse m
  /\ packetCount v (updateFromPacket u source now m)
     = packetCount v m + (if bool_decide (v = u) && isValidUniverse u then 1 else 0)
  /\ (is_Some (discoveredUniverses (updateFromPacket u source now m) !! v)
      <-> is_Some (discoveredUniverses m !! v) \/ (v = u /\ isValidUniverse u = true)).
Proof.
  unfold updateFromPacket, onUniverseDiscovered, packetCount.
  destruct (isValidUniverse u) eqn:Hvalid; cbn [negb].
  2:{ rewrite andb_false_r. split; [reflexivity|]. split; [lia|].
      split; [now left | intros [H|[_ H]]; [exact H | discriminate H]]. }
  rewrite andb_true_r.
  destruct (discoveredUniverses m !! u) as [old|] eqn:Hold;
    cbn [selectedUniverse discoveredUniverses]; (split; [reflexivity|]).
  - case_bool_decide as Hv.
    + subst v. rewrite lookup_insert_eq, Hold. cbn. split; [reflexivity|].
      split; [intros _; left; eexists; reflexivity | intros _; eexists; reflexivity].
    + rewrite lookup_insert_ne by congruence. split; [lia|].
      split; [now left | intros [H|[H _]]; [exact H | contradiction]].
  - case_bool_decide as Hv.
    + subst v. rewrite lookup_insert_eq, Hold. cbn. split; [reflexivity|].
      split; [intros _; right; split; reflexivity | intros _; eexists; reflexivity].
    + rewrite lookup_insert_ne by congruence. split; [lia|].
      split; [now left | intros [H|[H _]]; [exact H | contradiction]].
Qed.

(** X29. The universe manager counts packets per universe: after any run
    of [updateFromPacket] calls, the packet count on record for a
    universe has grown by the number of packets of the run that carried
    that universe, provided the universe is valid (an integer from 0 to
    63999); a universe has an entry exactly when it had one before or a
    valid packet for it was in the run, so packets with an invalid
    universe never create or change an entry; and the selected universe
    is untouched. *)
Theorem X29_packets_counted (packets : list (Z * option string * Z)) (m : UniverseManager)
    (u : Z) :
  let m' := updateAll packets m in
  selectedUniverse m' = selectedUniverse m
  /\ packetCount u m'
     = packetCount u m
       + (if isValidUniverse u
          then Z.of_nat (length (filter (fun e => e.1.1 = u) packets)) else 0)
  /\ (is_Some (discoveredUniverses m' !! u)
      <-> is_Some (discoveredUniverses m !! u)
          \/ (isValidUniverse u = true /\ exists e, e ∈ packets /\ e.1.1 = u)).
Proof.
  cbv zeta. unfold updateAll. revert m.
  induction packets as [|[[u0 src] now] packets IH]; intros m.
  - cbn [foldl filter length]. split; [reflexivity|].
    split; [destruct (isValidUniverse u); cbn; lia|].
    split; [now left|]. intros [H|(_ & e & He & _)]; [exact H | inversion He].
  - cbn [foldl fst snd].
    destruct (IH (updateFromPacket u0 src now m)) as (Hsel & Hcount & Hsome).
    destruct (updateFromPacket_spec u0 src now m u) as (Hsel1 & Hcount1 & Hsome1).
    split; [congruence|]. split.
    + rewrite Hcount, Hcount1.
      destruct (decide (u0 = u)) as [->|Hne].
      * rewrite filter_cons_True by reflexivity.
        rewrite bool_decide_eq_true_2 by reflexivity. cbn [andb length].
        destruct (isValidUniverse u); lia.
      * rewrite filter_cons_False by (cbn; congruence).
        rewrite bool_decide_eq_false_2 by congruence. cbn [andb]. lia.
    + rewrite Hsome, Hsome1. split.
      * intros [[H|[-> Hv]]|(Hv & e & He & Hu)].
        -- now left.
        -- right. split; [exact Hv|]. eexists. split; [apply list_elem_of_here | reflexivity].
        -- right. split; [exact Hv|]. exists e. split; [now apply list_elem_of_further | exact Hu].
      * intros [H|(Hv & e & He & Hu)]; [now left; left|].
        apply elem_of_cons in He as [->|He].
        -- left. right. cbn [fst] in Hu. subst u0. split; [reflexivity | exact Hv].
        -- right. split; [exact Hv|]. exists e. split; assumption.
Qed.

End UniverseExtra.
